(** * GorAI_LLMClient: provider adapters and the conversation loop

    A shallow embedding of [models/_model_base.py], [models/_openai_model.py],
    [models/_anthropic_model.py], [models/_deepseek_openai_model.py] and
    [models/_minimax_anthropic_model.py], followed by the properties of the
    adapters, of the tool-call accumulator, of the argument parser and of the
    three orchestration loops.

    Conventions of the embedding.
    - A Python [str] is a [string]: the sequence of the bytes of its UTF-8
      encoding.  Emptiness, equality, concatenation and the replacement of
      one ASCII character by another are the same on both sides.
    - A Python generator is the list of the values it yields together with
      the way it stops (normal exhaustion, [return], or a raised exception).
    - Every [yield] of the loops is [b'data: ' + encode_json(d) + b'\n\n'];
      the embedding yields the dictionary [d] itself as a typed value.
    - [print] calls are dropped.
    - [json.loads] is taken as the program finds it: every definition that
      calls it takes it from the class [JsonModule], and every general
      statement holds for whatever the function returns or raises.  The
      examples run on [Json.loads], a decoder with the limits of the
      interpreter on the digits of an integer and on nesting. *)

From Stdlib Require Import ZArith Lia Ascii String.
From stdpp Require Import base strings list gmap sorting.

Open Scope string_scope.
Open Scope list_scope.

(** ** Python exceptions *)

(** The exception classes the code can meet.  All of them are subclasses of
    [Exception]; [JSONDecodeError] is the only one some handlers single out.
    It is a subclass of [ValueError], so [except json.JSONDecodeError] lets a
    plain [ValueError] go by. *)
Inductive exn : Type :=
| JSONDecodeError
| ValueError (message : string)
| RecursionError
| KeyError (key : string)
| TypeError
| AttributeError
| IndexError
| UnboundLocalError (name : string)
| OtherException (tag : string).

Inductive Exc (A : Type) : Type :=
| Ok (a : A)
| Raise (e : exn).
Arguments Ok {A} a.
Arguments Raise {A} e.

Definition exc_bind {A B} (m : Exc A) (k : A -> Exc B) : Exc B :=
  match m with
  | Ok a => k a
  | Raise e => Raise e
  end.

Definition is_JSONDecodeError (e : exn) : bool :=
  match e with JSONDecodeError => true | _ => false end.

(** [try: body except <class>: handler]: only the exceptions selected by
    [catches] reach the handler, the others go on to the caller. *)
Definition exc_try {A} (body : Exc A) (catches : exn -> bool)
    (handler : exn -> Exc A) : Exc A :=
  match body with
  | Ok a => Ok a
  | Raise e => if catches e then handler e else Raise e
  end.

(** ** Python strings *)

Definition dquote : ascii := "034"%char.
Definition squote : ascii := "039"%char.
Definition backslash : ascii := "092"%char.

(** Truth value of a string: [bool(s)]. *)
Definition nonempty (s : string) : bool :=
  match s with EmptyString => false | String _ _ => true end.

(** [not xs] on a list. *)
Definition is_nil {A} (l : list A) : bool :=
  match l with [] => true | _ :: _ => false end.

(** [s.replace(a, b)] for one-character [a] and [b]. *)
Fixpoint py_replace (a b : ascii) (s : string) : string :=
  match s with
  | EmptyString => EmptyString
  | String c s' => String (if Ascii.eqb c a then b else c) (py_replace a b s')
  end.

Definition byte_in (c : ascii) (lo hi : N) : bool :=
  (lo <=? N_of_ascii c)%N && (N_of_ascii c <=? hi)%N.

(** One-byte white space of [str.isspace]: U+0009..U+000D, U+001C..U+0020. *)
Definition is_space1 (c : ascii) : bool :=
  byte_in c 9 13 || byte_in c 28 32.

(** Two-byte white space: U+0085 and U+00A0 (C2 85, C2 A0). *)
Definition is_space2 (c1 c2 : ascii) : bool :=
  (N_of_ascii c1 =? 194)%N && ((N_of_ascii c2 =? 133)%N || (N_of_ascii c2 =? 160)%N).

(** Three-byte white space: U+1680, U+2000..U+200A, U+2028, U+2029, U+202F,
    U+205F, U+3000. *)
Definition is_space3 (c1 c2 c3 : ascii) : bool :=
  let a := N_of_ascii c1 in
  let b := N_of_ascii c2 in
  let c := N_of_ascii c3 in
  ((a =? 225) && (b =? 154) && (c =? 128))%N
  || ((a =? 226) && (b =? 128) && (byte_in c3 128 138 || (c =? 168) || (c =? 169) || (c =? 175)))%N
  || ((a =? 226) && (b =? 129) && (c =? 159))%N
  || ((a =? 227) && (b =? 128) && (c =? 128))%N.

(** [s.lstrip()]. *)
Fixpoint py_lstrip (s : string) : string :=
  match s with
  | EmptyString => EmptyString
  | String c1 s1 =>
      if is_space1 c1 then py_lstrip s1
      else match s1 with
           | EmptyString => s
           | String c2 s2 =>
               if is_space2 c1 c2 then py_lstrip s2
               else match s2 with
                    | EmptyString => s
                    | String c3 s3 =>
                        if is_space3 c1 c2 c3 then py_lstrip s3 else s
                    end
           end
  end.

Fixpoint string_rev_append (s acc : string) : string :=
  match s with
  | EmptyString => acc
  | String c s' => string_rev_append s' (String c acc)
  end.

Definition string_rev (s : string) : string := string_rev_append s EmptyString.

(** [lstrip] on the reversed string: the bytes of a character come last
    byte first. *)
Fixpoint py_lstrip_rev (s : string) : string :=
  match s with
  | EmptyString => EmptyString
  | String c1 s1 =>
      if is_space1 c1 then py_lstrip_rev s1
      else match s1 with
           | EmptyString => s
           | String c2 s2 =>
               if is_space2 c2 c1 then py_lstrip_rev s2
               else match s2 with
                    | EmptyString => s
                    | String c3 s3 =>
                        if is_space3 c3 c2 c1 then py_lstrip_rev s3 else s
                    end
           end
  end.

(** [s.strip()]. *)
Definition py_strip (s : string) : string :=
  string_rev (py_lstrip_rev (string_rev (py_lstrip s))).

(** ** JSON values and [json.loads]

    The values [json.loads] builds.  [JNull] is Python's [None], [JObj] a
    [dict] in insertion order.  A float is kept as the text of its literal:
    no claim computes with floats. *)
#[local] Set Warnings "-register-all".

Inductive JSON : Type :=
| JNull
| JBool (b : bool)
| JInt (z : Z)
| JFloat (literal : string)
| JStr (s : string)
| JArr (items : list JSON)
| JObj (fields : list (string * JSON)).

(** [d[k] = v] on a dict: an existing key keeps its place. *)
Fixpoint dict_set (k : string) (v : JSON) (d : list (string * JSON))
    : list (string * JSON) :=
  match d with
  | [] => [(k, v)]
  | (k', v') :: d' =>
      if String.eqb k k' then (k, v) :: d' else (k', v') :: dict_set k v d'
  end.

Definition dict_of_pairs (kvs : list (string * JSON)) : list (string * JSON) :=
  fold_left (fun d kv => dict_set (fst kv) (snd kv) d) kvs [].

Fixpoint dict_get (k : string) (d : list (string * JSON)) : option JSON :=
  match d with
  | [] => None
  | (k', v) :: d' => if String.eqb k k' then Some v else dict_get k d'
  end.

Module Json.

Definition is_ws (c : ascii) : bool :=
  let n := N_of_ascii c in
  ((n =? 32) || (n =? 9) || (n =? 10) || (n =? 13))%N.

Fixpoint skip_ws (s : string) : string :=
  match s with
  | EmptyString => EmptyString
  | String c s' => if is_ws c then skip_ws s' else s
  end.

Definition is_digit (c : ascii) : bool := byte_in c 48 57.

Definition hex_val (c : ascii) : option N :=
  let n := N_of_ascii c in
  if byte_in c 48 57 then Some (n - 48)%N
  else if byte_in c 65 70 then Some (n - 55)%N
  else if byte_in c 97 102 then Some (n - 87)%N
  else None.

Definition hex4 (a b c d : ascii) : option N :=
  match hex_val a, hex_val b, hex_val c, hex_val d with
  | Some x, Some y, Some z, Some w => Some (((x * 16 + y) * 16 + z) * 16 + w)%N
  | _, _, _, _ => None
  end.

Definition byte_string (l : list N) : string :=
  fold_right (fun n s => String (ascii_of_N n) s) EmptyString l.

(** The UTF-8 bytes of a code point (a lone surrogate is encoded like any
    other three-byte code point). *)
Definition utf8_encode (cp : N) : string :=
  (if cp <? 128 then byte_string [cp]
   else if cp <? 2048 then byte_string [192 + cp / 64; 128 + cp mod 64]
   else if cp <? 65536 then
     byte_string [224 + cp / 4096; 128 + (cp / 64) mod 64; 128 + cp mod 64]
   else
     byte_string [240 + cp / 262144; 128 + (cp / 4096) mod 64;
                  128 + (cp / 64) mod 64; 128 + cp mod 64])%N.

Definition simple_escape (e : ascii) : option ascii :=
  let n := N_of_ascii e in
  (if n =? 34 then Some dquote
   else if n =? 92 then Some backslash
   else if n =? 47 then Some "/"%char
   else if n =? 98 then Some "008"%char
   else if n =? 102 then Some "012"%char
   else if n =? 110 then Some "010"%char
   else if n =? 114 then Some "013"%char
   else if n =? 116 then Some "009"%char
   else None)%N.

Definition prepend (p : string) (r : option (string * string))
    : option (string * string) :=
  match r with
  | Some (str, rest) => Some (p +:+ str, rest)
  | None => None
  end.

(** The scanner of a string literal in strict mode, started after the opening
    quote: the decoded text and the input left after the closing quote. *)
Fixpoint scanstring (s : string) : option (string * string) :=
  match s with
  | EmptyString => None
  | String c s1 =>
      if Ascii.eqb c dquote then Some (EmptyString, s1)
      else if Ascii.eqb c backslash then
        match s1 with
        | EmptyString => None
        | String e s2 =>
            if Ascii.eqb e "u"%char then
              match s2 with
              | String h1 (String h2 (String h3 (String h4 s6))) =>
                  match hex4 h1 h2 h3 h4 with
                  | None => None
                  | Some uni =>
                      match s6 with
                      | String b (String u (String g1 (String g2 (String g3 (String g4 s12))))) =>
                          if ((55296 <=? uni) && (uni <=? 56319))%N
                             && Ascii.eqb b backslash && Ascii.eqb u "u"%char
                          then
                            match hex4 g1 g2 g3 g4 with
                            | None => None
                            | Some uni2 =>
                                if ((56320 <=? uni2) && (uni2 <=? 57343))%N
                                then prepend
                                       (utf8_encode (65536 + ((uni - 55296) * 1024 + (uni2 - 56320)))%N)
                                       (scanstring s12)
                                else prepend (utf8_encode uni) (scanstring s6)
                            end
                          else prepend (utf8_encode uni) (scanstring s6)
                      | _ => prepend (utf8_encode uni) (scanstring s6)
                      end
                  end
              | _ => None
              end
            else
              match simple_escape e with
              | Some c' => prepend (String c' EmptyString) (scanstring s2)
              | None => None
              end
        end
      else if (N_of_ascii c <? 32)%N then None
      else prepend (String c EmptyString) (scanstring s1)
  end.

Fixpoint span_digits (s : string) : string * string :=
  match s with
  | EmptyString => (EmptyString, EmptyString)
  | String c s' =>
      if is_digit c
      then let '(d, r) := span_digits s' in (String c d, r)
      else (EmptyString, s)
  end.

Fixpoint digits_value (acc : Z) (s : string) : Z :=
  match s with
  | EmptyString => acc
  | String c s' => digits_value (acc * 10 + (Z.of_N (N_of_ascii c) - 48)) s'
  end.

(** The integer part, an optional minus sign then either 0 or a digit 1-9
    followed by digits: sign, digits and the rest. *)
Definition match_integer (s : string) : option (bool * string * string) :=
  let '(neg, s1) :=
    match s with
    | String c s' => if Ascii.eqb c "-"%char then (true, s') else (false, s)
    | EmptyString => (false, s)
    end in
  match s1 with
  | EmptyString => None
  | String c s2 =>
      if byte_in c 49 57 then
        let '(ds, r) := span_digits s1 in Some (neg, ds, r)
      else if Ascii.eqb c "0"%char then Some (neg, String c EmptyString, s2)
      else None
  end.

(** The optional fraction: a dot followed by at least one digit. *)
Definition match_fraction (s : string) : string * string :=
  match s with
  | String c s1 =>
      if Ascii.eqb c "."%char then
        match span_digits s1 with
        | (EmptyString, _) => (EmptyString, s)
        | (ds, r) => (String c ds, r)
        end
      else (EmptyString, s)
  | EmptyString => (EmptyString, s)
  end.

(** The optional exponent: e or E, an optional sign, at least one digit. *)
Definition match_exponent (s : string) : string * string :=
  match s with
  | String c s1 =>
      if Ascii.eqb c "e"%char || Ascii.eqb c "E"%char then
        let '(sign, s2) :=
          match s1 with
          | String d s' =>
              if Ascii.eqb d "-"%char || Ascii.eqb d "+"%char
              then (String d EmptyString, s') else (EmptyString, s1)
          | EmptyString => (EmptyString, s1)
          end in
        match span_digits s2 with
        | (EmptyString, _) => (EmptyString, s)
        | (ds, r) => (String c (sign +:+ ds), r)
        end
      else (EmptyString, s)
  | EmptyString => (EmptyString, s)
  end.

(** What the interpreter allows the decoder where [json.loads] is called:
    the digits of an integer literal ([sys.get_int_max_str_digits()], 4300
    unless it is changed, 0 for no limit), and the arrays and objects inside
    one another that its stack still takes. *)
Record Limits : Type := mkLimits {
  int_max_str_digits : nat;
  recursion_left : nat
}.

(** [int(integer)] of the scanner refuses a literal with more digits than
    the interpreter converts. *)
Definition too_many_digits (lim : Limits) (ds : string) : bool :=
  Nat.ltb 0 (int_max_str_digits lim)
  && Nat.ltb (int_max_str_digits lim) (String.length ds).

(** The message of the exception is abridged. *)
Definition digits_error : exn :=
  ValueError "Exceeds the limit for integer string conversion".

(** A number: [None] where the text is no number, the float or the integer
    otherwise, or the [ValueError] of [int]. *)
Definition match_number (lim : Limits) (s : string) : option (Exc (JSON * string)) :=
  match match_integer s with
  | None => None
  | Some (neg, ds, r1) =>
      let '(frac, r2) := match_fraction r1 in
      let '(exp, r3) := match_exponent r2 in
      let sign := if neg then "-" else EmptyString in
      if nonempty frac || nonempty exp
      then Some (Ok (JFloat (sign +:+ ds +:+ frac +:+ exp), r3))
      else if too_many_digits lim ds then Some (Raise digits_error)
      else Some (Ok (JInt (if neg then - digits_value 0 ds else digits_value 0 ds), r3))
  end.

Fixpoint strip_prefix (p s : string) : option string :=
  match p with
  | EmptyString => Some s
  | String a p' =>
      match s with
      | String b s' => if Ascii.eqb a b then strip_prefix p' s' else None
      | EmptyString => None
      end
  end.

(** The literals, then the numbers, in the order of the scanner. *)
Definition scan_atom (lim : Limits) (s : string) : Exc (JSON * string) :=
  match strip_prefix "null" s with
  | Some r => Ok (JNull, r)
  | None =>
  match strip_prefix "true" s with
  | Some r => Ok (JBool true, r)
  | None =>
  match strip_prefix "false" s with
  | Some r => Ok (JBool false, r)
  | None =>
  match strip_prefix "NaN" s with
  | Some r => Ok (JFloat "NaN", r)
  | None =>
  match strip_prefix "Infinity" s with
  | Some r => Ok (JFloat "Infinity", r)
  | None =>
  match strip_prefix "-Infinity" s with
  | Some r => Ok (JFloat "-Infinity", r)
  | None =>
  match match_number lim s with
  | Some r => r
  | None => Raise JSONDecodeError
  end end end end end end end.

Section Scanner.

Variable lim : Limits.

(** The recursive descent over values, objects and arrays.  [depth] is the
    number of arrays and objects the scanner may still enter: it enters one
    at every opening brace or bracket and raises [RecursionError] when none
    is left.  The fuel bounds the calls; [loads] gives more than any input can
    use, since every call is made after at least one more character has been
    read or one level below a call that read one. *)
Fixpoint parse_value (fuel depth : nat) (s : string) : Exc (JSON * string) :=
  match fuel with
  | O => Raise JSONDecodeError
  | S n =>
      match s with
      | EmptyString => Raise JSONDecodeError
      | String c s1 =>
          if Ascii.eqb c dquote then
            match scanstring s1 with
            | Some (str, r) => Ok (JStr str, r)
            | None => Raise JSONDecodeError
            end
          else if Ascii.eqb c "{"%char then
            match depth with
            | O => Raise RecursionError
            | S d =>
                match skip_ws s1 with
                | String e r =>
                    if Ascii.eqb e "}"%char then Ok (JObj [], r)
                    else
                      match parse_members n d (String e r) with
                      | Ok (kvs, r') => Ok (JObj (dict_of_pairs kvs), r')
                      | Raise x => Raise x
                      end
                | EmptyString => Raise JSONDecodeError
                end
            end
          else if Ascii.eqb c "["%char then
            match depth with
            | O => Raise RecursionError
            | S d =>
                match skip_ws s1 with
                | String e r =>
                    if Ascii.eqb e "]"%char then Ok (JArr [], r)
                    else
                      match parse_elements n d (String e r) with
                      | Ok (vs, r') => Ok (JArr vs, r')
                      | Raise x => Raise x
                      end
                | EmptyString => Raise JSONDecodeError
                end
            end
          else scan_atom lim s
      end
  end
with parse_members (fuel depth : nat) (s : string)
    : Exc (list (string * JSON) * string) :=
  match fuel with
  | O => Raise JSONDecodeError
  | S n =>
      match s with
      | EmptyString => Raise JSONDecodeError
      | String c s1 =>
          if Ascii.eqb c dquote then
            match scanstring s1 with
            | None => Raise JSONDecodeError
            | Some (key, r1) =>
                match skip_ws r1 with
                | EmptyString => Raise JSONDecodeError
                | String colon r2 =>
                    if Ascii.eqb colon ":"%char then
                      match parse_value n depth (skip_ws r2) with
                      | Raise x => Raise x
                      | Ok (v, r3) =>
                          match skip_ws r3 with
                          | EmptyString => Raise JSONDecodeError
                          | String e r4 =>
                              if Ascii.eqb e "}"%char then Ok ([(key, v)], r4)
                              else if Ascii.eqb e ","%char then
                                match parse_members n depth (skip_ws r4) with
                                | Ok (kvs, r5) => Ok ((key, v) :: kvs, r5)
                                | Raise x => Raise x
                                end
                              else Raise JSONDecodeError
                          end
                      end
                    else Raise JSONDecodeError
                end
            end
          else Raise JSONDecodeError
      end
  end
with parse_elements (fuel depth : nat) (s : string) : Exc (list JSON * string) :=
  match fuel with
  | O => Raise JSONDecodeError
  | S n =>
      match parse_value n depth s with
      | Raise x => Raise x
      | Ok (v, r1) =>
          match skip_ws r1 with
          | EmptyString => Raise JSONDecodeError
          | String e r2 =>
              if Ascii.eqb e "]"%char then Ok ([v], r2)
              else if Ascii.eqb e ","%char then
                match parse_elements n depth (skip_ws r2) with
                | Ok (vs, r3) => Ok (v :: vs, r3)
                | Raise x => Raise x
                end
              else Raise JSONDecodeError
          end
      end
  end.

Definition bom : string := byte_string [239; 187; 191]%N.

(** [json.loads(s)] for a [str] on an interpreter with the limits [lim]:
    the value, [JSONDecodeError] on a text that is no JSON document, or the
    exception of the limit the scanner runs into first. *)
Definition loads (s : string) : Exc JSON :=
  match strip_prefix bom s with
  | Some _ => Raise JSONDecodeError
  | None =>
      match parse_value (2 * String.length s + 2) (recursion_left lim) (skip_ws s) with
      | Raise x => Raise x
      | Ok (v, r) =>
          match skip_ws r with
          | EmptyString => Ok v
          | String _ _ => Raise JSONDecodeError
          end
      end
  end.

End Scanner.

End Json.

(** The [json] module the program is run with.  The program takes
    [json.loads] as it finds it: a function from a text to a value or an
    exception, of which [JSONDecodeError] is one. *)
Class JsonModule : Type := { loads : string -> Exc JSON }.

(** The limits of the examples: the default limit on digits, and room for
    900 containers inside one another (the default recursion limit of 1000
    less the frames of the callers; no example comes near it). *)
Definition example_limits : Json.Limits := Json.mkLimits 4300 900.

(** [v[k]] for a string key: [KeyError] on a dict without the key,
    [TypeError] on anything that is not a dict. *)
Definition py_getitem (v : JSON) (k : string) : Exc JSON :=
  match v with
  | JObj d =>
      match dict_get k d with
      | Some x => Ok x
      | None => Raise (KeyError k)
      end
  | _ => Raise TypeError
  end.

(** ** The argument parser of [model_base] *)

Section ArgumentParser.

(** [json.loads], as the decoder the class is run with. *)
Variable json_loads : string -> Exc JSON.

(** [model_base._try_parse_tool_arguments]. *)
Definition _try_parse_tool_arguments (arguments_str : string) : Exc JSON :=
  if negb (nonempty arguments_str) || negb (nonempty (py_strip arguments_str))
  then Ok (JObj [])
  else
    exc_try (json_loads arguments_str) is_JSONDecodeError (fun _ =>
      exc_try
        (let fixed_args := py_replace squote dquote arguments_str in
         json_loads fixed_args)
        is_JSONDecodeError
        (fun e => Ok JNull)).

End ArgumentParser.

Definition parse_tool_arguments {json : JsonModule} : string -> Exc JSON :=
  _try_parse_tool_arguments loads.

(** ** Conversation history *)

(** The content blocks of the Anthropic message format. *)
Inductive Block : Type :=
| ThinkingBlock (thinking : string)
| TextBlock (text : string)
| ToolUseBlock (id name : string) (input : JSON)
| ToolResultBlock (tool_use_id content : string).

Inductive Content : Type :=
| CStr (s : string)
| CBlocks (blocks : list Block).

(** One entry of an assistant message's [tool_calls]:
    [{'id': .., 'function': {'arguments': .., 'name': ..}, 'type': ..}]. *)
Record ToolCall : Type := mkToolCall {
  tc_id : string;
  tc_type : string;
  tc_name : string;
  tc_arguments : string
}.

(** A message of the history: a dict with the keys the loops write and
    read.  An absent key is [None]. *)
Record Message : Type := mkMessage {
  role : string;
  content : Content;
  tool_calls : option (list ToolCall);
  tool_call_id : option string;
  reasoning_content : option string
}.

(** [{'role': r, 'content': c}]. *)
Definition plain_message (r : string) (c : Content) : Message :=
  mkMessage r c None None None.

(** [{'role': 'tool', 'tool_call_id': i, 'content': c}]. *)
Definition tool_message (i c : string) : Message :=
  mkMessage "tool" (CStr c) None (Some i) None.

(** ** The events of the adapters: [MsgReturn] *)

Inductive GorType : Type :=
| gor_think
| gor_answer
| gor_tool
| gor_end
| gor_error.

(** What the adapters put into [extra]. *)
Inductive Extra : Type :=
| ExtraDelta (delta : string)
| ExtraToolCall (tool_call : ToolCall)
| ExtraEndOpenAI (reasoning content : string) (calls : list ToolCall)
| ExtraEndAnthropic (content thinking : string) (calls : list ToolCall)
| ExtraMessage
| ExtraError (error : string).

(** [MsgReturn(content, type, gorType, extra, default_response)]; the raw
    provider object [default_response] is left out. *)
Record MsgReturn : Type := mkMsgReturn {
  msg_content : string;
  msg_type : string;
  gorType : GorType;
  extra : Extra
}.

(** The dict an adapter serialises for a tool call. *)
Definition tool_call_json (tc : ToolCall) : JSON :=
  JObj [("id", JStr (tc_id tc));
        ("type", JStr (tc_type tc));
        ("function", JObj [("name", JStr (tc_name tc));
                           ("arguments", JStr (tc_arguments tc))])].

(** A generator of an adapter: what it yields, and the exception that ends
    it if one is raised. *)
Record Gen : Type := mkGen {
  yielded : list MsgReturn;
  raised : option exn
}.

Definition gen_done (evs : list MsgReturn) : Gen := mkGen evs None.
Definition gen_raise (evs : list MsgReturn) (e : exn) : Gen := mkGen evs (Some e).
Definition gen_after (evs : list MsgReturn) (g : Gen) : Gen :=
  mkGen (evs ++ yielded g) (raised g).

(** The items a streamed response hands to [for chunk in response]: a chunk,
    or the exception the transport raises instead of the next chunk. *)
Inductive StreamItem (C : Type) : Type :=
| SChunk (chunk : C)
| SRaise (e : exn).
Arguments SChunk {C} chunk.
Arguments SRaise {C} e.

(** The event of the [except Exception as e] clause of [model_chat];
    [py_str] is [str] on exceptions. *)
Definition error_event (py_str : exn -> string) (e : exn) : MsgReturn :=
  mkMsgReturn ("Error: " +:+ py_str e) "error" gor_error (ExtraError (py_str e)).

(** [try: yield from ... except Exception as e: yield MsgReturn(error)] *)
Definition catch_all (py_str : exn -> string) (g : Gen) : list MsgReturn :=
  match raised g with
  | None => yielded g
  | Some e => yielded g ++ [error_event py_str e]
  end.

(** [x or ''] and the truth value of an optional string. *)
Definition or_empty (o : option string) : string :=
  match o with Some s => s | None => EmptyString end.

Definition truthy (o : option string) : bool := nonempty (or_empty o).

(** ** [openai_chat_completetion_model] *)

Module OpenAI.

(** [tool_call_delta.function] *)
Record FunctionDelta : Type := mkFunctionDelta {
  fd_name : option string;
  fd_arguments : option string
}.

(** One element of [delta.tool_calls]. *)
Record ToolCallDelta : Type := mkToolCallDelta {
  tcd_index : option Z;
  tcd_id : option string;
  tcd_function : option FunctionDelta
}.

(** [choice.delta]; [delta_reasoning_content] is [None] as well when the
    attribute does not exist. *)
Record Delta : Type := mkDelta {
  delta_reasoning_content : option string;
  delta_content : option string;
  delta_tool_calls : option (list ToolCallDelta)
}.

(** A streamed chunk: the deltas of its [choices]. *)
Record Chunk : Type := mkChunk { chunk_choices : list Delta }.

(** A tool call of a whole response. *)
Record MessageToolCall : Type := mkMessageToolCall {
  mtc_id : string;
  mtc_type : string;
  mtc_name : string;
  mtc_arguments : string
}.

(** [choice.message] of a whole response. *)
Record ChatMessage : Type := mkChatMessage {
  cm_content : option string;
  cm_tool_calls : option (list MessageToolCall)
}.

Record ChatCompletion : Type := mkChatCompletion { cc_choices : list ChatMessage }.

(** The model object: its mode and what [client.chat.completions.create]
    does for a history, in either mode. *)
Record Model : Type := mkModel {
  stream : bool;
  create_stream : list Message -> Exc (list (StreamItem Chunk));
  create_normal : list Message -> Exc ChatCompletion
}.

(** The local variables of [_handle_stream_response]. *)
Record StreamVars : Type := mkStreamVars {
  sv_reasoning_content : string;
  sv_content : string;
  tool_calls_dict : gmap Z ToolCall
}.

(** The body of [for tool_call_delta in delta.tool_calls] on the dict. *)
Definition accumulate (d : gmap Z ToolCall) (tcd : ToolCallDelta)
    : Exc (gmap Z ToolCall) :=
  match tcd_index tcd with
  | None => Ok d
  | Some tool_index =>
      match d !! tool_index with
      | None =>
          match tcd_function tcd with
          | None => Raise AttributeError
          | Some f =>
              Ok (<[tool_index :=
                      mkToolCall (or_empty (tcd_id tcd)) "function"
                        (or_empty (fd_name f)) (or_empty (fd_arguments f))]> d)
          end
      | Some current_tool =>
          let id1 :=
            if truthy (tcd_id tcd) && negb (nonempty (tc_id current_tool))
            then or_empty (tcd_id tcd) else tc_id current_tool in
          let name1 :=
            match tcd_function tcd with
            | Some f =>
                if truthy (fd_name f)
                then tc_name current_tool +:+ or_empty (fd_name f)
                else tc_name current_tool
            | None => tc_name current_tool
            end in
          let arguments1 :=
            match tcd_function tcd with
            | Some f =>
                if truthy (fd_arguments f)
                then tc_arguments current_tool +:+ or_empty (fd_arguments f)
                else tc_arguments current_tool
            | None => tc_arguments current_tool
            end in
          Ok (<[tool_index :=
                  mkToolCall id1 (tc_type current_tool) name1 arguments1]> d)
      end
  end.

Fixpoint accumulate_all (d : gmap Z ToolCall) (tcds : list ToolCallDelta)
    : Exc (gmap Z ToolCall) :=
  match tcds with
  | [] => Ok d
  | tcd :: rest => exc_bind (accumulate d tcd) (fun d' => accumulate_all d' rest)
  end.

(** [sorted(tool_calls_dict.keys())] *)
Definition sorted_keys (d : gmap Z ToolCall) : list Z :=
  merge_sort Z.le (map_to_list d).*1.

(** The keys in sorted order with their records, for those with an id. *)
Definition finalize_indexed (d : gmap Z ToolCall) : list (Z * ToolCall) :=
  omap (fun i =>
          match d !! i with
          | Some tc => if nonempty (tc_id tc) then Some (i, tc) else None
          | None => None
          end)
       (sorted_keys d).

(** [[tool_calls_dict[i] for i in sorted(tool_calls_dict.keys())
      if tool_calls_dict[i]['id']]] *)
Definition finalize (d : gmap Z ToolCall) : list ToolCall :=
  map snd (finalize_indexed d).

Section Adapter.

(** [json.dumps(obj, ensure_ascii=b)] and [str(e)]. *)
Variable json_dumps : bool -> JSON -> string.
Variable py_str : exn -> string.

Definition think_event (reasoning_delta : string) : MsgReturn :=
  mkMsgReturn reasoning_delta "reasoning" gor_think (ExtraDelta reasoning_delta).

Definition answer_event (content_delta : string) : MsgReturn :=
  mkMsgReturn content_delta "content" gor_answer (ExtraDelta content_delta).

Definition tool_event (tool_call : ToolCall) : MsgReturn :=
  mkMsgReturn (json_dumps false (tool_call_json tool_call)) "tool_calls" gor_tool
    (ExtraToolCall tool_call).

(** One turn of [for chunk in response]: the events yielded, and the
    variables afterwards unless the tool-call part raises. *)
Definition handle_chunk (chunk : Chunk) (vars : StreamVars)
    : list MsgReturn * Exc StreamVars :=
  match chunk_choices chunk with
  | [] => ([], Ok vars)
  | delta :: _ =>
      let '(evs1, reasoning1) :=
        if truthy (delta_reasoning_content delta)
        then ([think_event (or_empty (delta_reasoning_content delta))],
              sv_reasoning_content vars +:+ or_empty (delta_reasoning_content delta))
        else ([], sv_reasoning_content vars) in
      let '(evs2, content1) :=
        if truthy (delta_content delta)
        then ([answer_event (or_empty (delta_content delta))],
              sv_content vars +:+ or_empty (delta_content delta))
        else ([], sv_content vars) in
      (evs1 ++ evs2,
       match delta_tool_calls delta with
       | Some tcds =>
           exc_bind (accumulate_all (tool_calls_dict vars) tcds)
             (fun d => Ok (mkStreamVars reasoning1 content1 d))
       | None => Ok (mkStreamVars reasoning1 content1 (tool_calls_dict vars))
       end)
  end.

(** What follows the loop: the tool events, then the end event. *)
Definition stream_finish (vars : StreamVars) : list MsgReturn :=
  let tool_calls := finalize (tool_calls_dict vars) in
  map tool_event tool_calls
    ++ [mkMsgReturn EmptyString "end" gor_end
          (ExtraEndOpenAI (sv_reasoning_content vars) (sv_content vars) tool_calls)].

Fixpoint stream_loop (items : list (StreamItem Chunk)) (vars : StreamVars) : Gen :=
  match items with
  | [] => gen_done (stream_finish vars)
  | SRaise e :: _ => gen_raise [] e
  | SChunk chunk :: rest =>
      match handle_chunk chunk vars with
      | (evs, Ok vars') => gen_after evs (stream_loop rest vars')
      | (evs, Raise e) => gen_raise evs e
      end
  end.

Definition _handle_stream_response (response : Exc (list (StreamItem Chunk))) : Gen :=
  match response with
  | Raise e => gen_raise [] e
  | Ok items => stream_loop items (mkStreamVars EmptyString EmptyString ∅)
  end.

Definition _handle_normal_response (response : Exc ChatCompletion) : Gen :=
  match response with
  | Raise e => gen_raise [] e
  | Ok r =>
      match cc_choices r with
      | [] => gen_raise [] IndexError
      | message :: _ =>
          gen_done
            ((if truthy (cm_content message)
              then [mkMsgReturn (or_empty (cm_content message)) "content"
                      gor_answer ExtraMessage]
              else [])
             ++ map (fun tool_call =>
                       let tool_call_dict :=
                         mkToolCall (mtc_id tool_call) (mtc_type tool_call)
                           (mtc_name tool_call) (mtc_arguments tool_call) in
                       mkMsgReturn (json_dumps false (tool_call_json tool_call_dict))
                         "tool_calls" gor_tool (ExtraToolCall tool_call_dict))
                    (default [] (cm_tool_calls message))
             ++ [mkMsgReturn EmptyString "end" gor_end ExtraMessage])
      end
  end.

Definition model_chat (self : Model) (messages : list Message) : list MsgReturn :=
  catch_all py_str
    (if stream self
     then _handle_stream_response (create_stream self messages)
     else _handle_normal_response (create_normal self messages)).

End Adapter.

End OpenAI.

(** ** [anthropic_model] *)

Module Anthropic.

(** [chunk.content_block] of a [content_block_start] chunk. *)
Inductive BlockStart : Type :=
| StartToolUse (id name : string)
| StartThinking
| StartText
| StartOther.

(** [chunk.delta] of a [content_block_delta] chunk. *)
Inductive BlockDelta : Type :=
| TextDelta (text : string)
| ThinkingDelta (thinking : string)
| InputJsonDelta (partial_json : string)
| OtherDelta.

Inductive Chunk : Type :=
| MessageStart
| ContentBlockStart (content_block : BlockStart)
| ContentBlockDelta (delta : BlockDelta)
| ContentBlockStop
| MessageDelta
| MessageStop
| OtherChunk.

(** A block of [response.content] of a whole response. *)
Inductive ResponseBlock : Type :=
| RText (text : string)
| RThinking (thinking : string)
| RToolUse (id name : string) (input : JSON)
| ROther.

Record Response : Type := mkResponse { resp_content : list ResponseBlock }.

(** The messages of a request, after [_convert_messages_to_anthropic]. *)
Inductive ABlock : Type :=
| AText (text : Content)
| AToolUse (id name : string) (input : JSON)
| AToolResult (tool_use_id : string) (content : Content).

Inductive AContent : Type :=
| APlain (c : Content)
| ABlocks (blocks : list ABlock).

Record AMessage : Type := mkAMessage { a_role : string; a_content : AContent }.

Record Model : Type := mkModel {
  stream : bool;
  create_stream : list AMessage -> Exc (list (StreamItem Chunk));
  create_normal : list AMessage -> Exc Response
}.

(** Truth value of a message content: a non-empty string or list. *)
Definition content_truthy (c : Content) : bool :=
  match c with
  | CStr s => nonempty s
  | CBlocks bs => negb (is_nil bs)
  end.

Fixpoint convert_tool_calls {json : JsonModule} (tcs : list ToolCall) : Exc (list ABlock) :=
  match tcs with
  | [] => Ok []
  | tool_call :: rest =>
      exc_bind (loads (tc_arguments tool_call)) (fun input =>
      exc_bind (convert_tool_calls rest) (fun bs =>
      Ok (AToolUse (tc_id tool_call) (tc_name tool_call) input :: bs)))
  end.

Definition convert_message {json : JsonModule} (message : Message) : Exc AMessage :=
  if String.eqb (role message) "tool" then
    Ok (mkAMessage "user"
          (ABlocks [AToolResult (default EmptyString (tool_call_id message))
                      (content message)]))
  else
    match String.eqb (role message) "assistant", tool_calls message with
    | true, Some tcs =>
        exc_bind (convert_tool_calls tcs) (fun bs =>
        Ok (mkAMessage "assistant"
              (ABlocks ((if content_truthy (content message)
                         then [AText (content message)] else []) ++ bs))))
    | _, _ => Ok (mkAMessage (role message) (APlain (content message)))
    end.

Fixpoint _convert_messages_to_anthropic {json : JsonModule} (messages : list Message)
    : Exc (list AMessage) :=
  match messages with
  | [] => Ok []
  | message :: rest =>
      exc_bind (convert_message message) (fun m =>
      exc_bind (_convert_messages_to_anthropic rest) (fun ms => Ok (m :: ms)))
  end.

Inductive ContentType : Type := ct_thinking | ct_text.

(** The local variables of [_handle_stream_response]. *)
Record StreamVars : Type := mkStreamVars {
  sv_content : string;
  sv_thinking_content : string;
  sv_tool_calls : list ToolCall;
  current_tool_call : option ToolCall;
  current_content_type : option ContentType
}.

Section Adapter.

Context {json : JsonModule}.

Variable json_dumps : bool -> JSON -> string.
Variable py_str : exn -> string.

Definition tool_event (tool_call : ToolCall) : MsgReturn :=
  mkMsgReturn (json_dumps false (tool_call_json tool_call)) "tool_calls" gor_tool
    (ExtraToolCall tool_call).

(** One turn of [for chunk in response]. *)
Definition handle_chunk (chunk : Chunk) (v : StreamVars)
    : list MsgReturn * StreamVars :=
  match chunk with
  | ContentBlockStart (StartToolUse id name) =>
      ([], mkStreamVars (sv_content v) (sv_thinking_content v) (sv_tool_calls v)
             (Some (mkToolCall id "function" name EmptyString))
             (current_content_type v))
  | ContentBlockStart StartThinking =>
      ([], mkStreamVars (sv_content v) (sv_thinking_content v) (sv_tool_calls v)
             (current_tool_call v) (Some ct_thinking))
  | ContentBlockStart StartText =>
      ([], mkStreamVars (sv_content v) (sv_thinking_content v) (sv_tool_calls v)
             (current_tool_call v) (Some ct_text))
  | ContentBlockDelta (TextDelta text_delta) =>
      match current_content_type v with
      | Some ct_thinking =>
          ([mkMsgReturn text_delta "thinking" gor_think (ExtraDelta text_delta)],
           mkStreamVars (sv_content v) (sv_thinking_content v +:+ text_delta)
             (sv_tool_calls v) (current_tool_call v) (current_content_type v))
      | _ =>
          ([mkMsgReturn text_delta "text" gor_answer (ExtraDelta text_delta)],
           mkStreamVars (sv_content v +:+ text_delta) (sv_thinking_content v)
             (sv_tool_calls v) (current_tool_call v) (current_content_type v))
      end
  | ContentBlockDelta (ThinkingDelta thinking_delta) =>
      ([mkMsgReturn thinking_delta "thinking" gor_think (ExtraDelta thinking_delta)],
       mkStreamVars (sv_content v) (sv_thinking_content v +:+ thinking_delta)
         (sv_tool_calls v) (current_tool_call v) (current_content_type v))
  | ContentBlockDelta (InputJsonDelta partial_json) =>
      ([], mkStreamVars (sv_content v) (sv_thinking_content v) (sv_tool_calls v)
             (match current_tool_call v with
              | Some tc =>
                  Some (mkToolCall (tc_id tc) (tc_type tc) (tc_name tc)
                          (tc_arguments tc +:+ partial_json))
              | None => None
              end)
             (current_content_type v))
  | ContentBlockStop =>
      ([], mkStreamVars (sv_content v) (sv_thinking_content v)
             (match current_tool_call v with
              | Some tc => sv_tool_calls v ++ [tc]
              | None => sv_tool_calls v
              end)
             None None)
  | _ => ([], v)
  end.

Definition stream_finish (v : StreamVars) : list MsgReturn :=
  map tool_event (sv_tool_calls v)
    ++ [mkMsgReturn EmptyString "end" gor_end
          (ExtraEndAnthropic (sv_content v) (sv_thinking_content v) (sv_tool_calls v))].

Fixpoint stream_loop (items : list (StreamItem Chunk)) (v : StreamVars) : Gen :=
  match items with
  | [] => gen_done (stream_finish v)
  | SRaise e :: _ => gen_raise [] e
  | SChunk chunk :: rest =>
      let '(evs, v') := handle_chunk chunk v in
      gen_after evs (stream_loop rest v')
  end.

Definition _handle_stream_response (response : Exc (list (StreamItem Chunk))) : Gen :=
  match response with
  | Raise e => gen_raise [] e
  | Ok items =>
      stream_loop items (mkStreamVars EmptyString EmptyString [] None None)
  end.

(** The three accumulators of [for content_block in response.content]. *)
Fixpoint collect_blocks (blocks : list ResponseBlock)
    (content thinking_content : string) (calls : list ToolCall)
    : string * string * list ToolCall :=
  match blocks with
  | [] => (content, thinking_content, calls)
  | RText text :: rest =>
      collect_blocks rest (content +:+ text) thinking_content calls
  | RThinking thinking :: rest =>
      collect_blocks rest content (thinking_content +:+ thinking) calls
  | RToolUse id name input :: rest =>
      collect_blocks rest content thinking_content
        (calls ++ [mkToolCall id "function" name (json_dumps true input)])
  | ROther :: rest => collect_blocks rest content thinking_content calls
  end.

Definition _handle_normal_response (response : Exc Response) : Gen :=
  match response with
  | Raise e => gen_raise [] e
  | Ok r =>
      let '(content, thinking_content, calls) :=
        collect_blocks (resp_content r) EmptyString EmptyString [] in
      gen_done
        ((if nonempty thinking_content
          then [mkMsgReturn thinking_content "thinking" gor_think ExtraMessage]
          else [])
         ++ (if nonempty content
             then [mkMsgReturn content "text" gor_answer ExtraMessage]
             else [])
         ++ map (fun tool_call =>
                   mkMsgReturn (json_dumps false (tool_call_json tool_call))
                     "tool_calls" gor_tool (ExtraToolCall tool_call))
                calls
         ++ [mkMsgReturn EmptyString "end" gor_end ExtraMessage])
  end.

Definition model_chat (self : Model) (messages : list Message) : list MsgReturn :=
  catch_all py_str
    (match _convert_messages_to_anthropic messages with
     | Raise e => gen_raise [] e
     | Ok anthropic_messages =>
         if stream self
         then _handle_stream_response (create_stream self anthropic_messages)
         else _handle_normal_response (create_normal self anthropic_messages)
     end).

End Adapter.

End Anthropic.

(** The four routers of [create_model].  The DeepSeek and the Minimax class
    inherit [model_chat] from the OpenAI and the Anthropic class. *)
Inductive AnyModel : Type :=
| openai_chat (m : OpenAI.Model)
| anthropic (m : Anthropic.Model)
| minimax_anthropic (m : Anthropic.Model)
| deepseek_openai (m : OpenAI.Model).

Definition model_chat {json : JsonModule} (json_dumps : bool -> JSON -> string)
    (py_str : exn -> string) (self : AnyModel) (messages : list Message) : list MsgReturn :=
  match self with
  | openai_chat m | deepseek_openai m => OpenAI.model_chat json_dumps py_str m messages
  | anthropic m | minimax_anthropic m => Anthropic.model_chat json_dumps py_str m messages
  end.

(** ** The conversation loops: state and effects *)

(** One element of the [tool_info] list of the loops. *)
Record ToolInfo : Type := mkToolInfo {
  ti_id : string;
  ti_name : string;
  ti_arguments : string
}.

(** The dictionaries the loops yield. *)
Inductive OutEvent : Type :=
| ev_thinking (content : string)
| ev_answer (content : string)
| ev_tool_calls (calls : list ToolInfo)
| ev_tool_execution (tool_name tool_call_id : string) (args : JSON)
| ev_tool_result (tool_name tool_call_id result : string)
| ev_error (message : string)
| ev_interrupted (message : string)
| ev_end.

(** Everything a run of a loop changes: the caller's [messages] list, which
    is mutated in place, the events yielded so far, and how often the
    collaborators have been called. *)
Record World : Type := mkWorld {
  messages : list Message;
  emitted : list OutEvent;
  polls : nat;
  model_calls : nat;
  executor_calls : list (string * JSON)
}.

(** The collaborators of a run.  Each may answer from everything that has
    happened so far: the adapter of [self.model_chat(messages)] gives the
    events of a round, [interrupt_check()] a flag, and
    [executor.execute_tool(name, args)] the text of its result or an
    exception.  [env_str] is [str] on exceptions. *)
Record Env : Type := mkEnv {
  env_model_chat : World -> list MsgReturn;
  env_interrupt_check : World -> bool;
  env_execute_tool : World -> string -> JSON -> Exc string;
  env_str : exn -> string
}.

(** How a piece of a generator body stops: it falls through with a value,
    executes [return], raises, or (only for the bounded unfolding of
    [while]) has no rounds left. *)
Inductive Res (A : Type) : Type :=
| Val (a : A)
| Returned
| Thrown (e : exn)
| Diverged.
Arguments Val {A} a.
Arguments Returned {A}.
Arguments Thrown {A} e.
Arguments Diverged {A}.

Definition M (A : Type) : Type := World -> Res A * World.

Definition ret {A} (a : A) : M A := fun w => (Val a, w).

Definition bind {A B} (m : M A) (k : A -> M B) : M B :=
  fun w =>
    match m w with
    | (Val a, w') => k a w'
    | (Returned, w') => (Returned, w')
    | (Thrown e, w') => (Thrown e, w')
    | (Diverged, w') => (Diverged, w')
    end.

Notation "x <- c1 ;; c2" := (bind c1 (fun x => c2))
  (at level 100, c1 at next level, right associativity).
Notation "c1 ;; c2" := (bind c1 (fun _ => c2))
  (at level 100, right associativity).

Definition return_ {A} : M A := fun w => (Returned, w).
Definition throw {A} (e : exn) : M A := fun w => (Thrown e, w).
Definition diverge {A} : M A := fun w => (Diverged, w).

Definition lift {A} (x : Exc A) : M A :=
  match x with
  | Ok a => ret a
  | Raise e => throw e
  end.

(** [try: body except Exception as e: handler] *)
Definition try_ {A} (body : M A) (handler : exn -> M A) : M A :=
  fun w =>
    match body w with
    | (Thrown e, w') => handler e w'
    | r => r
    end.

(** [yield from g]: the [return] of the inner generator ends the inner
    generator only. *)
Definition yield_from {A} (g : M A) : M unit :=
  fun w =>
    match g w with
    | (Val _, w') => (Val tt, w')
    | (Returned, w') => (Val tt, w')
    | (Thrown e, w') => (Thrown e, w')
    | (Diverged, w') => (Diverged, w')
    end.

Definition yield_ (ev : OutEvent) : M unit :=
  fun w =>
    (Val tt,
     mkWorld (messages w) (emitted w ++ [ev]) (polls w) (model_calls w)
       (executor_calls w)).

(** [messages.append(m)] *)
Definition append_message (m : Message) : M unit :=
  fun w =>
    (Val tt,
     mkWorld (messages w ++ [m]) (emitted w) (polls w) (model_calls w)
       (executor_calls w)).

(** [messages.append(m)] for a dict the code keeps a name for: the result
    is the place of [m] in the list, through which the name reaches it. *)
Definition append_named (m : Message) : M nat :=
  fun w =>
    (Val (length (messages w)),
     mkWorld (messages w ++ [m]) (emitted w) (polls w) (model_calls w)
       (executor_calls w)).

(** [name['tool_calls'].append(entry)] on the dict at place [name]. *)
Definition append_tool_call (name : nat) (entry : ToolCall) : M unit :=
  fun w =>
    (Val tt,
     mkWorld
       (alter (fun m =>
                 mkMessage (role m) (content m)
                   (Some (default [] (tool_calls m) ++ [entry]))
                   (tool_call_id m) (reasoning_content m))
              name (messages w))
       (emitted w) (polls w) (model_calls w) (executor_calls w)).

Definition get_messages : M (list Message) := fun w => (Val (messages w), w).

Section Collaborators.

Variable env : Env.

(** [interrupt_check()] *)
Definition interrupt_check : M bool :=
  fun w =>
    (Val (env_interrupt_check env w),
     mkWorld (messages w) (emitted w) (S (polls w)) (model_calls w)
       (executor_calls w)).

(** [self.model_chat(messages)], as the list of the items of the generator. *)
Definition call_model_chat : M (list MsgReturn) :=
  fun w =>
    (Val (env_model_chat env w),
     mkWorld (messages w) (emitted w) (polls w) (S (model_calls w))
       (executor_calls w)).

(** [str(executor.execute_tool(tool_name, tool_args))] *)
Definition execute_tool (tool_name : string) (tool_args : JSON) : M string :=
  fun w =>
    let w' := mkWorld (messages w) (emitted w) (polls w) (model_calls w)
                (executor_calls w ++ [(tool_name, tool_args)]) in
    match env_execute_tool env w tool_name tool_args with
    | Ok result => (Val result, w')
    | Raise e => (Thrown e, w')
    end.

End Collaborators.

Definition interrupted_message : string := "对话已被用户中断".

(** [f'工具参数不是有效的JSON: {arguments}'] *)
Definition invalid_json_message (arguments : string) : string :=
  "工具参数不是有效的JSON: " +:+ arguments.

(** [f'工具执行错误: {str(e)}'] *)
Definition tool_error_message (text : string) : string :=
  "工具执行错误: " +:+ text.

(** [f'响应错误: {str(e)}'] *)
Definition response_error_message (text : string) : string :=
  "响应错误: " +:+ text.

(** A string field of a decoded payload.  The adapters serialise strings
    only; another value is refused here, where Python would carry it on. *)
Definition expect_str (v : JSON) : Exc string :=
  match v with
  | JStr s => Ok s
  | _ => Raise TypeError
  end.

(** [tool_call = json.loads(item.content)] and the three subscripts of the
    dict appended to [tool_info]. *)
Definition decode_tool_call {json : JsonModule} (text : string) : Exc ToolInfo :=
  exc_bind (loads text) (fun tool_call =>
  exc_bind (exc_bind (py_getitem tool_call "id") expect_str) (fun id =>
  exc_bind (py_getitem tool_call "function") (fun function =>
  exc_bind (exc_bind (py_getitem function "name") expect_str) (fun name =>
  exc_bind (py_getitem tool_call "function") (fun function' =>
  exc_bind (exc_bind (py_getitem function' "arguments") expect_str) (fun arguments =>
  Ok (mkToolInfo id name arguments))))))).

(** [messages and messages[-1].get('role') == 'assistant' and
    messages[-1].get('content') == answer_content] *)
Definition last_is_answer (msgs : list Message) (answer_content : string) : bool :=
  match last msgs with
  | Some m =>
      String.eqb (role m) "assistant"
      && match content m with
         | CStr s => String.eqb s answer_content
         | CBlocks _ => false
         end
  | None => false
  end.

(** The local variables of one round of [chatToNextLoop]. *)
Record LoopVars : Type := mkLoopVars {
  is_first_round : bool;
  lv_reasoning_content : string;
  answer_content : string;
  tool_info : list ToolInfo;
  is_answering : bool
}.

(** The variables before the first round; [answer_content] is not bound yet
    in the code and is bound by the first round, which always runs. *)
Definition initial_vars : LoopVars :=
  mkLoopVars true EmptyString EmptyString [] false.

(** The variables as the top of the loop body resets them. *)
Definition round_vars : LoopVars :=
  mkLoopVars false EmptyString EmptyString [] false.

Section ConsumeResponse.

Context {json : JsonModule}.

Variable env : Env.

(** [for item in response: ...] of [model_base.chatToNextLoop]; the loop
    of [deepseek_openai_model.chatToNextLoop] has the same text. *)
Fixpoint consume_response (response : list MsgReturn) (v : LoopVars) : M LoopVars :=
  match response with
  | [] => ret v
  | item :: rest =>
      interrupted <- interrupt_check env ;;
      if (interrupted : bool) then
        yield_ (ev_interrupted interrupted_message) ;; return_
      else
        match gorType item with
        | gor_error =>
            yield_ (ev_error (msg_content item)) ;; return_
        | gor_think =>
            yield_ (ev_thinking (msg_content item)) ;;
            consume_response rest
              (mkLoopVars (is_first_round v)
                 (lv_reasoning_content v +:+ msg_content item)
                 (answer_content v) (tool_info v) (is_answering v))
        | gor_answer =>
            yield_ (ev_answer (msg_content item)) ;;
            consume_response rest
              (mkLoopVars (is_first_round v) (lv_reasoning_content v)
                 (answer_content v +:+ msg_content item) (tool_info v) true)
        | gor_tool =>
            tool <- lift (decode_tool_call (msg_content item)) ;;
            consume_response rest
              (mkLoopVars (is_first_round v) (lv_reasoning_content v)
                 (answer_content v) (tool_info v ++ [tool]) (is_answering v))
        | gor_end => consume_response rest v
        end
  end.

End ConsumeResponse.

(** ** [model_base]: the base loop *)

Module Base.

Section Loop.

Context {json : JsonModule}.

Variable env : Env.

(** The [except Exception as e] clause of the tool loop. *)
Definition tool_except (tool_name tool_call_id : string) (e : exn) : M unit :=
  let error_msg := tool_error_message (env_str env e) in
  yield_ (ev_tool_result tool_name tool_call_id error_msg) ;;
  append_message (tool_message tool_call_id error_msg).

(** [for tool in tool_info: ...] of [_execute_tools_in_loop].
    [assistant_message] is the place of the dict of that name in
    [messages]; [names] holds the locals [tool_name] and [tool_call_id],
    which keep the values of an earlier turn and are unbound before the
    first assignment. *)
Fixpoint for_tools (assistant_message : nat) (names : option (string * string))
    (tools : list ToolInfo) : M unit :=
  match tools with
  | [] => ret tt
  | tool :: rest =>
      interrupted <- interrupt_check env ;;
      if (interrupted : bool) then
        yield_ (ev_interrupted interrupted_message) ;; return_
      else
        match parse_tool_arguments (ti_arguments tool) with
        | Raise e =>
            match names with
            | None => throw (UnboundLocalError "tool_name")
            | Some (tool_name, tool_call_id) =>
                tool_except tool_name tool_call_id e ;;
                for_tools assistant_message names rest
            end
        | Ok JNull =>
            let error_msg := invalid_json_message (ti_arguments tool) in
            yield_ (ev_tool_result (ti_name tool) (ti_id tool) error_msg) ;;
            append_message (tool_message (ti_id tool) error_msg) ;;
            for_tools assistant_message names rest
        | Ok tool_args =>
            let tool_name := ti_name tool in
            let tool_call_id := ti_id tool in
            try_
              (yield_ (ev_tool_execution tool_name tool_call_id tool_args) ;;
               result <- execute_tool env tool_name tool_args ;;
               yield_ (ev_tool_result tool_name tool_call_id result) ;;
               append_tool_call assistant_message
                 (mkToolCall tool_call_id "function" (ti_name tool) (ti_arguments tool)) ;;
               append_message (tool_message tool_call_id result))
              (tool_except tool_name tool_call_id) ;;
            for_tools assistant_message (Some (tool_name, tool_call_id)) rest
        end
  end.

Definition _execute_tools_in_loop (tool_info : list ToolInfo) : M unit :=
  assistant_message <-
    append_named (mkMessage "assistant" (CStr EmptyString) (Some []) None None) ;;
  yield_ (ev_tool_calls tool_info) ;;
  for_tools assistant_message None tool_info.

(** The body of [while is_first_round or tool_info]. *)
Definition round : M LoopVars :=
  response <- call_model_chat env ;;
  v <- consume_response env response round_vars ;;
  if negb (is_nil (tool_info v)) then
    interrupted <- interrupt_check env ;;
    if (interrupted : bool) then
      yield_ (ev_interrupted interrupted_message) ;; return_
    else
      yield_from (_execute_tools_in_loop (tool_info v)) ;;
      ret v
  else
    (if nonempty (answer_content v)
     then append_message (plain_message "assistant" (CStr (answer_content v)))
     else ret tt) ;;
    ret v.

(** [while is_first_round or tool_info: ...], at most [fuel] rounds. *)
Fixpoint while_loop (fuel : nat) (v : LoopVars) : M LoopVars :=
  if is_first_round v || negb (is_nil (tool_info v)) then
    match fuel with
    | O => diverge
    | S n => v' <- round ;; while_loop n v'
    end
  else ret v.

(** What follows the loop inside the [try]. *)
Definition after_loop (v : LoopVars) : M unit :=
  (if is_nil (tool_info v) && nonempty (answer_content v) then
     msgs <- get_messages ;;
     if negb (last_is_answer msgs (answer_content v))
     then append_message (plain_message "assistant" (CStr (answer_content v)))
     else ret tt
   else ret tt) ;;
  yield_ ev_end.

Definition chatToNextLoop (fuel : nat) : M unit :=
  try_
    (v <- while_loop fuel initial_vars ;; after_loop v)
    (fun e => yield_ (ev_error (response_error_message (env_str env e)))).

End Loop.

End Base.

(** A run of a loop on the caller's history. *)
Definition start (history : list Message) : World := mkWorld history [] 0 0 [].

(** ** [deepseek_openai_model]: the reasoning-exclusion loop *)

Module DeepSeek.

Section Loop.

Context {json : JsonModule}.

Variable env : Env.

Definition tool_except (tool_name tool_call_id : string) (e : exn) : M unit :=
  let error_msg := tool_error_message (env_str env e) in
  yield_ (ev_tool_result tool_name tool_call_id error_msg) ;;
  append_message (tool_message tool_call_id error_msg).

(** [for tool in tool_info: ...] of [_execute_tools_in_loop_deepseek]. *)
Fixpoint for_tools (names : option (string * string)) (tools : list ToolInfo)
    : M unit :=
  match tools with
  | [] => ret tt
  | tool :: rest =>
      interrupted <- interrupt_check env ;;
      if (interrupted : bool) then
        yield_ (ev_interrupted interrupted_message) ;; return_
      else
        match parse_tool_arguments (ti_arguments tool) with
        | Raise e =>
            match names with
            | None => throw (UnboundLocalError "tool_name")
            | Some (tool_name, tool_call_id) =>
                tool_except tool_name tool_call_id e ;;
                for_tools names rest
            end
        | Ok JNull =>
            let error_msg := invalid_json_message (ti_arguments tool) in
            yield_ (ev_tool_result (ti_name tool) (ti_id tool) error_msg) ;;
            append_message (tool_message (ti_id tool) error_msg) ;;
            for_tools names rest
        | Ok tool_args =>
            let tool_name := ti_name tool in
            let tool_call_id := ti_id tool in
            try_
              (yield_ (ev_tool_execution tool_name tool_call_id tool_args) ;;
               result <- execute_tool env tool_name tool_args ;;
               yield_ (ev_tool_result tool_name tool_call_id result) ;;
               append_message (tool_message tool_call_id result))
              (tool_except tool_name tool_call_id) ;;
            for_tools (Some (tool_name, tool_call_id)) rest
        end
  end.

(** The assistant message of a round with tool calls. *)
Definition assistant_message (tool_info : list ToolInfo)
    (answer_content reasoning_content : string) : Message :=
  mkMessage "assistant"
    (CStr (if nonempty answer_content then answer_content else EmptyString))
    (Some (map (fun tool =>
                  mkToolCall (ti_id tool) "function" (ti_name tool) (ti_arguments tool))
               tool_info))
    None
    (Some reasoning_content).

Definition _execute_tools_in_loop_deepseek (tool_info : list ToolInfo)
    (answer_content reasoning_content : string) : M unit :=
  append_message (assistant_message tool_info answer_content reasoning_content) ;;
  yield_ (ev_tool_calls tool_info) ;;
  for_tools None tool_info.

Definition round : M LoopVars :=
  response <- call_model_chat env ;;
  v <- consume_response env response round_vars ;;
  if negb (is_nil (tool_info v)) then
    interrupted <- interrupt_check env ;;
    if (interrupted : bool) then
      yield_ (ev_interrupted interrupted_message) ;; return_
    else
      yield_from
        (_execute_tools_in_loop_deepseek (tool_info v) (answer_content v)
           (lv_reasoning_content v)) ;;
      ret v
  else
    (if nonempty (answer_content v)
     then append_message (plain_message "assistant" (CStr (answer_content v)))
     else ret tt) ;;
    ret v.

Fixpoint while_loop (fuel : nat) (v : LoopVars) : M LoopVars :=
  if is_first_round v || negb (is_nil (tool_info v)) then
    match fuel with
    | O => diverge
    | S n => v' <- round ;; while_loop n v'
    end
  else ret v.

Definition chatToNextLoop (fuel : nat) : M unit :=
  try_
    (while_loop fuel initial_vars ;; yield_ ev_end)
    (fun e => yield_ (ev_error (response_error_message (env_str env e)))).

End Loop.

End DeepSeek.

(** ** [minimax_anthropic_model]: the full-block-replay loop *)

Module Minimax.

(** The local variables of one round. *)
Record Vars : Type := mkVars {
  thinking_content : string;
  mm_answer_content : string;
  tool_use_blocks : list JSON
}.

(** The subscripts [tool['id']], [tool['function']['name']] and
    [tool['function']['arguments']] of a decoded tool call. *)
Definition tool_fields (tool_call : JSON) : Exc ToolInfo :=
  exc_bind (exc_bind (py_getitem tool_call "id") expect_str) (fun id =>
  exc_bind (py_getitem tool_call "function") (fun function =>
  exc_bind (exc_bind (py_getitem function "name") expect_str) (fun name =>
  exc_bind (py_getitem tool_call "function") (fun function' =>
  exc_bind (exc_bind (py_getitem function' "arguments") expect_str) (fun arguments =>
  Ok (mkToolInfo id name arguments)))))).

(** [for tool_call in tool_use_blocks: content_blocks.append({...})]: the
    [tool_use] blocks, with the fields of each call. *)
Fixpoint tool_use_content {json : JsonModule} (blocks : list JSON)
    : Exc (list (ToolInfo * Block)) :=
  match blocks with
  | [] => Ok []
  | tool_call :: rest =>
      exc_bind (tool_fields tool_call) (fun tool =>
      exc_bind (loads (ti_arguments tool)) (fun input =>
      exc_bind (tool_use_content rest) (fun bs =>
      Ok ((tool, ToolUseBlock (ti_id tool) (ti_name tool) input) :: bs))))
  end.

Section Loop.

Context {json : JsonModule}.

Variable env : Env.

Fixpoint consume_response (response : list MsgReturn) (v : Vars) : M Vars :=
  match response with
  | [] => ret v
  | item :: rest =>
      interrupted <- interrupt_check env ;;
      if (interrupted : bool) then
        yield_ (ev_interrupted interrupted_message) ;; return_
      else
        match gorType item with
        | gor_error =>
            yield_ (ev_error (msg_content item)) ;; return_
        | gor_think =>
            yield_ (ev_thinking (msg_content item)) ;;
            consume_response rest
              (mkVars (thinking_content v +:+ msg_content item)
                 (mm_answer_content v) (tool_use_blocks v))
        | gor_answer =>
            yield_ (ev_answer (msg_content item)) ;;
            consume_response rest
              (mkVars (thinking_content v)
                 (mm_answer_content v +:+ msg_content item) (tool_use_blocks v))
        | gor_tool =>
            tool_call <- lift (loads (msg_content item)) ;;
            lift (exc_bind (py_getitem tool_call "function")
                    (fun function => py_getitem function "name")) ;;
            consume_response rest
              (mkVars (thinking_content v) (mm_answer_content v)
                 (tool_use_blocks v ++ [tool_call]))
        | gor_end => consume_response rest v
        end
  end.

(** The [except Exception as e] clause of the tool loop. *)
Definition tool_except (tool_results : list Block)
    (tool_name tool_call_id : string) (e : exn) : M (list Block) :=
  let error_msg := tool_error_message (env_str env e) in
  yield_ (ev_tool_result tool_name tool_call_id error_msg) ;;
  ret (tool_results ++ [ToolResultBlock tool_call_id error_msg]).

(** [for tool in tool_use_blocks: ...] of [_execute_tools_minimax_style],
    on the fields the round has read from the blocks; the result is the
    list [tool_results]. *)
Fixpoint for_tools (names : option (string * string)) (tool_results : list Block)
    (tools : list ToolInfo) : M (list Block) :=
  match tools with
  | [] => ret tool_results
  | tool :: rest =>
      interrupted <- interrupt_check env ;;
      if (interrupted : bool) then
        yield_ (ev_interrupted interrupted_message) ;; return_
      else
        match parse_tool_arguments (ti_arguments tool) with
        | Raise e =>
            match names with
            | None => throw (UnboundLocalError "tool_name")
            | Some (tool_name, tool_call_id) =>
                tool_results' <- tool_except tool_results tool_name tool_call_id e ;;
                for_tools names tool_results' rest
            end
        | Ok JNull =>
            let error_msg := invalid_json_message (ti_arguments tool) in
            yield_ (ev_tool_result (ti_name tool) (ti_id tool) error_msg) ;;
            for_tools names
              (tool_results ++ [ToolResultBlock (ti_id tool) error_msg]) rest
        | Ok tool_args =>
            let tool_name := ti_name tool in
            let tool_call_id := ti_id tool in
            tool_results' <-
              try_
                (yield_ (ev_tool_execution tool_name tool_call_id tool_args) ;;
                 result <- execute_tool env tool_name tool_args ;;
                 yield_ (ev_tool_result tool_name tool_call_id result) ;;
                 ret (tool_results ++ [ToolResultBlock tool_call_id result]))
                (tool_except tool_results tool_name tool_call_id) ;;
            for_tools (Some (tool_name, tool_call_id)) tool_results' rest
        end
  end.

Definition _execute_tools_minimax_style (tools : list ToolInfo) : M unit :=
  tool_results <- for_tools None [] tools ;;
  append_message (plain_message "user" (CBlocks tool_results)).

(** [content_blocks] before the tool-use blocks are added. *)
Definition text_blocks (v : Vars) : list Block :=
  (if nonempty (thinking_content v) then [ThinkingBlock (thinking_content v)] else [])
  ++ (if nonempty (mm_answer_content v) then [TextBlock (mm_answer_content v)] else []).

(** The body of [while is_first_round or has_tool_calls]; the result is
    the new value of [has_tool_calls]. *)
Definition round : M bool :=
  response <- call_model_chat env ;;
  v <- consume_response response (mkVars EmptyString EmptyString []) ;;
  tools <- lift (tool_use_content (tool_use_blocks v)) ;;
  let content_blocks := text_blocks v ++ map snd tools in
  if negb (is_nil (tool_use_blocks v)) then
    interrupted <- interrupt_check env ;;
    if (interrupted : bool) then
      yield_ (ev_interrupted interrupted_message) ;; return_
    else
      append_message (plain_message "assistant" (CBlocks content_blocks)) ;;
      yield_ (ev_tool_calls (map fst tools)) ;;
      yield_from (_execute_tools_minimax_style (map fst tools)) ;;
      ret true
  else
    (if nonempty (mm_answer_content v)
     then append_message (plain_message "assistant" (CStr (mm_answer_content v)))
     else ret tt) ;;
    ret false.

Fixpoint while_loop (fuel : nat) (is_first_round has_tool_calls : bool) : M unit :=
  if is_first_round || has_tool_calls then
    match fuel with
    | O => diverge
    | S n => has_tool_calls' <- round ;; while_loop n false has_tool_calls'
    end
  else ret tt.

Definition chatToNextLoop (fuel : nat) : M unit :=
  try_
    (while_loop fuel true true ;; yield_ ev_end)
    (fun e => yield_ (ev_error (response_error_message (env_str env e)))).

End Loop.

End Minimax.

(** ** The decoder of the examples *)

(** The examples run on an interpreter with the limits [example_limits]. *)
#[global] Instance example_json : JsonModule := {| loads := Json.loads example_limits |}.

(** * Vocabulary of the properties *)

(** ** Adapters *)

(** The terminal events of an invocation: [end] and [error]. *)
Definition is_terminal (ev : MsgReturn) : bool :=
  match gorType ev with
  | gor_end | gor_error => true
  | _ => false
  end.

(** A generator of an adapter before [model_chat] closes it: if it raises,
    nothing terminal has been yielded, and if it does not, it has yielded
    exactly one terminal event, an [end], as its last one. *)
Definition well_terminated (g : Gen) : Prop :=
  match raised g with
  | Some _ => Forall (fun ev => is_terminal ev = false) (yielded g)
  | None =>
      exists body last_ev,
        yielded g = body ++ [last_ev]
        /\ Forall (fun ev => is_terminal ev = false) body
        /\ gorType last_ev = gor_end
  end.

(** ** The tool-call accumulator *)

(** The fragments of a stream that carry the index [i], in arrival order. *)
Definition at_index (i : Z) (t : OpenAI.ToolCallDelta) : bool :=
  match OpenAI.tcd_index t with
  | Some j => Z.eqb i j
  | None => false
  end.

Definition fragments_at (i : Z) (tcds : list OpenAI.ToolCallDelta)
    : list OpenAI.ToolCallDelta :=
  List.filter (at_index i) tcds.

(** The first non-empty id among fragments, the empty string if none has one. *)
Fixpoint first_id (frs : list OpenAI.ToolCallDelta) : string :=
  match frs with
  | [] => EmptyString
  | t :: rest =>
      if truthy (OpenAI.tcd_id t) then or_empty (OpenAI.tcd_id t) else first_id rest
  end.

Definition fragment_name (t : OpenAI.ToolCallDelta) : string :=
  match OpenAI.tcd_function t with
  | Some f => or_empty (OpenAI.fd_name f)
  | None => EmptyString
  end.

Definition fragment_arguments (t : OpenAI.ToolCallDelta) : string :=
  match OpenAI.tcd_function t with
  | Some f => or_empty (OpenAI.fd_arguments f)
  | None => EmptyString
  end.

(** The pieces [f t] of the fragments, concatenated in arrival order. *)
Fixpoint joined (f : OpenAI.ToolCallDelta -> string)
    (frs : list OpenAI.ToolCallDelta) : string :=
  match frs with
  | [] => EmptyString
  | t :: rest => f t +:+ joined f rest
  end.

(** The record the fragments of one index add up to. *)
Definition assembled (frs : list OpenAI.ToolCallDelta) : ToolCall :=
  mkToolCall (first_id frs) "function"
    (joined fragment_name frs) (joined fragment_arguments frs).

(** What one fragment does to the record of its index. *)
Definition absorb (o : option ToolCall) (t : OpenAI.ToolCallDelta)
    : option ToolCall :=
  match o with
  | None =>
      Some (mkToolCall (or_empty (OpenAI.tcd_id t)) "function"
              (fragment_name t) (fragment_arguments t))
  | Some cur =>
      Some (mkToolCall
              (if nonempty (tc_id cur) then tc_id cur else or_empty (OpenAI.tcd_id t))
              (tc_type cur)
              (tc_name cur +:+ fragment_name t)
              (tc_arguments cur +:+ fragment_arguments t))
  end.

(** Every fragment that opens an index carries its function part: the
    streams the accumulator reads without an [AttributeError].  [seen] holds
    the indices opened so far. *)
Fixpoint opens_with_function (seen : list Z) (tcds : list OpenAI.ToolCallDelta)
    : bool :=
  match tcds with
  | [] => true
  | t :: rest =>
      match OpenAI.tcd_index t with
      | None => opens_with_function seen rest
      | Some i =>
          if existsb (Z.eqb i) seen then opens_with_function seen rest
          else
            match OpenAI.tcd_function t with
            | Some _ => opens_with_function (i :: seen) rest
            | None => false
            end
      end
  end.

(** The stream of the example: indices 1, 0, 1, 0, the ids on the first
    fragment of each index, a late id and no function part on the last
    fragment, names and arguments in pieces. *)
Definition interleaved_fragments : list OpenAI.ToolCallDelta :=
  [ OpenAI.mkToolCallDelta (Some 1%Z) (Some "call_b")
      (Some (OpenAI.mkFunctionDelta (Some "mul") (Some "{'x'")));
    OpenAI.mkToolCallDelta (Some 0%Z) (Some "call_a")
      (Some (OpenAI.mkFunctionDelta (Some "add") (Some "{}")));
    OpenAI.mkToolCallDelta (Some 1%Z) None
      (Some (OpenAI.mkFunctionDelta None (Some ": 2}")));
    OpenAI.mkToolCallDelta (Some 0%Z) (Some "call_late") None ].

(** ** Outward events and worlds *)

(** The ids of the [tool_result] events of a trace, in order. *)
Fixpoint result_ids (evs : list OutEvent) : list string :=
  match evs with
  | [] => []
  | ev_tool_result _ tool_call_id _ :: rest => tool_call_id :: result_ids rest
  | _ :: rest => result_ids rest
  end.

(** The world after one more call of [interrupt_check]. *)
Definition polled (w : World) : World :=
  mkWorld (messages w) (emitted w) (S (polls w)) (model_calls w) (executor_calls w).

(** The world after one more call of [model_chat]. *)
Definition asked (w : World) : World :=
  mkWorld (messages w) (emitted w) (polls w) (S (model_calls w)) (executor_calls w).

(** The world with more events yielded. *)
Definition emitting (evs : list OutEvent) (w : World) : World :=
  mkWorld (messages w) (emitted w ++ evs) (polls w) (model_calls w) (executor_calls w).

(** The world with more messages appended to the history. *)
Definition appending (ms : list Message) (w : World) : World :=
  mkWorld (messages w ++ ms) (emitted w) (polls w) (model_calls w) (executor_calls w).

(** The world after one more call of the executor. *)
Definition executed (tool_name : string) (tool_args : JSON) (w : World) : World :=
  mkWorld (messages w) (emitted w) (polls w) (model_calls w)
    (executor_calls w ++ [(tool_name, tool_args)]).

(** A run stops without an exception: it falls through or returns. *)
Definition no_exception {A} (r : Res A) : Prop :=
  match r with
  | Val _ | Returned => True
  | Thrown _ | Diverged => False
  end.

(** The world after [name['tool_calls'].append(entry)]. *)
Definition recording (name : nat) (entry : ToolCall) (w : World) : World :=
  snd (append_tool_call name entry w).

(** What the base loop does for one tool when it is not interrupted and
    the parser returns: the three ways through the body of
    [for tool in tool_info] that do not start in the parser. *)
Definition base_tool_step {json : JsonModule} (env : Env) (assistant_message : nat)
    (tool : ToolInfo)
    (w w' : World) : Prop :=
  (parse_tool_arguments (ti_arguments tool) = Ok JNull
   /\ w' = appending [tool_message (ti_id tool) (invalid_json_message (ti_arguments tool))]
             (emitting [ev_tool_result (ti_name tool) (ti_id tool)
                          (invalid_json_message (ti_arguments tool))]
                (polled w)))
  \/ (exists args result,
        parse_tool_arguments (ti_arguments tool) = Ok args /\ args <> JNull
        /\ env_execute_tool env
             (emitting [ev_tool_execution (ti_name tool) (ti_id tool) args] (polled w))
             (ti_name tool) args = Ok result
        /\ w' = appending [tool_message (ti_id tool) result]
                  (recording assistant_message
                     (mkToolCall (ti_id tool) "function" (ti_name tool) (ti_arguments tool))
                     (emitting [ev_tool_execution (ti_name tool) (ti_id tool) args;
                                ev_tool_result (ti_name tool) (ti_id tool) result]
                        (executed (ti_name tool) args (polled w)))))
  \/ (exists args e,
        parse_tool_arguments (ti_arguments tool) = Ok args /\ args <> JNull
        /\ env_execute_tool env
             (emitting [ev_tool_execution (ti_name tool) (ti_id tool) args] (polled w))
             (ti_name tool) args = Raise e
        /\ w' = appending [tool_message (ti_id tool) (tool_error_message (env_str env e))]
                  (emitting [ev_tool_execution (ti_name tool) (ti_id tool) args;
                             ev_tool_result (ti_name tool) (ti_id tool)
                               (tool_error_message (env_str env e))]
                     (executed (ti_name tool) args (polled w)))).

(** The argument parser returns for a call: [json.loads] lets none of its
    other exceptions out on the argument text. *)
Definition parses {json : JsonModule} (tool : ToolInfo) : Prop :=
  exists args, parse_tool_arguments (ti_arguments tool) = Ok args.

(** The outward events of the items of a round that is neither interrupted
    nor ended by an error item. *)
Definition out_of_item (item : MsgReturn) : list OutEvent :=
  match gorType item with
  | gor_think => [ev_thinking (msg_content item)]
  | gor_answer => [ev_answer (msg_content item)]
  | _ => []
  end.

(** The text of the answer items of a response, joined in order. *)
Fixpoint answer_text (response : list MsgReturn) : string :=
  match response with
  | [] => EmptyString
  | item :: rest =>
      match gorType item with
      | gor_answer => msg_content item +:+ answer_text rest
      | _ => answer_text rest
      end
  end.

(** The text of the thinking items of a response, joined in order. *)
Fixpoint thinking_text (response : list MsgReturn) : string :=
  match response with
  | [] => EmptyString
  | item :: rest =>
      match gorType item with
      | gor_think => msg_content item +:+ thinking_text rest
      | _ => thinking_text rest
      end
  end.

(** The part of the history a round of the base loop with tool calls adds
    after [before]: one assistant message with the empty string as content,
    then messages of role tool only. *)
Definition tool_round_history (before after : list Message) : Prop :=
  exists m tail,
    after = before ++ m :: tail
    /\ role m = "assistant"
    /\ content m = CStr EmptyString
    /\ Forall (fun x => role x = "tool") tail.

(** ** Worlds of the examples *)

(** An executor that fails on every call, and [str] giving the tag of the
    exception. *)
Definition failing_env : Env :=
  mkEnv (fun _ => [])
        (fun _ => false)
        (fun _ _ _ => Raise (OtherException "boom"))
        (fun e => match e with OtherException tag => tag | _ => EmptyString end).

Definition bad_tool : ToolInfo := mkToolInfo "c1" "add" "{bad".
Definition good_tool : ToolInfo := mkToolInfo "c2" "add" "{}".

(** The JSON text of a string without control characters: quotes and
    backslashes escaped, the rest as it is. *)
Fixpoint json_escape (s : string) : string :=
  match s with
  | EmptyString => EmptyString
  | String c s' =>
      if Ascii.eqb c dquote || Ascii.eqb c backslash
      then String backslash (String c (json_escape s'))
      else String c (json_escape s')
  end.

Definition quoted (s : string) : string :=
  String dquote (json_escape s +:+ String dquote EmptyString).

(** The text an adapter puts into the content of a tool item. *)
Definition tool_call_text (id name arguments : string) : string :=
  "{" +:+ quoted "id" +:+ ": " +:+ quoted id +:+ ", "
  +:+ quoted "type" +:+ ": " +:+ quoted "function" +:+ ", "
  +:+ quoted "function" +:+ ": {" +:+ quoted "name" +:+ ": " +:+ quoted name
  +:+ ", " +:+ quoted "arguments" +:+ ": " +:+ quoted arguments +:+ "}}".

Definition tool_item (id name arguments : string) : MsgReturn :=
  mkMsgReturn (tool_call_text id name arguments) "tool_calls" gor_tool
    (ExtraToolCall (mkToolCall id "function" name arguments)).

Definition answer_item (text : string) : MsgReturn :=
  mkMsgReturn text "content" gor_answer (ExtraDelta text).

Definition think_item (text : string) : MsgReturn :=
  mkMsgReturn text "reasoning" gor_think (ExtraDelta text).

Definition end_item : MsgReturn :=
  mkMsgReturn EmptyString "end" gor_end ExtraMessage.

Definition user_asks : list Message := [plain_message "user" (CStr "What is 1+2?")].

(** A history that already ends with the assistant answer 3. *)
Definition answered_history : list Message :=
  user_asks ++ [plain_message "assistant" (CStr "3")].

(** The model asks for one tool in its first round and answers in the
    second; the user raises the interrupt flag while the tool call is being
    announced, and the flag stays up. *)
Definition sticky_interrupt_env : Env :=
  mkEnv (fun w => match model_calls w with
                  | O => [tool_item "c1" "add" "{}"; end_item]
                  | S _ => [answer_item "3"; end_item]
                  end)
        (fun w => Nat.leb 3 (polls w))
        (fun _ _ _ => Ok "3")
        (fun _ => EmptyString).

(** The same, with a flag that is up for one poll only. *)
Definition oneshot_interrupt_env : Env :=
  mkEnv (env_model_chat sticky_interrupt_env)
        (fun w => Nat.eqb (polls w) 3)
        (fun _ _ _ => Ok "3")
        (fun _ => EmptyString).

(** The model asks for one tool with arguments that are not JSON, then
    answers. *)
Definition malformed_env : Env :=
  mkEnv (fun w => match model_calls w with
                  | O => [tool_item "c1" "add" "{bad"; end_item]
                  | S _ => [answer_item "3"; end_item]
                  end)
        (fun _ => false)
        (fun _ _ _ => Ok "3")
        (fun _ => EmptyString).

(** The model asks for one tool with good arguments; the executor fails. *)
Definition executor_fails_env : Env :=
  mkEnv (fun w => match model_calls w with
                  | O => [tool_item "c1" "add" "{}"; end_item]
                  | S _ => [answer_item "3"; end_item]
                  end)
        (fun _ => false)
        (env_execute_tool failing_env)
        (env_str failing_env).

(** The model answers 3 and asks for no tool. *)
Definition answering_env : Env :=
  mkEnv (fun _ => [answer_item "3"; end_item])
        (fun _ => false)
        (fun _ _ _ => Ok "3")
        (fun _ => EmptyString).

(** The model thinks, says a few words and asks for a tool with or without
    good arguments; the executor adds. *)
Definition talking_env (arguments : string) : Env :=
  mkEnv (fun w => match model_calls w with
                  | O => [think_item "add them"; answer_item "Let me compute.";
                          tool_item "c1" "add" arguments; end_item]
                  | S _ => [answer_item "3"; end_item]
                  end)
        (fun _ => false)
        (fun _ _ _ => Ok "3")
        (fun _ => EmptyString).

(** The ids the tool messages of a list answer to, and the ids an assistant
    message lists in its [tool_calls]. *)
Definition answered_ids (ms : list Message) : list string :=
  omap (fun m => if String.eqb (role m) "tool" then tool_call_id m else None) ms.

Definition listed_ids (m : Message) : list string :=
  map tc_id (default [] (tool_calls m)).

(** The number of [interrupted] events of a trace. *)
Fixpoint count_interrupted (evs : list OutEvent) : nat :=
  match evs with
  | [] => 0
  | ev_interrupted _ :: rest => S (count_interrupted rest)
  | _ :: rest => count_interrupted rest
  end.

(** The flag is up from the poll that precedes the tool loop. *)
Definition early_interrupt_env : Env :=
  mkEnv (env_model_chat sticky_interrupt_env)
        (fun w => Nat.leb 2 (polls w))
        (fun _ _ _ => Ok "3")
        (fun _ => EmptyString).

(** The model asks for a tool and streams no argument text at all. *)
Definition no_arguments_env : Env :=
  mkEnv (fun w => match model_calls w with
                  | O => [tool_item "c1" "now" EmptyString; end_item]
                  | S _ => [answer_item "noon"; end_item]
                  end)
        (fun _ => false)
        (fun _ _ _ => Ok "noon")
        (fun _ => EmptyString).

(** A [tool_use] block made for a call: its id and name, and the decoded
    argument text as input. *)
Definition tool_use_of {json : JsonModule} (tool : ToolInfo) (b : Block) : Prop :=
  exists input,
    loads (ti_arguments tool) = Ok input
    /\ b = ToolUseBlock (ti_id tool) (ti_name tool) input.

(** A [tool_result] block for a call. *)
Definition tool_result_of (tool : ToolInfo) (b : Block) : Prop :=
  exists text, b = ToolResultBlock (ti_id tool) text.

(** ** Inputs on which the code leaves its path *)

(** [s * n] *)
Fixpoint py_repeat (s : string) (n : nat) : string :=
  match n with
  | O => EmptyString
  | S n' => s +:+ py_repeat s n'
  end.

(** An integer literal of 4301 digits: one more than [int] converts. *)
Definition long_integer : string := py_repeat "1" 4301.

Definition long_tool : ToolInfo := mkToolInfo "c2" "add" long_integer.

(** The model asks for two tools, the first of them with the long integer
    as its arguments, and answers in the next round; the executor adds. *)
Definition long_first_env : Env :=
  mkEnv (fun w => match model_calls w with
                  | O => [tool_item "c2" "add" long_integer;
                          tool_item "c3" "add" "{}"; end_item]
                  | S _ => [answer_item "3"; end_item]
                  end)
        (fun _ => false)
        (fun _ _ _ => Ok "3")
        (fun e => match e with
                  | ValueError message => message
                  | UnboundLocalError name =>
                      "cannot access local variable '" +:+ name
                      +:+ "' where it is not associated with a value"
                  | _ => EmptyString
                  end).

(** The same with a good call before the one with the long integer. *)
Definition long_second_env : Env :=
  mkEnv (fun w => match model_calls w with
                  | O => [tool_item "c1" "add" "{}";
                          tool_item "c2" "add" long_integer; end_item]
                  | S _ => [answer_item "3"; end_item]
                  end)
        (fun _ => false)
        (fun _ _ _ => Ok "3")
        (env_str long_first_env).

(** A stream whose first fragment for index 0 carries an id and no
    function part, and a stream in which the function part is missing from a
    later fragment of the index only. *)
Definition bare_opening : list OpenAI.ToolCallDelta :=
  [ OpenAI.mkToolCallDelta (Some 0%Z) (Some "call_a") None;
    OpenAI.mkToolCallDelta (Some 0%Z) None
      (Some (OpenAI.mkFunctionDelta (Some "add") (Some "{}"))) ].

Definition bare_later : list OpenAI.ToolCallDelta :=
  [ OpenAI.mkToolCallDelta (Some 0%Z) None
      (Some (OpenAI.mkFunctionDelta (Some "add") (Some "{}")));
    OpenAI.mkToolCallDelta (Some 0%Z) (Some "call_a") None ].

(** The model object whose stream sends the fragments in one chunk. *)
Definition fragment_stream (tcds : list OpenAI.ToolCallDelta) : OpenAI.Model :=
  OpenAI.mkModel true
    (fun _ => Ok [SChunk (OpenAI.mkChunk [OpenAI.mkDelta None None (Some tcds)])])
    (fun _ => Raise TypeError).

(** [json.dumps] and [str] of these examples. *)
Definition plain_tool_dumps : bool -> JSON -> string := fun _ _ => "{}".
Definition plain_exn_str (e : exn) : string :=
  match e with
  | AttributeError => "'NoneType' object has no attribute 'name'"
  | _ => EmptyString
  end.

(** * More of the code: the tool registry, the executor, the factory *)

(** ** The tool registry of [model_base] *)

Module Registry.

Section Tools.

(** The values the tool functions return. *)
Variable R : Type.

(** One element of the list given to [model_tool_init]: a dict with the
    keys [name], [description], [parameters] and [function]; an absent key
    is [None]. *)
Record ToolDef : Type := mkToolDef {
  td_name : option string;
  td_description : option string;
  td_parameters : option JSON;
  td_function : option (list (string * JSON) -> Exc R)
}.

(** One element of [self.tools]:
    [{'type': .., 'function': {'name': .., 'description': .., 'parameters': ..}}]. *)
Record ToolSchema : Type := mkToolSchema {
  sch_type : string;
  sch_name : string;
  sch_description : string;
  sch_parameters : JSON
}.

(** One element of the tool list of an Anthropic request. *)
Record AnthropicTool : Type := mkAnthropicTool {
  at_name : string;
  at_description : string;
  at_input_schema : JSON
}.

(** [tool[key]] on an optional field. *)
Definition required {A} (key : string) (o : option A) : Exc A :=
  match o with
  | Some a => Ok a
  | None => Raise (KeyError key)
  end.

(** [{'type': 'object', 'properties': {}}] *)
Definition default_parameters : JSON :=
  JObj [("type", JStr "object"); ("properties", JObj [])].

(** [model_base._convert_tools_to_format] *)
Fixpoint _convert_tools_to_format (tool_dict : list ToolDef) : Exc (list ToolSchema) :=
  match tool_dict with
  | [] => Ok []
  | tool :: rest =>
      exc_bind (required "name" (td_name tool)) (fun name =>
      exc_bind (required "description" (td_description tool)) (fun description =>
      let tool_schema :=
        mkToolSchema "function" name description
          (default default_parameters (td_parameters tool)) in
      exc_bind (_convert_tools_to_format rest) (fun tools =>
      Ok (tool_schema :: tools))))
  end.

(** [{tool['name']: tool for tool in tool_dict}], onto the dict [d]. *)
Fixpoint index_by_name (d : gmap string ToolDef) (tool_dict : list ToolDef)
    : Exc (gmap string ToolDef) :=
  match tool_dict with
  | [] => Ok d
  | tool :: rest =>
      exc_bind (required "name" (td_name tool)) (fun name =>
      index_by_name (<[name := tool]> d) rest)
  end.

(** The two attributes [model_tool_init] assigns. *)
Record Registry : Type := mkRegistry {
  tools : list ToolSchema;
  tool_dict : gmap string ToolDef
}.

(** The registry of a new model object. *)
Definition empty_registry : Registry := mkRegistry [] ∅.

(** [model_base.model_tool_init]: the outcome and the attributes afterwards.
    The first assignment is done before the second is computed. *)
Definition model_tool_init (self : Registry) (tools_given : list ToolDef)
    : Exc unit * Registry :=
  match index_by_name ∅ tools_given with
  | Raise e => (Raise e, self)
  | Ok d =>
      match _convert_tools_to_format tools_given with
      | Raise e => (Raise e, mkRegistry (tools self) d)
      | Ok ts => (Ok tt, mkRegistry ts d)
      end
  end.

(** The call of [func] with the dict [tool_args] as its keyword arguments:
    the arguments have to be a dict. *)
Definition call_with (func : list (string * JSON) -> Exc R) (tool_args : JSON)
    : Exc R :=
  match tool_args with
  | JObj kwargs => func kwargs
  | _ => Raise TypeError
  end.

(** [model_base._execute_tool] *)
Definition _execute_tool (self : Registry) (tool_name : string) (tool_args : JSON)
    : Exc R :=
  match tool_dict self !! tool_name with
  | Some tool_info =>
      exc_bind (required "function" (td_function tool_info)) (fun func =>
      call_with func tool_args)
  | None => Raise (ValueError ("Tool " +:+ tool_name +:+ " not found"))
  end.

(** [anthropic_model._convert_openai_tools_to_anthropic] *)
Fixpoint _convert_openai_tools_to_anthropic (openai_tools : list ToolSchema)
    : list AnthropicTool :=
  match openai_tools with
  | [] => []
  | tool :: rest =>
      if String.eqb (sch_type tool) "function"
      then mkAnthropicTool (sch_name tool) (sch_description tool) (sch_parameters tool)
             :: _convert_openai_tools_to_anthropic rest
      else _convert_openai_tools_to_anthropic rest
  end.

(** ** [SimpleFunctionExecutor] *)

(** [SimpleFunctionExecutor.execute_tool]; [str_of] is [str] on the values
    the functions return. *)
Definition execute_tool (str_of : R -> string)
    (tool_functions : gmap string (list (string * JSON) -> Exc R))
    (tool_name : string) (arguments : JSON) : Exc string :=
  match tool_functions !! tool_name with
  | None =>
      Raise (ValueError ("Tool '" +:+ tool_name +:+ "' not found in executor"))
  | Some func =>
      exc_bind (call_with func arguments) (fun result => Ok (str_of result))
  end.

(** The last tool of a list that has the name [n]. *)
Fixpoint last_named (n : string) (tools_given : list ToolDef) : option ToolDef :=
  match tools_given with
  | [] => None
  | tool :: rest =>
      match last_named n rest with
      | Some t => Some t
      | None => if bool_decide (td_name tool = Some n) then Some tool else None
      end
  end.

(** A tool with the two keys every tool needs. *)
Definition described (tool : ToolDef) : Prop :=
  is_Some (td_name tool) /\ is_Some (td_description tool).

End Tools.

Arguments mkToolDef {R} _ _ _ _.
Arguments td_name {R} _.
Arguments td_description {R} _.
Arguments td_parameters {R} _.
Arguments td_function {R} _.
Arguments _convert_tools_to_format {R} _.
Arguments index_by_name {R} _ _.
Arguments mkRegistry {R} _ _.
Arguments tools {R} _.
Arguments tool_dict {R} _.
Arguments empty_registry {R}.
Arguments model_tool_init {R} _ _.
Arguments call_with {R} _ _.
Arguments _execute_tool {R} _ _ _.
Arguments execute_tool {R} _ _ _ _.
Arguments last_named {R} _ _.
Arguments described {R} _.

End Registry.

(** * More of the adapters *)

(** Events that carry text only. *)
Definition texts_only (evs : list MsgReturn) : Prop :=
  Forall (fun ev => gorType ev = gor_think \/ gorType ev = gor_answer) evs.

(** The think and answer events of one chunk of an OpenAI stream. *)
Definition chunk_events (chunk : OpenAI.Chunk) : list MsgReturn :=
  match OpenAI.chunk_choices chunk with
  | [] => []
  | delta :: _ =>
      (if truthy (OpenAI.delta_reasoning_content delta)
       then [OpenAI.think_event (or_empty (OpenAI.delta_reasoning_content delta))]
       else [])
      ++ (if truthy (OpenAI.delta_content delta)
          then [OpenAI.answer_event (or_empty (OpenAI.delta_content delta))]
          else [])
  end.

(** The tool-call fragments of one chunk of an OpenAI stream. *)
Definition chunk_deltas (chunk : OpenAI.Chunk) : list OpenAI.ToolCallDelta :=
  match OpenAI.chunk_choices chunk with
  | [] => []
  | delta :: _ => default [] (OpenAI.delta_tool_calls delta)
  end.

(** The content blocks of an Anthropic stream, each with the pieces of its
    deltas. *)
Inductive StreamBlock : Type :=
| SThinking (pieces : list string)
| SText (pieces : list string)
| SToolUse (id name : string) (pieces : list string).

(** The chunks of a block: start, deltas, stop. *)
Definition block_chunks (b : StreamBlock) : list Anthropic.Chunk :=
  match b with
  | SThinking pieces =>
      Anthropic.ContentBlockStart Anthropic.StartThinking
      :: map (fun p => Anthropic.ContentBlockDelta (Anthropic.ThinkingDelta p)) pieces
      ++ [Anthropic.ContentBlockStop]
  | SText pieces =>
      Anthropic.ContentBlockStart Anthropic.StartText
      :: map (fun p => Anthropic.ContentBlockDelta (Anthropic.TextDelta p)) pieces
      ++ [Anthropic.ContentBlockStop]
  | SToolUse id name pieces =>
      Anthropic.ContentBlockStart (Anthropic.StartToolUse id name)
      :: map (fun p => Anthropic.ContentBlockDelta (Anthropic.InputJsonDelta p)) pieces
      ++ [Anthropic.ContentBlockStop]
  end.

(** A whole message as the stream sends it. *)
Definition message_chunks (blocks : list StreamBlock) : list Anthropic.Chunk :=
  Anthropic.MessageStart
  :: flat_map block_chunks blocks
  ++ [Anthropic.MessageDelta; Anthropic.MessageStop].

(** The text events of a block: one for each piece. *)
Definition block_events (b : StreamBlock) : list MsgReturn :=
  match b with
  | SThinking pieces =>
      map (fun p => mkMsgReturn p "thinking" gor_think (ExtraDelta p)) pieces
  | SText pieces =>
      map (fun p => mkMsgReturn p "text" gor_answer (ExtraDelta p)) pieces
  | SToolUse _ _ _ => []
  end.

(** The tool call of a block, if it is a tool-use block: the pieces joined. *)
Definition block_call (b : StreamBlock) : option ToolCall :=
  match b with
  | SToolUse id name pieces =>
      Some (mkToolCall id "function" name
              (fold_right String.append EmptyString pieces))
  | _ => None
  end.

(** Whether a history is one [_convert_messages_to_anthropic] gets through:
    the argument text of every tool call of every assistant message is
    decoded by [json.loads]. *)
Definition decodes {json : JsonModule} (text : string) : bool :=
  match loads text with
  | Ok _ => true
  | Raise _ => false
  end.

Definition convertible {json : JsonModule} (m : Message) : bool :=
  String.eqb (role m) "tool"
  || negb (String.eqb (role m) "assistant")
  || match tool_calls m with
     | None => true
     | Some tcs => forallb (fun tc => decodes (tc_arguments tc)) tcs
     end.

(** An assistant message that lists a tool call on whose argument text
    [json.loads] raises [e]. *)
Definition undecoded_call {json : JsonModule} (e : exn) (m : Message) : Prop :=
  role m = "assistant"
  /\ exists tcs tc,
       tool_calls m = Some tcs /\ tc ∈ tcs /\ loads (tc_arguments tc) = Raise e.

(** A generator that, if it raises, has yielded text events only. *)
Definition fails_clean (g : Gen) : Prop :=
  raised g <> None -> texts_only (yielded g).

(** The texts and the tool calls of the blocks of a whole Anthropic
    response. *)
Definition response_text (blocks : list Anthropic.ResponseBlock) : string :=
  fold_right String.append EmptyString
    (omap (fun b => match b with Anthropic.RText t => Some t | _ => None end) blocks).

Definition response_thinking (blocks : list Anthropic.ResponseBlock) : string :=
  fold_right String.append EmptyString
    (omap (fun b => match b with Anthropic.RThinking t => Some t | _ => None end) blocks).

Definition response_calls (json_dumps : bool -> JSON -> string)
    (blocks : list Anthropic.ResponseBlock) : list ToolCall :=
  omap (fun b => match b with
                 | Anthropic.RToolUse id name input =>
                     Some (mkToolCall id "function" name (json_dumps true input))
                 | _ => None
                 end) blocks.

(** * More of the loops *)

(** Whether the tool loops hand a call to the executor: its argument text
    parses to something other than [None]. *)
Definition runs {json : JsonModule} (tool : ToolInfo) : bool :=
  match parse_tool_arguments (ti_arguments tool) with
  | Ok JNull => false
  | Ok _ => true
  | Raise _ => false
  end.

(** The calls of the executor a list of tools asks for, in order. *)
Definition planned_calls {json : JsonModule} (tools : list ToolInfo)
    : list (string * JSON) :=
  omap (fun tool =>
          match parse_tool_arguments (ti_arguments tool) with
          | Ok JNull => None
          | Ok tool_args => Some (ti_name tool, tool_args)
          | Raise _ => None
          end) tools.

(** The entry the loops write into [tool_calls] for a call. *)
Definition entry_of (tool : ToolInfo) : ToolCall :=
  mkToolCall (ti_id tool) "function" (ti_name tool) (ti_arguments tool).

(** The events that close the stream of a loop. *)
Definition closing (ev : OutEvent) : Prop :=
  match ev with
  | ev_end | ev_error _ | ev_interrupted _ => True
  | _ => False
  end.

(** The events that stop a loop early. *)
Definition stopping (ev : OutEvent) : Prop :=
  match ev with
  | ev_error _ | ev_interrupted _ => True
  | _ => False
  end.

Definition not_end (ev : OutEvent) : Prop :=
  match ev with
  | ev_end => False
  | _ => True
  end.

(** The later world has the events of the earlier one, then [evs]. *)
Definition emits (w w' : World) (evs : list OutEvent) : Prop :=
  emitted w' = emitted w ++ evs.

(** The later history is the earlier one with messages appended, each of
    which has one of the two given roles. *)
Definition appends (r1 r2 : string) (w w' : World) : Prop :=
  exists added,
    messages w' = messages w ++ added
    /\ Forall (fun m => role m = r1 \/ role m = r2) added.

(** An executor that never raises. *)
Definition executor_total (env : Env) : Prop :=
  forall w tool_name tool_args,
    exists result, env_execute_tool env w tool_name tool_args = Ok result.

(** The events a piece of a loop adds are none of them [end]. *)
Definition quiet (w w' : World) : Prop :=
  exists evs, emits w w' evs /\ Forall not_end evs.

(** The events a piece of a loop adds are none of them [end], and the last
    one stops the loop. *)
Definition stopped (w w' : World) : Prop :=
  exists evs ev, emits w w' (evs ++ [ev]) /\ Forall not_end evs /\ stopping ev.

(** The events of a whole run: no [end] before the last one, which closes
    the stream. *)
Definition closed (w w' : World) : Prop :=
  exists evs ev, emits w w' (evs ++ [ev]) /\ Forall not_end evs /\ closing ev.

(** A piece of a generator body keeps a relation [Q] between the world it
    starts in and the world it leaves, and the stronger [S] when it leaves by
    [return]. *)
Definition framed {A} (Q S : World -> World -> Prop) (c : M A) : Prop :=
  forall w,
    match fst (c w) with
    | Returned => S w (snd (c w))
    | _ => Q w (snd (c w))
    end.

(** [chatToNextLoop] as the class of the model resolves it: the DeepSeek
    and the Minimax class override the method of [model_base]. *)
Definition chatToNextLoop {json : JsonModule} (self : AnyModel) (env : Env)
    (fuel : nat) : M unit :=
  match self with
  | openai_chat _ | anthropic _ => Base.chatToNextLoop env fuel
  | deepseek_openai _ => DeepSeek.chatToNextLoop env fuel
  | minimax_anthropic _ => Minimax.chatToNextLoop env fuel
  end.

(** The role under which a loop writes the results of the tools. *)
Definition result_role (self : AnyModel) : string :=
  match self with
  | minimax_anthropic _ => "user"
  | _ => "tool"
  end.

(** The events of a whole run, by the way the run stops: it falls through
    after [end]; it returns after [error] or [interrupted]; the handler of
    [chatToNextLoop] has turned an exception into an [error] event; or the
    rounds given to the run are used up. *)
Definition run_events (env : Env) (w : World) (p : Res unit * World) : Prop :=
  match fst p with
  | Val _ =>
      (exists evs, emits w (snd p) (evs ++ [ev_end]) /\ Forall not_end evs)
      \/ (exists evs e,
            emits w (snd p) (evs ++ [ev_error (response_error_message (env_str env e))])
            /\ Forall not_end evs)
  | Returned => stopped w (snd p)
  | Thrown _ => False
  | Diverged => quiet w (snd p)
  end.

(** The assistant message of a round of the base loop with tool calls. *)
Definition listing (calls : list ToolCall) : Message :=
  mkMessage "assistant" (CStr EmptyString) (Some calls) None None.

(** A tool message for a call. *)
Definition answers (tool : ToolInfo) (m : Message) : Prop :=
  exists text, m = tool_message (ti_id tool) text.

(** The collaborators with a [SimpleFunctionExecutor] on the functions
    [tool_functions] as the executor. *)
Definition with_simple_executor {R} (env : Env) (str_of : R -> string)
    (tool_functions : gmap string (list (string * JSON) -> Exc R)) : Env :=
  mkEnv (env_model_chat env) (env_interrupt_check env)
        (fun _ tool_name tool_args =>
           Registry.execute_tool str_of tool_functions tool_name tool_args)
        (env_str env).

(** Whether a [SimpleFunctionExecutor] gives a result for a call: the
    arguments parse to a dict, the name is registered and the function
    returns. *)
Definition served {json : JsonModule} {R}
    (tool_functions : gmap string (list (string * JSON) -> Exc R))
    (tool : ToolInfo) : bool :=
  match parse_tool_arguments (ti_arguments tool) with
  | Ok (JObj kwargs) =>
      match tool_functions !! ti_name tool with
      | Some func =>
          match func kwargs with
          | Ok _ => true
          | Raise _ => false
          end
      | None => false
      end
  | _ => false
  end.

(** ** Inputs of the examples *)

(** A tool with everything [model_tool_init] asks for, and one without a
    description. *)
Definition add_tool : Registry.ToolDef string :=
  Registry.mkToolDef (Some "add") (Some "adds two numbers") None
    (Some (fun _ => Ok "3")).

Definition bare_tool : Registry.ToolDef string :=
  Registry.mkToolDef (Some "bare") None None None.

(** [json.dumps] and [str] of the examples. *)
Definition plain_dumps : bool -> JSON -> string := fun _ _ => "{}".
Definition plain_str (e : exn) : string :=
  match e with OtherException tag => tag | _ => EmptyString end.

(** An OpenAI stream: a thought, then the answer together with a tool call. *)
Definition spoken_chunks : list OpenAI.Chunk :=
  [ OpenAI.mkChunk [OpenAI.mkDelta (Some "add them") None None];
    OpenAI.mkChunk
      [OpenAI.mkDelta None (Some "3")
         (Some [OpenAI.mkToolCallDelta (Some 0%Z) (Some "c1")
                  (Some (OpenAI.mkFunctionDelta (Some "add") (Some "{}")))])] ].

Definition streaming_openai : OpenAI.Model :=
  OpenAI.mkModel true (fun _ => Ok (map SChunk spoken_chunks))
    (fun _ => Raise TypeError).

(** An OpenAI stream that breaks after a tool-call fragment. *)
Definition broken_openai : OpenAI.Model :=
  OpenAI.mkModel true
    (fun _ => Ok (map SChunk spoken_chunks ++ [SRaise (OtherException "boom")]))
    (fun _ => Raise TypeError).

(** An Anthropic message: a thinking block in two pieces, a text block and a
    tool-use block with no input at all. *)
Definition spoken_blocks : list StreamBlock :=
  [SThinking ["add "; "them"]; SText ["3"]; SToolUse "c1" "now" []].

Definition streaming_anthropic : Anthropic.Model :=
  Anthropic.mkModel true (fun _ => Ok (map SChunk (message_chunks spoken_blocks)))
    (fun _ => Raise TypeError).

Definition whole_anthropic : Anthropic.Model :=
  Anthropic.mkModel false (fun _ => Raise TypeError)
    (fun _ => Ok (Anthropic.mkResponse
                    [Anthropic.RText "3"; Anthropic.RThinking "add them";
                     Anthropic.RToolUse "c1" "add" (JObj [])])).

(** The model says a word and then its adapter reports a failure. *)
Definition failing_adapter_env : Env :=
  mkEnv (fun _ => [answer_item "par"; error_event plain_str (OtherException "boom")])
        (fun _ => false)
        (fun _ _ _ => Ok "3")
        plain_str.

(** A response in which the model only speaks: no tool item and no error
    item. *)
Definition speaks (response : list MsgReturn) : Prop :=
  Forall (fun item => gorType item <> gor_tool /\ gorType item <> gor_error) response.

(** The model thinks and answers; nothing else happens. *)
Definition thinking_env : Env :=
  mkEnv (fun _ => [think_item "add them"; answer_item "3"; end_item])
        (fun _ => false)
        (fun _ _ _ => Ok "3")
        plain_str.

(** * The argument parser *)

Lemma strip_nonempty_nonempty (s : string) :
  nonempty (py_strip s) = true -> nonempty s = true.
Proof. destruct s; [discriminate | reflexivity]. Qed.

Section ParserShape.

Variable json_loads : string -> Exc JSON.

Lemma parse_blank (s : string) :
  nonempty (py_strip s) = false ->
  _try_parse_tool_arguments json_loads s = Ok (JObj []).
Proof.
  intros H. unfold _try_parse_tool_arguments.
  rewrite H. rewrite orb_true_r. reflexivity.
Qed.

Lemma parse_direct (s : string) (v : JSON) :
  nonempty (py_strip s) = true ->
  json_loads s = Ok v ->
  _try_parse_tool_arguments json_loads s = Ok v.
Proof.
  intros H Hl. unfold _try_parse_tool_arguments.
  rewrite H, (strip_nonempty_nonempty _ H), Hl. reflexivity.
Qed.

Lemma parse_repaired (s : string) (r : Exc JSON) :
  nonempty (py_strip s) = true ->
  json_loads s = Raise JSONDecodeError ->
  json_loads (py_replace squote dquote s) = r ->
  _try_parse_tool_arguments json_loads s
  = match r with
    | Ok v => Ok v
    | Raise JSONDecodeError => Ok JNull
    | Raise e => Raise e
    end.
Proof.
  intros H Hl Hr. unfold _try_parse_tool_arguments.
  rewrite H, (strip_nonempty_nonempty _ H), Hl. cbn.
  rewrite Hr. destruct r as [v|[]]; reflexivity.
Qed.

(** A decoder that only ever raises [JSONDecodeError] makes the parser total. *)
Lemma parse_never_raises (s : string) :
  (forall t e, json_loads t = Raise e -> e = JSONDecodeError) ->
  exists v, _try_parse_tool_arguments json_loads s = Ok v.
Proof.
  intros Honly. unfold _try_parse_tool_arguments.
  destruct (negb (nonempty s) || negb (nonempty (py_strip s))); [eauto|].
  destruct (json_loads s) as [v|e] eqn:E1; cbn; [eauto|].
  rewrite (Honly _ _ E1). cbn.
  destruct (json_loads (py_replace squote dquote s)) as [v|e'] eqn:E2; cbn; [eauto|].
  rewrite (Honly _ _ E2). cbn. eauto.
Qed.

(** The parser raises exactly what [json.loads] raises besides
    [JSONDecodeError], on the text or on the repaired text. *)
Lemma parse_raises (s : string) (e : exn) :
  _try_parse_tool_arguments json_loads s = Raise e
  <-> nonempty (py_strip s) = true
      /\ e <> JSONDecodeError
      /\ (json_loads s = Raise e
          \/ (json_loads s = Raise JSONDecodeError
              /\ json_loads (py_replace squote dquote s) = Raise e)).
Proof.
  unfold _try_parse_tool_arguments.
  destruct (nonempty (py_strip s)) eqn:Hs.
  - rewrite (strip_nonempty_nonempty _ Hs). cbn.
    destruct (json_loads s) as [v|e1] eqn:E1; cbn.
    + split; [done|]. intros (_ & _ & [?|[? _]]); done.
    + destruct (is_JSONDecodeError e1) eqn:Hd.
      * destruct e1; try done.
        destruct (json_loads (py_replace squote dquote s)) as [v|e2] eqn:E2; cbn.
        { split; [done|]. intros (_ & Hne & [[= <-]|[_ ?]]); done. }
        destruct (is_JSONDecodeError e2) eqn:Hd2.
        { destruct e2; try done. split; [done|].
          intros (_ & Hne & [[= <-]|[_ [= <-]]]); done. }
        split.
        { intros [= <-]. split_and!; [done | by intros -> | by right]. }
        intros (_ & Hne & [[= <-]|[_ [= <-]]]); done.
      * split.
        { intros [= <-]. split_and!; [done | by intros -> | by left]. }
        intros (_ & _ & [[= <-]|[[= ->] _]]); done.
  - rewrite orb_true_r. split; [done | by intros [? _]].
Qed.

(** A text [json.loads] decodes is a text the parser returns on. *)
Lemma parse_decoded (s : string) (v : JSON) :
  json_loads s = Ok v -> exists args, _try_parse_tool_arguments json_loads s = Ok args.
Proof.
  intros Hl. unfold _try_parse_tool_arguments. rewrite Hl.
  destruct (negb (nonempty s) || negb (nonempty (py_strip s))); cbn; eauto.
Qed.

End ParserShape.

(** What the argument parser does, whatever [json.loads] is: the empty
    argument map on empty and on white-space-only text; on other text what
    [json.loads] gives, and when [json.loads] raises [JSONDecodeError], what it
    gives on the text with every single quote replaced by a double quote;
    [None] when that second attempt raises [JSONDecodeError] too.  Any other
    exception of [json.loads] leaves the parser. *)
Lemma parse_tool_arguments_shape {json : JsonModule} :
  (forall s, nonempty (py_strip s) = false ->
             parse_tool_arguments s = Ok (JObj []))
  /\ (forall s v, nonempty (py_strip s) = true ->
                  loads s = Ok v ->
                  parse_tool_arguments s = Ok v)
  /\ (forall s v, nonempty (py_strip s) = true ->
                  loads s = Raise JSONDecodeError ->
                  loads (py_replace squote dquote s) = Ok v ->
                  parse_tool_arguments s = Ok v)
  /\ (forall s, nonempty (py_strip s) = true ->
                loads s = Raise JSONDecodeError ->
                loads (py_replace squote dquote s) = Raise JSONDecodeError ->
                parse_tool_arguments s = Ok JNull)
  /\ (forall s e,
        parse_tool_arguments s = Raise e
        <-> nonempty (py_strip s) = true
            /\ e <> JSONDecodeError
            /\ (loads s = Raise e
                \/ (loads s = Raise JSONDecodeError
                    /\ loads (py_replace squote dquote s) = Raise e))).
Proof.
  split_and!.
  - intros s Hs. by apply parse_blank.
  - intros s v Hs Hl. by apply parse_direct.
  - intros s v Hs Hl Hr. unfold parse_tool_arguments.
    by rewrite (parse_repaired loads s (Ok v) Hs Hl Hr).
  - intros s Hs Hl Hr. unfold parse_tool_arguments.
    by rewrite (parse_repaired loads s (Raise JSONDecodeError) Hs Hl Hr).
  - intros s e. apply parse_raises.
Qed.

Lemma parses_decoded {json : JsonModule} (tool : ToolInfo) (v : JSON) :
  loads (ti_arguments tool) = Ok v -> parses tool.
Proof. apply parse_decoded. Qed.

(** C3, on the code: on the empty text the parser gives the empty map, on
    the text with the key a in single quotes and the value 1 the map from a
    to 1, and on an opening brace followed by bad [None]; but on an integer
    literal of 4301 digits [json.loads] raises [ValueError], which the two
    [except json.JSONDecodeError] clauses do not catch, and the parser raises
    it to its caller. *)
Theorem C3_parser_raises_on_long_integer :
  loads long_integer = Raise Json.digits_error
  /\ is_JSONDecodeError Json.digits_error = false
  /\ parse_tool_arguments long_integer = Raise Json.digits_error
  /\ parse_tool_arguments EmptyString = Ok (JObj [])
  /\ parse_tool_arguments "{'a': 1}" = Ok (JObj [("a", JInt 1)])
  /\ parse_tool_arguments "{bad" = Ok JNull.
Proof. split_and!; vm_compute; reflexivity. Qed.

(** * The adapters end every invocation with one terminal event *)

Lemma well_terminated_raise (e : exn) : well_terminated (gen_raise [] e).
Proof. cbn. constructor. Qed.

Lemma well_terminated_after (evs : list MsgReturn) (g : Gen) :
  Forall (fun ev => is_terminal ev = false) evs ->
  well_terminated g ->
  well_terminated (gen_after evs g).
Proof.
  intros Hevs. unfold well_terminated, gen_after. cbn.
  destruct (raised g).
  - intros Hg. by apply Forall_app.
  - intros (body & last_ev & Hy & Hbody & Hlast).
    exists (evs ++ body), last_ev. rewrite Hy, app_assoc.
    split_and!; [done | by apply Forall_app | done].
Qed.

Lemma well_terminated_done (body : list MsgReturn) (last_ev : MsgReturn) :
  Forall (fun ev => is_terminal ev = false) body ->
  gorType last_ev = gor_end ->
  well_terminated (gen_done (body ++ [last_ev])).
Proof. intros Hb Hl. cbn. by exists body, last_ev. Qed.

(** Closing a generator with the [except] clause of [model_chat]. *)
Lemma catch_all_one_terminal (py_str : exn -> string) (g : Gen) :
  well_terminated g ->
  exists body last_ev,
    catch_all py_str g = body ++ [last_ev]
    /\ Forall (fun ev => is_terminal ev = false) body
    /\ (gorType last_ev = gor_end /\ raised g = None
        \/ gorType last_ev = gor_error /\ raised g <> None).
Proof.
  unfold well_terminated, catch_all. destruct (raised g) as [e|].
  - intros Hg. exists (yielded g), (error_event py_str e).
    split_and!; [done | done | right; done].
  - intros (body & last_ev & Hy & Hbody & Hlast).
    exists body, last_ev. split_and!; [done | done | left; done].
Qed.

Lemma map_not_terminal {A} (f : A -> MsgReturn) (l : list A) :
  (forall a, is_terminal (f a) = false) ->
  Forall (fun ev => is_terminal ev = false) (map f l).
Proof. intros Hf. induction l; cbn; constructor; auto. Qed.

Section AdapterTermination.

Context {json : JsonModule}.

Variable json_dumps : bool -> JSON -> string.
Variable py_str : exn -> string.

Lemma openai_handle_chunk_not_terminal chunk vars :
  Forall (fun ev => is_terminal ev = false)
    (fst (OpenAI.handle_chunk chunk vars)).
Proof.
  unfold OpenAI.handle_chunk.
  destruct (OpenAI.chunk_choices chunk) as [|delta ?]; cbn; [constructor|].
  destruct (truthy (OpenAI.delta_reasoning_content delta));
    destruct (truthy (OpenAI.delta_content delta)); cbn;
    repeat constructor.
Qed.

Lemma openai_stream_loop_terminated items vars :
  well_terminated (OpenAI.stream_loop json_dumps items vars).
Proof.
  revert vars. induction items as [|[chunk|e] rest IH]; intros vars;
    cbn [OpenAI.stream_loop].
  - apply well_terminated_done; [|done].
    by apply map_not_terminal.
  - pose proof (openai_handle_chunk_not_terminal chunk vars) as Hc.
    destruct (OpenAI.handle_chunk chunk vars) as [evs [vars'|e]]; cbn in Hc.
    + by apply well_terminated_after.
    + apply Hc.
  - apply well_terminated_raise.
Qed.

Lemma openai_stream_terminated response :
  well_terminated (OpenAI._handle_stream_response json_dumps response).
Proof.
  destruct response as [items|e]; unfold OpenAI._handle_stream_response.
  - apply openai_stream_loop_terminated.
  - apply well_terminated_raise.
Qed.

Lemma openai_normal_terminated response :
  well_terminated (OpenAI._handle_normal_response json_dumps response).
Proof.
  unfold OpenAI._handle_normal_response.
  destruct response as [r|e]; [|apply well_terminated_raise].
  destruct (OpenAI.cc_choices r) as [|message ?]; [apply well_terminated_raise|].
  rewrite app_assoc. apply well_terminated_done; [|done].
  apply Forall_app. split.
  - destruct (truthy _); repeat constructor.
  - by apply map_not_terminal.
Qed.

Lemma anthropic_handle_chunk_not_terminal chunk v :
  Forall (fun ev => is_terminal ev = false)
    (fst (Anthropic.handle_chunk chunk v)).
Proof.
  destruct chunk as [|[]|[]| | | |]; cbn; try constructor.
  - destruct (Anthropic.current_content_type v) as [[]|]; cbn; repeat constructor.
  - done.
  - constructor.
Qed.

Lemma anthropic_stream_loop_terminated items v :
  well_terminated (Anthropic.stream_loop json_dumps items v).
Proof.
  revert v. induction items as [|[chunk|e] rest IH]; intros v;
    cbn [Anthropic.stream_loop].
  - apply well_terminated_done; [|done].
    by apply map_not_terminal.
  - pose proof (anthropic_handle_chunk_not_terminal chunk v) as Hc.
    destruct (Anthropic.handle_chunk chunk v) as [evs v'].
    by apply well_terminated_after.
  - apply well_terminated_raise.
Qed.

Lemma anthropic_stream_terminated response :
  well_terminated (Anthropic._handle_stream_response json_dumps response).
Proof.
  destruct response as [items|e]; unfold Anthropic._handle_stream_response.
  - apply anthropic_stream_loop_terminated.
  - apply well_terminated_raise.
Qed.

Lemma anthropic_normal_terminated response :
  well_terminated (Anthropic._handle_normal_response json_dumps response).
Proof.
  unfold Anthropic._handle_normal_response.
  destruct response as [r|e]; [|apply well_terminated_raise].
  destruct (Anthropic.collect_blocks _ _ _ _ _) as [[content thinking] calls].
  rewrite !app_assoc. apply well_terminated_done; [|done].
  rewrite !Forall_app. split_and!.
  - destruct (nonempty thinking); repeat constructor.
  - destruct (nonempty content); repeat constructor.
  - by apply map_not_terminal.
Qed.

Lemma openai_model_chat_terminated self messages :
  exists g, OpenAI.model_chat json_dumps py_str self messages = catch_all py_str g
            /\ well_terminated g.
Proof.
  unfold OpenAI.model_chat. eexists. split; [reflexivity|].
  destruct (OpenAI.stream self).
  - apply openai_stream_terminated.
  - apply openai_normal_terminated.
Qed.

Lemma anthropic_model_chat_terminated self messages :
  exists g, Anthropic.model_chat json_dumps py_str self messages = catch_all py_str g
            /\ well_terminated g.
Proof.
  unfold Anthropic.model_chat. eexists. split; [reflexivity|].
  destruct (Anthropic._convert_messages_to_anthropic messages); [|apply well_terminated_raise].
  destruct (Anthropic.stream self).
  - apply anthropic_stream_terminated.
  - apply anthropic_normal_terminated.
Qed.

End AdapterTermination.

Lemma count_terminal_last (body : list MsgReturn) (last_ev : MsgReturn) :
  Forall (fun ev => is_terminal ev = false) body ->
  is_terminal last_ev = true ->
  length (List.filter is_terminal (body ++ [last_ev])) = 1.
Proof.
  intros Hb Hl. rewrite List.filter_app, length_app. cbn. rewrite Hl. cbn.
  induction Hb as [|ev body Hev _ IH]; cbn; [done|]. by rewrite Hev.
Qed.

(** C1: for each of the four adapters, in either mode, whatever the transport
    hands over or raises, the events of one [model_chat] call are some
    non-terminal events followed by exactly one terminal event: an [end] or an
    [error], never both and never none, and nothing comes after it. *)
Theorem C1_one_terminal_event {json : JsonModule} (json_dumps : bool -> JSON -> string)
    (py_str : exn -> string) (self : AnyModel) (messages : list Message) :
  exists body last_ev,
    model_chat json_dumps py_str self messages = body ++ [last_ev]
    /\ Forall (fun ev => is_terminal ev = false) body
    /\ (gorType last_ev = gor_end \/ gorType last_ev = gor_error)
    /\ length (List.filter is_terminal (model_chat json_dumps py_str self messages)) = 1.
Proof.
  assert (exists g, model_chat json_dumps py_str self messages = catch_all py_str g
                    /\ well_terminated g) as (g & Heq & Hg).
  { destruct self; cbn.
    - apply openai_model_chat_terminated.
    - apply anthropic_model_chat_terminated.
    - apply anthropic_model_chat_terminated.
    - apply openai_model_chat_terminated. }
  destruct (catch_all_one_terminal py_str g Hg) as (body & last_ev & Hc & Hbody & Hlast).
  exists body, last_ev. rewrite Heq, Hc.
  split_and!; [done | done | tauto |].
  apply count_terminal_last; [done|].
  unfold is_terminal. destruct Hlast as [[-> _]|[-> _]]; done.
Qed.

(** * The tool-call accumulator *)

Lemma append_empty_r (s : string) : s +:+ EmptyString = s.
Proof.
  induction s as [|c s IH]; [done|].
  change (String c (s +:+ EmptyString) = String c s). by f_equal.
Qed.

Lemma append_assoc (a b c : string) : (a +:+ b) +:+ c = a +:+ (b +:+ c).
Proof.
  induction a as [|x a IH]; [done|].
  change (String x ((a +:+ b) +:+ c) = String x (a +:+ (b +:+ c))). by f_equal.
Qed.

Lemma nonempty_false (s : string) : nonempty s = false -> s = EmptyString.
Proof. by destruct s. Qed.

Lemma append_if_truthy (s : string) (o : option string) :
  (if truthy o then s +:+ or_empty o else s) = s +:+ or_empty o.
Proof.
  unfold truthy. destruct (nonempty (or_empty o)) eqn:E; [done|].
  by rewrite (nonempty_false _ E), append_empty_r.
Qed.

(** One fragment changes the record of its own index, by [absorb]. *)
Lemma accumulate_lookup d t d' :
  OpenAI.accumulate d t = Ok d' ->
  forall i, d' !! i = if at_index i t then absorb (d !! i) t else d !! i.
Proof.
  unfold OpenAI.accumulate, at_index, absorb, fragment_name, fragment_arguments.
  destruct (OpenAI.tcd_index t) as [j|]; [|by intros [= <-] i].
  destruct (d !! j) as [cur|] eqn:Hj.
  - intros [= <-] i. destruct (Z.eqb_spec i j) as [->|Hne].
    + rewrite lookup_insert_eq, Hj. f_equal. f_equal.
      * unfold truthy.
        destruct (nonempty (tc_id cur)) eqn:E1; cbn; [by rewrite andb_false_r|].
        rewrite andb_true_r.
        destruct (nonempty (or_empty (OpenAI.tcd_id t))) eqn:E2; [done|].
        by rewrite (nonempty_false _ E1), (nonempty_false _ E2).
      * destruct (OpenAI.tcd_function t) as [f|].
        -- apply append_if_truthy.
        -- symmetry. apply append_empty_r.
      * destruct (OpenAI.tcd_function t) as [f|].
        -- apply append_if_truthy.
        -- symmetry. apply append_empty_r.
    + by rewrite lookup_insert_ne.
  - destruct (OpenAI.tcd_function t) as [f|]; [|done].
    intros [= <-] i. destruct (Z.eqb_spec i j) as [->|Hne].
    + by rewrite lookup_insert_eq, Hj.
    + by rewrite lookup_insert_ne.
Qed.

Lemma accumulate_all_lookup tcds : forall d d',
  OpenAI.accumulate_all d tcds = Ok d' ->
  forall i, d' !! i = fold_left absorb (fragments_at i tcds) (d !! i).
Proof.
  induction tcds as [|t rest IH]; intros d d'; cbn.
  - by intros [= <-] i.
  - destruct (OpenAI.accumulate d t) as [d1|e] eqn:E1; cbn; [|done].
    intros Hrest i. rewrite (IH _ _ Hrest i), (accumulate_lookup _ _ _ E1 i).
    unfold fragments_at. cbn. by destruct (at_index i t).
Qed.

(** A stream in which every fragment that opens an index has its function
    part is accumulated without an exception. *)
Lemma accumulate_all_succeeds tcds : forall (d : gmap Z ToolCall) seen,
  (forall i, existsb (Z.eqb i) seen = true <-> is_Some (d !! i)) ->
  opens_with_function seen tcds = true ->
  exists d', OpenAI.accumulate_all d tcds = Ok d'.
Proof.
  induction tcds as [|t rest IH]; intros d seen Hseen Hopen; cbn; [eauto|].
  cbn in Hopen. unfold OpenAI.accumulate.
  destruct (OpenAI.tcd_index t) as [i|]; cbn; [|by eapply IH].
  destruct (existsb (Z.eqb i) seen) eqn:Ei.
  - destruct (proj1 (Hseen i) Ei) as [cur ->]. cbn.
    eapply IH; [|exact Hopen].
    intros j. rewrite Hseen. destruct (decide (i = j)) as [->|Hne].
    + rewrite lookup_insert_eq. split; [by eauto | by intros _; apply Hseen].
    + by rewrite lookup_insert_ne.
  - destruct (d !! i) as [cur|] eqn:Ed.
    { assert (existsb (Z.eqb i) seen = true) by (apply Hseen; eauto). congruence. }
    destruct (OpenAI.tcd_function t) as [f|]; [|done]. cbn.
    eapply IH; [|exact Hopen].
    intros j. cbn. destruct (Z.eqb_spec j i) as [->|Hne].
    + rewrite lookup_insert_eq. cbn. split; eauto.
    + rewrite lookup_insert_ne by done. cbn. apply Hseen.
Qed.

Lemma fold_absorb_some frs : forall cur,
  fold_left absorb frs (Some cur)
  = Some (mkToolCall
            (if nonempty (tc_id cur) then tc_id cur else first_id frs)
            (tc_type cur)
            (tc_name cur +:+ joined fragment_name frs)
            (tc_arguments cur +:+ joined fragment_arguments frs)).
Proof.
  induction frs as [|t rest IH]; intros cur; cbn.
  - rewrite !append_empty_r.
    destruct cur as [i ty n a]; cbn.
    destruct (nonempty i) eqn:E; [done|]. by rewrite (nonempty_false _ E).
  - rewrite IH. cbn. rewrite !append_assoc. f_equal. f_equal.
    unfold truthy.
    destruct (nonempty (tc_id cur)) eqn:E1; cbn; [by rewrite E1|].
    by destruct (nonempty (or_empty (OpenAI.tcd_id t))).
Qed.

Lemma fold_absorb_none frs :
  fold_left absorb frs None
  = match frs with [] => None | _ :: _ => Some (assembled frs) end.
Proof.
  destruct frs as [|t rest]; cbn; [done|].
  rewrite fold_absorb_some. cbn. unfold assembled, truthy. cbn. done.
Qed.

(** The dict after a whole stream, key by key. *)
Lemma accumulated_dict tcds d :
  OpenAI.accumulate_all ∅ tcds = Ok d ->
  forall i, d !! i = match fragments_at i tcds with
                     | [] => None
                     | _ :: _ => Some (assembled (fragments_at i tcds))
                     end.
Proof.
  intros H i. rewrite (accumulate_all_lookup _ _ _ H i), lookup_empty.
  apply fold_absorb_none.
Qed.

Lemma elem_of_sorted_keys (d : gmap Z ToolCall) (i : Z) :
  i ∈ OpenAI.sorted_keys d <-> is_Some (d !! i).
Proof.
  unfold OpenAI.sorted_keys. rewrite merge_sort_Permutation.
  rewrite list_elem_of_fmap. split.
  - intros ([j tc] & -> & Hin). apply elem_of_map_to_list in Hin. by eexists.
  - intros [tc Htc]. exists (i, tc). split; [done|]. by apply elem_of_map_to_list.
Qed.

Lemma elem_of_finalize_indexed (d : gmap Z ToolCall) (i : Z) (tc : ToolCall) :
  (i, tc) ∈ OpenAI.finalize_indexed d
  <-> d !! i = Some tc /\ nonempty (tc_id tc) = true.
Proof.
  unfold OpenAI.finalize_indexed. rewrite list_elem_of_omap. split.
  - intros (j & _ & Hj). destruct (d !! j) as [tc'|] eqn:E; [|done].
    destruct (nonempty (tc_id tc')) eqn:En; [|done].
    by injection Hj as -> ->.
  - intros [Hd Hid]. exists i. split.
    + apply elem_of_sorted_keys. by eexists.
    + by rewrite Hd, Hid.
Qed.

Lemma sorted_le_nodup_lt (l : list Z) :
  StronglySorted Z.le l -> NoDup l -> StronglySorted Z.lt l.
Proof.
  induction 1 as [|x l Hs IH Hx]; intros Hnd; constructor.
  - apply IH. by apply NoDup_cons in Hnd as [_ ?].
  - apply NoDup_cons in Hnd as [Hnotin _].
    rewrite Forall_forall in Hx |- *. intros y Hy.
    assert (x <> y) by (intros ->; by apply Hnotin, list_elem_of_In).
    specialize (Hx y Hy). lia.
Qed.

Lemma sorted_keys_increasing (d : gmap Z ToolCall) :
  StronglySorted Z.lt (OpenAI.sorted_keys d).
Proof.
  apply sorted_le_nodup_lt.
  - apply StronglySorted_merge_sort; apply _.
  - unfold OpenAI.sorted_keys. rewrite merge_sort_Permutation.
    apply NoDup_fst_map_to_list.
Qed.

(** Dropping entries from a sorted list of keys keeps the order. *)
Lemma kept_keys_increasing {A} (f : Z -> option (Z * A)) (l : list Z) :
  (forall i p, f i = Some p -> fst p = i) ->
  StronglySorted Z.lt l ->
  StronglySorted Z.lt (map fst (omap f l)).
Proof.
  intros Hf. induction 1 as [|x l Hs IH Hx]; cbn; [constructor|].
  destruct (f x) as [p|] eqn:E; cbn; [|done].
  constructor; [done|].
  rewrite (Hf _ _ E).
  clear -Hx Hf. induction Hx as [|y l Hy _ IH]; cbn; [constructor|].
  destruct (f y) as [q|] eqn:E; cbn; [|done].
  constructor; [|done]. by rewrite (Hf _ _ E).
Qed.

Lemma finalize_indexed_increasing (d : gmap Z ToolCall) :
  StronglySorted Z.lt (map fst (OpenAI.finalize_indexed d)).
Proof.
  apply kept_keys_increasing; [|apply sorted_keys_increasing].
  intros i p. destruct (d !! i) as [tc|]; [|done].
  destruct (nonempty (tc_id tc)); [|done]. by intros [= <-].
Qed.

(** The streaming accumulator of the OpenAI adapter, on a stream in
    which every fragment that opens an index carries its function part, ends
    without an exception and its final list holds the records in strictly
    increasing order of their index; the record of an index is in the list
    exactly when some fragment of that index has a non-empty id; its id is the
    first non-empty id among the fragments of the index (a later one never
    replaces it), and its name and its arguments are the name and argument
    pieces of those fragments joined in arrival order. *)
Lemma accumulator_on_opened_streams (tcds : list OpenAI.ToolCallDelta) :
  opens_with_function [] tcds = true ->
  exists d,
    OpenAI.accumulate_all ∅ tcds = Ok d
    /\ OpenAI.finalize d = map snd (OpenAI.finalize_indexed d)
    /\ StronglySorted Z.lt (map fst (OpenAI.finalize_indexed d))
    /\ forall i tc,
         (i, tc) ∈ OpenAI.finalize_indexed d
         <-> first_id (fragments_at i tcds) <> EmptyString
             /\ tc = assembled (fragments_at i tcds).
Proof.
  intros Hopen.
  destruct (accumulate_all_succeeds tcds ∅ [] ) as [d Hd]; [|done|].
  { intros i. cbn. rewrite lookup_empty. split; [done | by intros [? ?]]. }
  exists d. split_and!; [done | done | apply finalize_indexed_increasing |].
  intros i tc. rewrite elem_of_finalize_indexed, (accumulated_dict _ _ Hd i).
  destruct (fragments_at i tcds) as [|t rest] eqn:E.
  - cbn. split; [by intros [? _] | by intros [? _]].
  - split.
    + intros [[= <-] Hid]. split; [|done].
      cbn in Hid. intros Heq. cbn in Heq. by rewrite Heq in Hid.
    + intros [Hid ->]. split; [done|]. cbn.
      destruct (first_id (t :: rest)) eqn:E'; [done | by cbn in *; rewrite E'].
Qed.

(** Indices 1, 0, 1, 0 give the record of index 0 before the record of
    index 1, each with its first id and its joined pieces. *)
Lemma interleaved_example :
  exc_bind (OpenAI.accumulate_all ∅ interleaved_fragments)
    (fun d => Ok (OpenAI.finalize d))
  = Ok [mkToolCall "call_a" "function" "add" "{}";
        mkToolCall "call_b" "function" "mul" "{'x': 2}"].
Proof. vm_compute. reflexivity. Qed.

Lemma accumulator_on_interleaved_fragments :
  exists d,
    OpenAI.accumulate_all ∅ interleaved_fragments = Ok d
    /\ OpenAI.finalize d = map snd (OpenAI.finalize_indexed d)
    /\ StronglySorted Z.lt (map fst (OpenAI.finalize_indexed d))
    /\ forall i tc,
         (i, tc) ∈ OpenAI.finalize_indexed d
         <-> first_id (fragments_at i interleaved_fragments) <> EmptyString
             /\ tc = assembled (fragments_at i interleaved_fragments).
Proof.
  apply (accumulator_on_opened_streams interleaved_fragments).
  vm_compute. reflexivity.
Qed.

(** C2, on the code: a first fragment of an index that carries an id and no
    function part makes the accumulator raise [AttributeError], since the
    branch that opens a record reads [function.name] without the test the
    branch for a known index makes; the call yields one error event, and no
    record for the id the fragment brought.  The same two fragments in the
    other order, where only the later one lacks its function part, give the
    record with that id. *)
Theorem C2_opening_fragment_without_function :
  OpenAI.accumulate_all ∅ bare_opening = Raise AttributeError
  /\ OpenAI.model_chat plain_tool_dumps plain_exn_str (fragment_stream bare_opening) []
     = [error_event plain_exn_str AttributeError]
  /\ exc_bind (OpenAI.accumulate_all ∅ bare_later) (fun d => Ok (OpenAI.finalize d))
     = Ok [mkToolCall "call_a" "function" "add" "{}"]
  /\ map gorType
       (OpenAI.model_chat plain_tool_dumps plain_exn_str (fragment_stream bare_later) [])
     = [gor_tool; gor_end].
Proof. split_and!; vm_compute; reflexivity. Qed.

(** * The base loop: failures of single tools *)

Ltac run_step :=
  cbv [bind ret yield_ append_message append_named append_tool_call get_messages
       interrupt_check call_model_chat execute_tool return_ throw diverge lift
       try_ yield_from Base.tool_except DeepSeek.tool_except Minimax.tool_except
       polled asked emitting appending executed recording];
  cbn [fst snd messages emitted polls model_calls executor_calls].

Section BaseTools.

Context {json : JsonModule}.
Variable env : Env.

Lemma base_for_tools_invalid am names tool rest w :
  env_interrupt_check env w = false ->
  parse_tool_arguments (ti_arguments tool) = Ok JNull ->
  Base.for_tools env am names (tool :: rest) w
  = Base.for_tools env am names rest
      (appending [tool_message (ti_id tool) (invalid_json_message (ti_arguments tool))]
         (emitting [ev_tool_result (ti_name tool) (ti_id tool)
                      (invalid_json_message (ti_arguments tool))]
            (polled w))).
Proof.
  intros Hi Hp. cbn [Base.for_tools]. run_step. rewrite Hi, Hp. reflexivity.
Qed.

Lemma base_for_tools_raises am names tool rest w args e :
  env_interrupt_check env w = false ->
  parse_tool_arguments (ti_arguments tool) = Ok args ->
  args <> JNull ->
  env_execute_tool env
    (emitting [ev_tool_execution (ti_name tool) (ti_id tool) args] (polled w))
    (ti_name tool) args = Raise e ->
  Base.for_tools env am names (tool :: rest) w
  = Base.for_tools env am (Some (ti_name tool, ti_id tool)) rest
      (appending [tool_message (ti_id tool) (tool_error_message (env_str env e))]
         (emitting [ev_tool_execution (ti_name tool) (ti_id tool) args;
                    ev_tool_result (ti_name tool) (ti_id tool)
                      (tool_error_message (env_str env e))]
            (executed (ti_name tool) args (polled w)))).
Proof.
  intros Hi Hp Hn He. cbn [Base.for_tools]. run_step. rewrite Hi, Hp.
  unfold emitting, polled in He. cbn in He.
  destruct args; try done; run_step; rewrite He; cbn; rewrite <- app_assoc; reflexivity.
Qed.

Lemma base_for_tools_ok am names tool rest w args result :
  env_interrupt_check env w = false ->
  parse_tool_arguments (ti_arguments tool) = Ok args ->
  args <> JNull ->
  env_execute_tool env
    (emitting [ev_tool_execution (ti_name tool) (ti_id tool) args] (polled w))
    (ti_name tool) args = Ok result ->
  Base.for_tools env am names (tool :: rest) w
  = Base.for_tools env am (Some (ti_name tool, ti_id tool)) rest
      (appending [tool_message (ti_id tool) result]
         (recording am
            (mkToolCall (ti_id tool) "function" (ti_name tool) (ti_arguments tool))
            (emitting [ev_tool_execution (ti_name tool) (ti_id tool) args;
                       ev_tool_result (ti_name tool) (ti_id tool) result]
               (executed (ti_name tool) args (polled w))))).
Proof.
  intros Hi Hp Hn He. cbn [Base.for_tools]. run_step. rewrite Hi, Hp.
  unfold emitting, polled in He. cbn in He.
  destruct args; try done; run_step; rewrite He; cbn; rewrite <- app_assoc; reflexivity.
Qed.

Lemma base_for_tools_interrupted am names tool rest w :
  env_interrupt_check env w = true ->
  Base.for_tools env am names (tool :: rest) w
  = (Returned, emitting [ev_interrupted interrupted_message] (polled w)).
Proof. intros Hi. cbn [Base.for_tools]. run_step. by rewrite Hi. Qed.

(** When the parser raises, the [except] clause of the loop reads
    [tool_name] and [tool_call_id], which the turn has not bound yet: it finds
    the values of an earlier turn and reports the failure under them. *)
Lemma base_for_tools_stale am tool_name tool_call_id tool rest w e :
  env_interrupt_check env w = false ->
  parse_tool_arguments (ti_arguments tool) = Raise e ->
  Base.for_tools env am (Some (tool_name, tool_call_id)) (tool :: rest) w
  = Base.for_tools env am (Some (tool_name, tool_call_id)) rest
      (appending [tool_message tool_call_id (tool_error_message (env_str env e))]
         (emitting [ev_tool_result tool_name tool_call_id
                      (tool_error_message (env_str env e))]
            (polled w))).
Proof. intros Hi Hp. cbn [Base.for_tools]. run_step. by rewrite Hi, Hp. Qed.

(** In the first turn there is no earlier value: the clause itself raises,
    and the loop is left with that exception. *)
Lemma base_for_tools_unbound am tool rest w e :
  env_interrupt_check env w = false ->
  parse_tool_arguments (ti_arguments tool) = Raise e ->
  Base.for_tools env am None (tool :: rest) w
  = (Thrown (UnboundLocalError "tool_name"), polled w).
Proof. intros Hi Hp. cbn [Base.for_tools]. run_step. by rewrite Hi, Hp. Qed.

(** Without an interrupt, one turn of the tool loop on a call the parser
    returns for is one of the three steps, and the loop goes on with the
    remaining tools. *)
Lemma base_for_tools_step am names tool rest w :
  env_interrupt_check env w = false ->
  parses tool ->
  exists names' w',
    Base.for_tools env am names (tool :: rest) w
    = Base.for_tools env am names' rest w'
    /\ base_tool_step env am tool w w'.
Proof.
  intros Hi [args Hp].
  assert (args = JNull \/ args <> JNull) as [->|Hn]
    by (destruct args; (by left) || (by right)).
  { eexists _, _. split; [by apply base_for_tools_invalid|]. left. done. }
  destruct (env_execute_tool env
              (emitting [ev_tool_execution (ti_name tool) (ti_id tool) args] (polled w))
              (ti_name tool) args) as [result|e] eqn:He.
  - eexists _, _. split; [by eapply base_for_tools_ok|].
    right; left. by exists args, result.
  - eexists _, _. split; [by eapply base_for_tools_raises|].
    right; right. by exists args, e.
Qed.

(** The tool loop lets no exception out when the parser returns for every
    call. *)
Lemma base_for_tools_no_exception am tools : forall names w,
  Forall parses tools ->
  no_exception (fst (Base.for_tools env am names tools w)).
Proof.
  induction tools as [|tool rest IH]; intros names w Hall; [done|].
  apply Forall_cons in Hall as [Hp Hall].
  destruct (env_interrupt_check env w) eqn:Hi.
  - by rewrite base_for_tools_interrupted.
  - destruct (base_for_tools_step am names tool rest w Hi Hp) as (names' & w' & -> & _).
    by apply IH.
Qed.

Lemma base_execute_tools_goes_on tools w :
  Forall parses tools ->
  fst (yield_from (Base._execute_tools_in_loop env tools) w) = Val tt.
Proof.
  intros Hall. unfold Base._execute_tools_in_loop. run_step.
  match goal with |- context [Base.for_tools env ?am ?n tools ?w0] =>
    pose proof (base_for_tools_no_exception am tools n w0 Hall) as Hne;
    destruct (Base.for_tools env am n tools w0) as [[[]| | |] w1]
  end; done.
Qed.

End BaseTools.

(** * Reading the response of a round *)

Section Consume.

Context {json : JsonModule}.
Variable env : Env.

(** Reading the items changes neither the history nor the executor's log. *)
Lemma consume_response_frame response : forall v w,
  messages (snd (consume_response env response v w)) = messages w
  /\ executor_calls (snd (consume_response env response v w)) = executor_calls w
  /\ model_calls (snd (consume_response env response v w)) = model_calls w.
Proof.
  induction response as [|item rest IH]; intros v w; [done|].
  cbn [consume_response]. run_step.
  destruct (env_interrupt_check env w); [done|].
  destruct (gorType item); cbn.
  - match goal with |- context [consume_response env rest ?v' ?w'] =>
      destruct (IH v' w') as (-> & -> & ->) end. done.
  - match goal with |- context [consume_response env rest ?v' ?w'] =>
      destruct (IH v' w') as (-> & -> & ->) end. done.
  - destruct (decode_tool_call (msg_content item)); cbn; [|done].
    match goal with |- context [consume_response env rest ?v' ?w'] =>
      destruct (IH v' w') as (-> & -> & ->) end. done.
  - match goal with |- context [consume_response env rest ?v' ?w'] =>
      destruct (IH v' w') as (-> & -> & ->) end. done.
  - done.
Qed.

(** A response read to its end: every thinking and answer item has been
    yielded, in order, and the two texts have been gathered. *)
Lemma consume_response_val response : forall v w v' w',
  consume_response env response v w = (Val v', w') ->
  emitted w' = emitted w ++ flat_map out_of_item response
  /\ answer_content v' = answer_content v +:+ answer_text response
  /\ lv_reasoning_content v' = lv_reasoning_content v +:+ thinking_text response
  /\ is_first_round v' = is_first_round v
  /\ polls w' = polls w + length response.
Proof.
  induction response as [|item rest IH]; intros v w v' w'.
  - intros [= <- <-]. cbn. rewrite app_nil_r, !append_empty_r. split_and!; [done..|lia].
  - cbn [consume_response]. run_step.
    destruct (env_interrupt_check env w); [done|].
    unfold out_of_item at 1. cbn [flat_map answer_text thinking_text].
    destruct (gorType item); cbn.
    + intros H. apply IH in H as (-> & -> & -> & -> & ->). cbn.
      rewrite <- !app_assoc, append_assoc. split_and!; [done..|lia].
    + intros H. apply IH in H as (-> & -> & -> & -> & ->). cbn.
      rewrite <- !app_assoc, append_assoc. split_and!; [done..|lia].
    + destruct (decode_tool_call (msg_content item)); cbn; [|done].
      intros H. apply IH in H as (-> & -> & -> & -> & ->). cbn.
      split_and!; [done..|lia].
    + intros H. apply IH in H as (-> & -> & -> & -> & ->). cbn.
      split_and!; [done..|lia].
    + done.
Qed.

End Consume.

Lemma result_ids_app (a b : list OutEvent) :
  result_ids (a ++ b) = result_ids a ++ result_ids b.
Proof.
  induction a as [|ev a IH]; [done|].
  destruct ev; cbn; by rewrite ?IH.
Qed.

Section BaseToolsInOrder.

Context {json : JsonModule}.
Variable env : Env.
Hypothesis never_interrupted : forall w, env_interrupt_check env w = false.

Lemma base_tool_step_result_ids am tool w w' :
  base_tool_step env am tool w w' ->
  result_ids (emitted w') = result_ids (emitted w) ++ [ti_id tool]
  /\ polls w' = S (polls w).
Proof.
  intros [[_ ->]|[(args & result & _ & _ & _ & ->)|(args & e & _ & _ & _ & ->)]];
    run_step; by rewrite result_ids_app.
Qed.

(** Without an interrupt every tool of a round in which the parser returns
    for every call gets its turn, in the order of the list, and each turn
    yields one [tool_result]. *)
Lemma base_for_tools_all am tools : forall names w,
  Forall parses tools ->
  exists w',
    Base.for_tools env am names tools w = (Val tt, w')
    /\ result_ids (emitted w') = result_ids (emitted w) ++ map ti_id tools
    /\ polls w' = polls w + length tools.
Proof.
  induction tools as [|tool rest IH]; intros names w Hall.
  - exists w. cbn. rewrite app_nil_r. split_and!; [done..|lia].
  - apply Forall_cons in Hall as [Hp Hall].
    destruct (base_for_tools_step env am names tool rest w (never_interrupted w) Hp)
      as (names' & w1 & -> & Hstep).
    apply base_tool_step_result_ids in Hstep as [Hids Hpolls].
    destruct (IH names' w1 Hall) as (w' & -> & Hids' & Hpolls').
    exists w'. rewrite Hids', Hids, Hpolls', Hpolls, <- app_assoc. cbn.
    split_and!; [done..|lia].
Qed.

End BaseToolsInOrder.

(** In the tool loop of the base orchestrator, a tool whose arguments
    parse to [None] gets a [tool_result] event with the text of the parse
    error and a tool message with that text in the history, and the executor
    is not called for it; a tool whose execution raises gets a [tool_result]
    event and a tool message whose text is the error prefix followed by [str]
    of the exception; after either, the loop goes on with the remaining tools
    of the round as after a success.  When the parser returns for every call
    of a round the loop lets no exception out, and without an interrupt every
    tool gets its result, in the order of the list. *)
Lemma base_tool_failures_when_parsed {json : JsonModule} (env : Env) (am : nat)
    (names : option (string * string)) (tool : ToolInfo) (rest : list ToolInfo)
    (w : World) :
  env_interrupt_check env w = false ->
  (parse_tool_arguments (ti_arguments tool) = Ok JNull ->
   exists w',
     Base.for_tools env am names (tool :: rest) w
     = Base.for_tools env am names rest w'
     /\ emitted w' = emitted w ++ [ev_tool_result (ti_name tool) (ti_id tool)
                                     (invalid_json_message (ti_arguments tool))]
     /\ messages w' = messages w ++ [tool_message (ti_id tool)
                                       (invalid_json_message (ti_arguments tool))]
     /\ executor_calls w' = executor_calls w)
  /\ (forall args e,
        parse_tool_arguments (ti_arguments tool) = Ok args ->
        args <> JNull ->
        env_execute_tool env
          (emitting [ev_tool_execution (ti_name tool) (ti_id tool) args] (polled w))
          (ti_name tool) args = Raise e ->
        exists w',
          Base.for_tools env am names (tool :: rest) w
          = Base.for_tools env am (Some (ti_name tool, ti_id tool)) rest w'
          /\ emitted w' = emitted w ++ [ev_tool_execution (ti_name tool) (ti_id tool) args;
                                        ev_tool_result (ti_name tool) (ti_id tool)
                                          (tool_error_message (env_str env e))]
          /\ messages w' = messages w ++ [tool_message (ti_id tool)
                                            (tool_error_message (env_str env e))]
          /\ executor_calls w' = executor_calls w ++ [(ti_name tool, args)])
  /\ (forall tools names' w0,
        Forall parses tools ->
        no_exception (fst (Base.for_tools env am names' tools w0)))
  /\ (forall tools w0,
        Forall parses tools ->
        fst (yield_from (Base._execute_tools_in_loop env tools) w0) = Val tt)
  /\ ((forall w0, env_interrupt_check env w0 = false) ->
      forall tools names' w0,
        Forall parses tools ->
        exists w',
          Base.for_tools env am names' tools w0 = (Val tt, w')
          /\ result_ids (emitted w') = result_ids (emitted w0) ++ map ti_id tools).
Proof.
  intros Hi. split_and!.
  - intros Hp. eexists. split; [by apply base_for_tools_invalid|]. done.
  - intros args e Hp Hn He. eexists. split; [by eapply base_for_tools_raises|].
    done.
  - intros tools names' w0. apply base_for_tools_no_exception.
  - intros tools w0. apply base_execute_tools_goes_on.
  - intros Hnever tools names' w0 Hall.
    destruct (base_for_tools_all env Hnever am tools names' w0 Hall) as (w' & ? & ? & _).
    by exists w'.
Qed.

(** The sibling of a tool whose arguments parse to [None] is processed:
    the second tool of the example is executed, fails in the executor, and
    gets its own result. *)
Lemma siblings_example :
  emitted (snd (Base.for_tools failing_env 0 None [bad_tool; good_tool] (start [])))
  = [ev_tool_result "add" "c1" (invalid_json_message "{bad");
     ev_tool_execution "add" "c2" (JObj []);
     ev_tool_result "add" "c2" (tool_error_message "boom")].
Proof. vm_compute. reflexivity. Qed.

(** C4, on the code: the parser is called inside the [try] of the tool
    loop, before [tool_name] and [tool_call_id] are bound for the turn, and it
    raises on an integer literal of 4301 digits.  When the call with such
    arguments is the first of the round, the [except] clause raises
    [UnboundLocalError]: the call gets no [tool_result] and no tool message,
    its sibling is never processed and the executor never called, and the run
    ends with an [error] event after one model call.  When a good call
    precedes it, the failure is reported under the name and id of that call:
    the round yields two results for the first id and none for the second,
    and the history holds two tool messages for the first id. *)
Theorem C4_parser_exception_is_not_isolated :
  (let w := snd (Base.chatToNextLoop long_first_env 5 (start user_asks)) in
   emitted w
   = [ev_tool_calls [mkToolInfo "c2" "add" long_integer; mkToolInfo "c3" "add" "{}"];
      ev_error
        (response_error_message
           "cannot access local variable 'tool_name' where it is not associated with a value")]
   /\ result_ids (emitted w) = []
   /\ answered_ids (messages w) = []
   /\ executor_calls w = []
   /\ model_calls w = 1)
  /\ (let w := snd (Base.chatToNextLoop long_second_env 5 (start user_asks)) in
      result_ids (emitted w) = ["c1"; "c1"]
      /\ answered_ids (messages w) = ["c1"; "c1"]
      /\ executor_calls w = [("add", JObj [])]).
Proof. split; vm_compute; split_and!; reflexivity. Qed.

(** * The base loop: what a round with tool calls writes *)

Section BaseHistory.

Context {json : JsonModule}.
Variable env : Env.

Lemma base_tool_step_history am tool w w' before :
  length before = am ->
  base_tool_step env am tool w w' ->
  tool_round_history before (messages w) ->
  tool_round_history before (messages w').
Proof.
  intros Hlen Hstep (m & tail & Hm & Hrole & Hcontent & Htail).
  destruct Hstep as [[_ ->]|[(args & result & _ & _ & _ & ->)|(args & e & _ & _ & _ & ->)]];
    run_step; rewrite Hm.
  - exists m, (tail ++ [tool_message (ti_id tool) (invalid_json_message (ti_arguments tool))]).
    rewrite <- app_assoc. split_and!; [done..|].
    apply Forall_app. split; [done | by repeat constructor].
  - replace am with (length before + 0) by lia.
    rewrite alter_app_r. cbn [alter list_alter].
    eexists _, (tail ++ [tool_message (ti_id tool) result]).
    rewrite <- app_assoc. split_and!; [reflexivity | done | done |].
    apply Forall_app. split; [done | by repeat constructor].
  - exists m, (tail ++ [tool_message (ti_id tool) (tool_error_message (env_str env e))]).
    rewrite <- app_assoc. split_and!; [done..|].
    apply Forall_app. split; [done | by repeat constructor].
Qed.

Lemma base_for_tools_history am tools before : forall names w,
  length before = am ->
  tool_round_history before (messages w) ->
  tool_round_history before (messages (snd (Base.for_tools env am names tools w))).
Proof.
  induction tools as [|tool rest IH]; intros names w Hlen Hw; [done|].
  destruct (env_interrupt_check env w) eqn:Hi.
  { by rewrite base_for_tools_interrupted. }
  destruct (parse_tool_arguments (ti_arguments tool)) as [args|e] eqn:Hp.
  - destruct (base_for_tools_step env am names tool rest w Hi (ex_intro _ args Hp))
      as (names' & w' & -> & Hstep).
    apply IH; [done|]. by eapply base_tool_step_history.
  - destruct names as [[tool_name tool_call_id]|].
    + rewrite (base_for_tools_stale env am tool_name tool_call_id tool rest w e Hi Hp).
      apply IH; [done|]. destruct Hw as (m & tail & Hm & Hrole & Hcontent & Htail).
      run_step. rewrite Hm.
      exists m, (tail ++ [tool_message tool_call_id (tool_error_message (env_str env e))]).
      rewrite <- app_assoc. split_and!; [done..|].
      apply Forall_app. split; [done | by repeat constructor].
    + by rewrite (base_for_tools_unbound env am tool rest w e Hi Hp).
Qed.

(** What [_execute_tools_in_loop] leaves in the history, whatever the tools
    do, whenever it is interrupted and however it is left. *)
Lemma base_execute_tools_history tools w :
  tool_round_history (messages w)
    (messages (snd (Base._execute_tools_in_loop env tools w))).
Proof.
  unfold Base._execute_tools_in_loop. run_step.
  apply base_for_tools_history; [done|]. cbn.
  eexists _, []. split_and!; [reflexivity | done | done | constructor].
Qed.

Lemma base_round_no_tools w v w1 :
  consume_response env (env_model_chat env w) round_vars (asked w) = (Val v, w1) ->
  tool_info v = [] ->
  Base.round env w
  = (Val v,
     if nonempty (answer_content v)
     then appending [plain_message "assistant" (CStr (answer_content v))] w1
     else w1).
Proof.
  intros Hc Ht. unfold Base.round. run_step. unfold asked in Hc.
  rewrite Hc, Ht. cbn. by destruct (nonempty (answer_content v)).
Qed.

Lemma base_round_interrupted w v w1 :
  consume_response env (env_model_chat env w) round_vars (asked w) = (Val v, w1) ->
  tool_info v <> [] ->
  env_interrupt_check env w1 = true ->
  Base.round env w = (Returned, emitting [ev_interrupted interrupted_message] (polled w1)).
Proof.
  intros Hc Ht Hi. unfold Base.round. run_step. unfold asked in Hc.
  rewrite Hc. destruct (tool_info v); [done|]. cbn. by rewrite Hi.
Qed.

(** A round with tool calls that passes the poll before the tool loop
    leaves the world the tool loop leaves, however that loop stops. *)
Lemma base_round_tools_world w v w1 :
  consume_response env (env_model_chat env w) round_vars (asked w) = (Val v, w1) ->
  tool_info v <> [] ->
  env_interrupt_check env w1 = false ->
  snd (Base.round env w) = snd (Base._execute_tools_in_loop env (tool_info v) (polled w1)).
Proof.
  intros Hc Ht Hi. unfold Base.round.
  assert (negb (is_nil (tool_info v)) = true) as Hnn
    by (destruct (tool_info v); done).
  run_step. unfold asked in Hc. rewrite Hc, Hnn, Hi. unfold polled.
  destruct (Base._execute_tools_in_loop env (tool_info v) _) as [[[]| | |] w2]; done.
Qed.

Lemma base_round_tools w v w1 :
  consume_response env (env_model_chat env w) round_vars (asked w) = (Val v, w1) ->
  tool_info v <> [] ->
  env_interrupt_check env w1 = false ->
  Forall parses (tool_info v) ->
  Base.round env w
  = (Val v, snd (Base._execute_tools_in_loop env (tool_info v) (polled w1))).
Proof.
  intros Hc Ht Hi Hall. unfold Base.round.
  pose proof (base_execute_tools_goes_on env (tool_info v) (polled w1) Hall) as Hgo.
  assert (negb (is_nil (tool_info v)) = true) as Hnn
    by (destruct (tool_info v); done).
  unfold yield_from, polled in Hgo. run_step. unfold asked in Hc.
  rewrite Hc, Hnn, Hi.
  destruct (Base._execute_tools_in_loop env (tool_info v) _) as [[[]| | |] w2]; done.
Qed.

End BaseHistory.

(** C10: in a round of the base loop that has tool calls, the answer items
    are yielded as [answer] events, and what the round appends to the history
    is nothing when the round is interrupted before the tools, and otherwise
    one assistant message whose content is the empty string followed by tool
    messages only: the answer text of the round is not written. *)
Theorem C10_tool_round_drops_answer {json : JsonModule} (env : Env) (w : World)
    (v : LoopVars) (w1 : World) :
  consume_response env (env_model_chat env w) round_vars (asked w) = (Val v, w1) ->
  tool_info v <> [] ->
  emitted w1 = emitted w ++ flat_map out_of_item (env_model_chat env w)
  /\ answer_content v = answer_text (env_model_chat env w)
  /\ (env_interrupt_check env w1 = true ->
      messages (snd (Base.round env w)) = messages w)
  /\ (env_interrupt_check env w1 = false ->
      tool_round_history (messages w) (messages (snd (Base.round env w))))
  /\ (forall tools w0,
        tool_round_history (messages w0)
          (messages (snd (Base._execute_tools_in_loop env tools w0)))).
Proof.
  intros Hc Ht.
  pose proof (consume_response_val env _ _ _ _ _ Hc) as (He & Ha & _).
  pose proof (consume_response_frame env (env_model_chat env w) round_vars (asked w))
    as (Hm & _).
  rewrite Hc in Hm. cbn in Hm.
  split_and!.
  - exact He.
  - exact Ha.
  - intros Hi. rewrite (base_round_interrupted env w v w1 Hc Ht Hi). exact Hm.
  - intros Hi. rewrite (base_round_tools_world env w v w1 Hc Ht Hi).
    rewrite <- Hm. apply (base_execute_tools_history env (tool_info v) (polled w1)).
  - intros tools w0. apply base_execute_tools_history.
Qed.

(** * The base loop: interrupts inside the tool loop *)

(** A round with tool calls that passes the poll before the tool loop ends
    by falling through, also when the tool loop has been interrupted: the
    [return] of the tool loop does not end the round, and [while] goes on. *)
Lemma base_round_after_tool_loop_goes_on {json : JsonModule} (env : Env) (w : World)
    (v : LoopVars) (w1 : World) (fuel : nat) :
  consume_response env (env_model_chat env w) round_vars (asked w) = (Val v, w1) ->
  tool_info v <> [] ->
  env_interrupt_check env w1 = false ->
  Forall parses (tool_info v) ->
  Base.while_loop env (S fuel) initial_vars w
  = Base.while_loop env fuel v (snd (Base.round env w)).
Proof.
  intros Hc Ht Hi Hall. cbn [Base.while_loop initial_vars is_first_round orb].
  unfold bind. by rewrite (base_round_tools env w v w1 Hc Ht Hi Hall).
Qed.

(** An interrupt or an error item while the response is read ends the run
    at once, with the one event the reading has yielded for it. *)
Lemma base_stops_while_reading {json : JsonModule} (env : Env) (w w1 : World)
    (fuel : nat) :
  consume_response env (env_model_chat env w) round_vars (asked w) = (Returned, w1) ->
  Base.chatToNextLoop env (S fuel) w = (Returned, w1).
Proof.
  intros Hc. unfold Base.chatToNextLoop, try_, bind at 1.
  cbn [Base.while_loop initial_vars is_first_round orb].
  unfold bind at 1, Base.round, bind at 1, call_model_chat. unfold asked in Hc.
  unfold bind at 1. by rewrite Hc.
Qed.

(** C5, on the code: with a flag that goes up while the first tool call is
    pending and stays up, the loop yields [interrupted], starts another round
    with another model call, and yields [interrupted] a second time; with a
    flag that is up for that one poll only, the loop carries on after
    [interrupted] and ends with [answer] and [end]. *)
Theorem C5_interrupt_in_tool_loop_goes_on :
  (let w := snd (Base.chatToNextLoop sticky_interrupt_env 5 (start user_asks)) in
   emitted w = [ev_tool_calls [mkToolInfo "c1" "add" "{}"];
                ev_interrupted interrupted_message;
                ev_interrupted interrupted_message]
   /\ count_interrupted (emitted w) = 2
   /\ model_calls w = 2)
  /\ (let w := snd (Base.chatToNextLoop oneshot_interrupt_env 5 (start user_asks)) in
      emitted w = [ev_tool_calls [mkToolInfo "c1" "add" "{}"];
                   ev_interrupted interrupted_message;
                   ev_answer "3";
                   ev_end]).
Proof. vm_compute. split_and!; reflexivity. Qed.

(** * The base loop: tool messages and the assistant message of their round *)

(** C8, on the code: after a round whose tool has arguments that do not
    parse, and after a round whose tool fails in the executor, the history
    holds a tool message for the call while the assistant message of the round
    lists no tool call at all. *)
Theorem C8_tool_message_without_listed_call :
  (let added := drop 1 (messages (snd (Base.round malformed_env (start user_asks)))) in
   added = [mkMessage "assistant" (CStr EmptyString) (Some []) None None;
            tool_message "c1" (invalid_json_message "{bad")]
   /\ answered_ids added = ["c1"]
   /\ (forall m, added !! 0 = Some m -> listed_ids m = []))
  /\ (let added := drop 1 (messages (snd (Base.round executor_fails_env (start user_asks)))) in
      added = [mkMessage "assistant" (CStr EmptyString) (Some []) None None;
               tool_message "c1" (tool_error_message "boom")]
      /\ answered_ids added = ["c1"]
      /\ (forall m, added !! 0 = Some m -> listed_ids m = [])).
Proof.
  split; vm_compute; (split_and!; [reflexivity | reflexivity | by intros m [= <-]]).
Qed.

(** * The base loop: the answer of a round without tool calls *)

Lemma last_is_answer_appended (msgs : list Message) (a : string) :
  last_is_answer (msgs ++ [plain_message "assistant" (CStr a)]) a = true.
Proof.
  unfold last_is_answer. rewrite last_snoc. cbn. by rewrite String.eqb_refl.
Qed.

(** C9 as it is stated fails: on a history that already ends with the
    assistant answer 3, a run in which the model answers 3 again appends a
    second copy. *)
Lemma C9_counterexample :
  messages (snd (Base.chatToNextLoop answering_env 5 (start answered_history)))
  = answered_history ++ [plain_message "assistant" (CStr "3")]
  /\ messages (snd (Base.chatToNextLoop answering_env 5 (start answered_history)))
     <> answered_history.
Proof. vm_compute. split; [reflexivity | discriminate]. Qed.

(** C9, amended: a round of the base loop without tool calls and with a
    non-empty answer appends the assistant message of the answer, whatever the
    history ends with; the guard after the loop then finds that message at the
    end of the history and appends nothing.  So a run whose first round is such
    a round adds exactly one copy of the answer to the history it was given. *)
Theorem C9_answer_appended_once {json : JsonModule} (env : Env) (w : World)
    (v : LoopVars) (w1 : World) :
  consume_response env (env_model_chat env w) round_vars (asked w) = (Val v, w1) ->
  tool_info v = [] ->
  nonempty (answer_content v) = true ->
  let answer := plain_message "assistant" (CStr (answer_content v)) in
  Base.round env w = (Val v, appending [answer] w1)
  /\ messages (appending [answer] w1) = messages w ++ [answer]
  /\ Base.after_loop v (appending [answer] w1)
     = (Val tt, emitting [ev_end] (appending [answer] w1))
  /\ (forall fuel,
        Base.chatToNextLoop env (S fuel) w
        = (Val tt, emitting [ev_end] (appending [answer] w1))).
Proof.
  intros Hc Ht Ha answer.
  pose proof (consume_response_frame env (env_model_chat env w) round_vars (asked w))
    as (Hm & _).
  rewrite Hc in Hm. cbn in Hm.
  pose proof (consume_response_val env _ _ _ _ _ Hc) as (_ & _ & _ & Hfirst & _).
  assert (Base.round env w = (Val v, appending [answer] w1)) as Hround.
  { rewrite (base_round_no_tools env w v w1 Hc Ht), Ha. done. }
  assert (Base.after_loop v (appending [answer] w1)
          = (Val tt, emitting [ev_end] (appending [answer] w1))) as Hafter.
  { unfold Base.after_loop. run_step. rewrite Ht, Ha. cbn.
    subst answer. by rewrite last_is_answer_appended. }
  split_and!; [done | by cbn; rewrite Hm | done |].
  intros fuel. unfold Base.chatToNextLoop, try_, bind at 1.
  cbn [Base.while_loop initial_vars is_first_round orb]. unfold bind at 1.
  rewrite Hround.
  assert (Base.while_loop env fuel v (appending [answer] w1)
          = (Val v, appending [answer] w1)) as ->.
  { destruct fuel; cbn [Base.while_loop]; rewrite Hfirst, Ht; done. }
  by rewrite Hafter.
Qed.

(** * The reasoning-exclusion loop *)

Section DeepSeekHistory.

Context {json : JsonModule}.
Variable env : Env.

(** The tool loop appends tool messages only, however it is left. *)
Lemma deepseek_for_tools_history tools : forall names w,
  exists tail,
    messages (snd (DeepSeek.for_tools env names tools w)) = messages w ++ tail
    /\ Forall (fun m => role m = "tool") tail.
Proof.
  induction tools as [|tool rest IH]; intros names w.
  - exists []. cbn. by rewrite app_nil_r.
  - cbn [DeepSeek.for_tools]. run_step.
    destruct (env_interrupt_check env w).
    { exists []. cbn. by rewrite app_nil_r. }
    destruct (parse_tool_arguments (ti_arguments tool)) as [args|e].
    + destruct args; run_step;
        try (destruct (env_execute_tool env _ _ _); run_step);
        match goal with
        | |- context [DeepSeek.for_tools env ?n rest ?w'] =>
            destruct (IH n w') as (tail & -> & Hall)
        end;
        cbn; eexists (_ :: tail); rewrite <- app_assoc;
        (split; [reflexivity | by constructor]).
    + destruct names as [[tool_name tool_call_id]|]; run_step.
      * match goal with
        | |- context [DeepSeek.for_tools env ?n rest ?w'] =>
            destruct (IH n w') as (tail & -> & Hall)
        end.
        cbn. eexists (_ :: tail). rewrite <- app_assoc.
        split; [reflexivity | by constructor].
      * exists []. cbn. by rewrite app_nil_r.
Qed.

Lemma deepseek_for_tools_no_exception tools : forall names w,
  Forall parses tools ->
  no_exception (fst (DeepSeek.for_tools env names tools w)).
Proof.
  induction tools as [|tool rest IH]; intros names w Hall; [done|].
  apply Forall_cons in Hall as [[args Hp] Hall].
  cbn [DeepSeek.for_tools]. run_step.
  destruct (env_interrupt_check env w); [done|].
  rewrite Hp.
  destruct args; run_step;
    try (destruct (env_execute_tool env _ _ _); run_step);
    by apply IH.
Qed.

Lemma deepseek_round_no_tools w v w1 :
  consume_response env (env_model_chat env w) round_vars (asked w) = (Val v, w1) ->
  tool_info v = [] ->
  DeepSeek.round env w
  = (Val v,
     if nonempty (answer_content v)
     then appending [plain_message "assistant" (CStr (answer_content v))] w1
     else w1).
Proof.
  intros Hc Ht. unfold DeepSeek.round. run_step. unfold asked in Hc.
  rewrite Hc, Ht. cbn. by destruct (nonempty (answer_content v)).
Qed.

Lemma deepseek_round_tools w v w1 :
  consume_response env (env_model_chat env w) round_vars (asked w) = (Val v, w1) ->
  tool_info v <> [] ->
  env_interrupt_check env w1 = false ->
  exists tail,
    messages (snd (DeepSeek.round env w))
    = messages w
      ++ DeepSeek.assistant_message (tool_info v) (answer_content v)
           (lv_reasoning_content v) :: tail
    /\ Forall (fun m => role m = "tool") tail.
Proof.
  intros Hc Ht Hi.
  pose proof (consume_response_frame env (env_model_chat env w) round_vars (asked w))
    as (Hm & _).
  rewrite Hc in Hm. cbn in Hm.
  assert (negb (is_nil (tool_info v)) = true) as Hnn
    by (destruct (tool_info v); done).
  unfold DeepSeek.round, DeepSeek._execute_tools_in_loop_deepseek.
  run_step. unfold asked in Hc. rewrite Hc, Hnn, Hi.
  match goal with
  | |- context [DeepSeek.for_tools env ?n ?ts ?w'] =>
      destruct (deepseek_for_tools_history ts n w') as (tail & Htail & Hall);
      destruct (DeepSeek.for_tools env n ts w') as [[[]| | |] w2]
  end; cbn in Htail |- *; exists tail;
    rewrite Htail, Hm, <- app_assoc; done.
Qed.

End DeepSeekHistory.

(** C6: in the DeepSeek loop, a round without tool calls appends, when the
    answer text is not empty, one assistant message that has the answer text
    as its content and no other field, so no [reasoning_content]; the answer
    text is the text of the answer items alone.  A round with tool calls that
    is not interrupted before the tools appends an assistant message that has
    a [reasoning_content] field holding the thinking text of the round, also
    when that text is empty, followed by tool messages. *)
Theorem C6_deepseek_reasoning_policy {json : JsonModule} (env : Env) (w : World)
    (v : LoopVars) (w1 : World) :
  consume_response env (env_model_chat env w) round_vars (asked w) = (Val v, w1) ->
  (tool_info v = [] ->
   messages (snd (DeepSeek.round env w))
   = messages w
     ++ (if nonempty (answer_content v)
         then [mkMessage "assistant" (CStr (answer_content v)) None None None]
         else [])
   /\ answer_content v = answer_text (env_model_chat env w))
  /\ (tool_info v <> [] ->
      env_interrupt_check env w1 = false ->
      exists m tail,
        messages (snd (DeepSeek.round env w)) = messages w ++ m :: tail
        /\ role m = "assistant"
        /\ reasoning_content m = Some (lv_reasoning_content v)
        /\ lv_reasoning_content v = thinking_text (env_model_chat env w)
        /\ Forall (fun x => role x = "tool") tail).
Proof.
  intros Hc.
  pose proof (consume_response_frame env (env_model_chat env w) round_vars (asked w))
    as (Hm & _).
  rewrite Hc in Hm. cbn in Hm.
  pose proof (consume_response_val env _ _ _ _ _ Hc) as (_ & Ha & Hr & _).
  split.
  - intros Ht. rewrite (deepseek_round_no_tools env w v w1 Hc Ht). cbn [snd].
    split; [|exact Ha].
    destruct (nonempty (answer_content v)); cbn.
    + by rewrite Hm.
    + by rewrite app_nil_r.
  - intros Ht Hi.
    destruct (deepseek_round_tools env w v w1 Hc Ht Hi) as (tail & Heq & Hall).
    eexists _, tail. split_and!; [exact Heq | done | done | exact Hr | done].
Qed.

(** * The full-block-replay loop *)

Section MinimaxHistory.

Context {json : JsonModule}.
Variable env : Env.

Lemma minimax_consume_frame response : forall v w,
  messages (snd (Minimax.consume_response env response v w)) = messages w.
Proof.
  induction response as [|item rest IH]; intros v w; [done|].
  cbn [Minimax.consume_response]. run_step.
  destruct (env_interrupt_check env w); [done|].
  destruct (gorType item); cbn; rewrite ?IH; try done.
  destruct (loads (msg_content item)) as [tool_call|]; cbn; [|done].
  destruct (exc_bind (py_getitem tool_call "function") _); cbn; [|done].
  by rewrite IH.
Qed.

Lemma minimax_consume_val response : forall v w v' w',
  Minimax.consume_response env response v w = (Val v', w') ->
  Minimax.thinking_content v' = Minimax.thinking_content v +:+ thinking_text response
  /\ Minimax.mm_answer_content v'
     = Minimax.mm_answer_content v +:+ answer_text response.
Proof.
  induction response as [|item rest IH]; intros v w v' w'.
  - intros [= <- <-]. cbn. by rewrite !append_empty_r.
  - cbn [Minimax.consume_response]. run_step.
    destruct (env_interrupt_check env w); [done|].
    cbn [answer_text thinking_text].
    destruct (gorType item); cbn.
    + intros H. apply IH in H as (-> & ->). cbn. by rewrite append_assoc.
    + intros H. apply IH in H as (-> & ->). cbn. by rewrite append_assoc.
    + destruct (loads (msg_content item)) as [tool_call|]; cbn; [|done].
      destruct (exc_bind (py_getitem tool_call "function") _); cbn; [|done].
      intros H. by apply IH in H as (-> & ->).
    + intros H. by apply IH in H as (-> & ->).
    + done.
Qed.

(** The blocks built for the calls of a round, call by call. *)
Lemma tool_use_content_blocks blocks : forall tools,
  Minimax.tool_use_content blocks = Ok tools ->
  Forall2 (fun block tp => Minimax.tool_fields block = Ok (fst tp)) blocks tools
  /\ Forall (fun tp => tool_use_of (fst tp) (snd tp)) tools.
Proof.
  induction blocks as [|block rest IH]; intros tools; cbn.
  - intros [= <-]. split; constructor.
  - destruct (Minimax.tool_fields block) as [tool|] eqn:Ef; cbn; [|done].
    destruct (loads (ti_arguments tool)) as [input|] eqn:El; cbn; [|done].
    destruct (Minimax.tool_use_content rest) as [bs|] eqn:Er; cbn; [|done].
    intros [= <-]. destruct (IH bs) as [H1 H2]; [done|].
    split; constructor; try done. unfold tool_use_of. cbn. eauto.
Qed.

Hypothesis never_interrupted : forall w, env_interrupt_check env w = false.

(** Without an interrupt the tool loop gathers one result block for each
    call the parser returns for, in order, and leaves the history alone. *)
Lemma minimax_for_tools_all tools : forall names results w,
  Forall parses tools ->
  exists w' added,
    Minimax.for_tools env names results tools w = (Val (results ++ added), w')
    /\ messages w' = messages w
    /\ Forall2 tool_result_of tools added.
Proof.
  induction tools as [|tool rest IH]; intros names results w Hparse.
  - exists w, []. rewrite app_nil_r. split_and!; [done | done | constructor].
  - apply Forall_cons in Hparse as [[args Hp] Hparse].
    cbn [Minimax.for_tools]. run_step. rewrite never_interrupted, Hp.
    destruct args; run_step;
      try (destruct (env_execute_tool env _ _ _); run_step);
      match goal with
      | |- context [Minimax.for_tools env ?n (results ++ [?b]) rest ?w0] =>
          destruct (IH n (results ++ [b]) w0 Hparse) as (w' & added & -> & Hm & Hall);
          exists w', (b :: added)
      end;
      rewrite <- app_assoc; cbn in Hm |- *;
      (split_and!; [done | done | constructor; [by eexists | done]]).
Qed.

Lemma minimax_round_tools w v w1 tools :
  Minimax.consume_response env (env_model_chat env w)
    (Minimax.mkVars EmptyString EmptyString []) (asked w) = (Val v, w1) ->
  Minimax.tool_use_blocks v <> [] ->
  Minimax.tool_use_content (Minimax.tool_use_blocks v) = Ok tools ->
  exists w2 results,
    Minimax.round env w = (Val true, w2)
    /\ messages w2
       = messages w
         ++ [plain_message "assistant"
               (CBlocks (Minimax.text_blocks v ++ map snd tools));
             plain_message "user" (CBlocks results)]
    /\ Forall2 tool_result_of (map fst tools) results.
Proof.
  intros Hc Ht Hu.
  pose proof (minimax_consume_frame (env_model_chat env w)
                (Minimax.mkVars EmptyString EmptyString []) (asked w)) as Hm.
  rewrite Hc in Hm. cbn in Hm.
  assert (negb (is_nil (Minimax.tool_use_blocks v)) = true) as Hnn
    by (destruct (Minimax.tool_use_blocks v); done).
  unfold Minimax.round, Minimax._execute_tools_minimax_style.
  run_step. unfold asked in Hc. rewrite Hc, Hu. cbn. rewrite Hnn, never_interrupted.
  assert (Forall parses (map fst tools)) as Hparse.
  { apply tool_use_content_blocks in Hu as [_ Huse]. apply Forall_fmap.
    eapply Forall_impl; [exact Huse|]. intros [tool block] (input & Hl & _).
    by eapply parses_decoded. }
  match goal with
  | |- context [Minimax.for_tools env ?n [] ?ts ?w0] =>
      destruct (minimax_for_tools_all ts n [] w0 Hparse)
        as (w' & added & -> & Hm' & Hall)
  end.
  cbn in Hm' |- *. eexists _, added. split_and!; [reflexivity | | done].
  cbn. rewrite Hm', Hm, <- app_assoc. done.
Qed.

End MinimaxHistory.

(** C7 as it is stated fails: in a round with a tool call that is
    interrupted before the tool loop, nothing is appended; interrupted inside
    the tool loop, the assistant message is appended and the user message
    with the results is not. *)
Lemma C7_counterexample :
  messages (snd (Minimax.round early_interrupt_env (start user_asks))) = user_asks
  /\ messages (snd (Minimax.round sticky_interrupt_env (start user_asks)))
     = user_asks
       ++ [plain_message "assistant" (CBlocks [ToolUseBlock "c1" "add" (JObj [])])].
Proof. vm_compute. split; reflexivity. Qed.

(** Argument text that [json.loads] refuses, the empty text included, ends
    the Minimax loop with an [error] event before anything is appended. *)
Lemma minimax_undecodable_arguments_abort :
  (let w := snd (Minimax.chatToNextLoop malformed_env 5 (start user_asks)) in
   messages w = user_asks
   /\ emitted w = [ev_error (response_error_message EmptyString)])
  /\ (let w := snd (Minimax.chatToNextLoop no_arguments_env 5 (start user_asks)) in
      messages w = user_asks
      /\ emitted w = [ev_error (response_error_message EmptyString)]).
Proof. vm_compute. split_and!; reflexivity. Qed.

(** C7, amended: in a round of the Minimax loop with at least one tool call
    in which no interrupt is requested and the argument text of every call is
    decoded by [json.loads], the round appends exactly two messages: one
    assistant message whose content is the block list made of a thinking block
    if the thinking text is not empty, a text block if the answer text is not
    empty, and one [tool_use] block for each call in order; then one user
    message whose content is the list of the [tool_result] blocks, one for
    each call in order. *)
Theorem C7_minimax_block_replay {json : JsonModule} (env : Env) (w : World)
    (v : Minimax.Vars) (w1 : World) (tools : list (ToolInfo * Block)) :
  (forall w0, env_interrupt_check env w0 = false) ->
  Minimax.consume_response env (env_model_chat env w)
    (Minimax.mkVars EmptyString EmptyString []) (asked w) = (Val v, w1) ->
  Minimax.tool_use_blocks v <> [] ->
  Minimax.tool_use_content (Minimax.tool_use_blocks v) = Ok tools ->
  exists w2 results,
    Minimax.round env w = (Val true, w2)
    /\ messages w2
       = messages w
         ++ [mkMessage "assistant"
               (CBlocks
                  ((if nonempty (thinking_text (env_model_chat env w))
                    then [ThinkingBlock (thinking_text (env_model_chat env w))]
                    else [])
                   ++ (if nonempty (answer_text (env_model_chat env w))
                       then [TextBlock (answer_text (env_model_chat env w))]
                       else [])
                   ++ map snd tools))
               None None None;
             mkMessage "user" (CBlocks results) None None None]
    /\ Forall2 (fun block tp => Minimax.tool_fields block = Ok (fst tp))
         (Minimax.tool_use_blocks v) tools
    /\ Forall (fun tp => tool_use_of (fst tp) (snd tp)) tools
    /\ Forall2 tool_result_of (map fst tools) results.
Proof.
  intros Hnever Hc Ht Hu.
  destruct (minimax_round_tools env Hnever w v w1 tools Hc Ht Hu)
    as (w2 & results & Hround & Hm & Hres).
  destruct (tool_use_content_blocks _ _ Hu) as [Hfields Huse].
  pose proof (minimax_consume_val env _ _ _ _ _ Hc) as [Hth Han].
  cbn in Hth, Han.
  exists w2, results. split_and!; [done | | done | done | done].
  rewrite Hm. unfold Minimax.text_blocks, plain_message.
  by rewrite Hth, Han, <- app_assoc.
Qed.

(** * The theorems at the worlds of the examples *)

Lemma C10_tool_round_drops_answer_witness :
  emitted (snd (consume_response (talking_env "{}")
                  (env_model_chat (talking_env "{}") (start user_asks))
                  round_vars (asked (start user_asks))))
  = [ev_thinking "add them"; ev_answer "Let me compute."]
  /\ tool_round_history user_asks
       (messages (snd (Base.round (talking_env "{}") (start user_asks)))).
Proof.
  edestruct (C10_tool_round_drops_answer (talking_env "{}") (start user_asks))
    as (He & _ & _ & Hh & _).
  - vm_compute. reflexivity.
  - vm_compute. discriminate.
  - split.
    + vm_compute. reflexivity.
    + apply Hh. vm_compute. reflexivity.
Defined.

Lemma C9_answer_appended_once_witness :
  messages (snd (Base.chatToNextLoop answering_env 5 (start answered_history)))
  = answered_history ++ [plain_message "assistant" (CStr "3")].
Proof.
  edestruct (C9_answer_appended_once answering_env (start answered_history))
    as (_ & _ & _ & Hrun).
  - vm_compute. reflexivity.
  - vm_compute. reflexivity.
  - vm_compute. reflexivity.
  - rewrite Hrun. vm_compute. reflexivity.
Defined.

Lemma C6_deepseek_reasoning_policy_witness :
  (exists m tail,
     messages (snd (DeepSeek.round (talking_env "{}") (start user_asks)))
     = user_asks ++ m :: tail
     /\ role m = "assistant"
     /\ reasoning_content m = Some "add them"
     /\ Forall (fun x => role x = "tool") tail)
  /\ messages (snd (DeepSeek.round answering_env (start user_asks)))
     = user_asks ++ [mkMessage "assistant" (CStr "3") None None None].
Proof.
  split.
  - edestruct (C6_deepseek_reasoning_policy (talking_env "{}") (start user_asks))
      as (_ & Htools).
    + vm_compute. reflexivity.
    + destruct Htools as (m & tail & Hm & Hrole & Hreason & _ & Htail).
      * vm_compute. discriminate.
      * vm_compute. reflexivity.
      * exists m, tail. split_and!; [exact Hm | exact Hrole | exact Hreason | exact Htail].
  - edestruct (C6_deepseek_reasoning_policy answering_env (start user_asks))
      as (Hplain & _).
    + vm_compute. reflexivity.
    + destruct Hplain as [Hm _]; [vm_compute; reflexivity|]. exact Hm.
Defined.

Lemma C7_minimax_block_replay_witness :
  exists results,
    messages (snd (Minimax.round (talking_env "{}") (start user_asks)))
    = user_asks
      ++ [mkMessage "assistant"
            (CBlocks [ThinkingBlock "add them"; TextBlock "Let me compute.";
                      ToolUseBlock "c1" "add" (JObj [])])
            None None None;
          mkMessage "user" (CBlocks results) None None None]
    /\ Forall2 tool_result_of [mkToolInfo "c1" "add" "{}"] results.
Proof.
  edestruct (C7_minimax_block_replay (talking_env "{}") (start user_asks))
    as (w2 & results & Hround & Hm & _ & _ & Hres).
  - intros w0. reflexivity.
  - vm_compute. reflexivity.
  - vm_compute. discriminate.
  - vm_compute. reflexivity.
  - exists results. rewrite Hround. cbn [snd]. rewrite Hm. split; [reflexivity | exact Hres].
Defined.

(** * The tool registry *)

Section RegistryFacts.

Variable R : Type.

Lemma index_by_name_lookup (tg : list (Registry.ToolDef R)) : forall d d',
  Registry.index_by_name d tg = Ok d' ->
  forall n, d' !! n = match Registry.last_named n tg with
                      | Some t => Some t
                      | None => d !! n
                      end.
Proof.
  induction tg as [|tool rest IH]; intros d d'; cbn.
  - by intros [= <-] n.
  - destruct (Registry.td_name tool) as [name|] eqn:En; cbn; [|done].
    intros H n. rewrite (IH _ _ H n).
    destruct (Registry.last_named n rest); [done|].
    case_bool_decide as Hn.
    + injection Hn as ->. by rewrite lookup_insert_eq.
    + rewrite lookup_insert_ne; [done|]. by intros ->.
Qed.

Lemma index_by_name_succeeds (tg : list (Registry.ToolDef R)) : forall d,
  Forall Registry.described tg -> exists d', Registry.index_by_name d tg = Ok d'.
Proof.
  induction tg as [|tool rest IH]; intros d Hall; cbn; [eauto|].
  apply Forall_cons in Hall as [[[name Hn] _] Hrest].
  rewrite Hn. cbn. by apply IH.
Qed.

Lemma convert_tools_succeeds (tg : list (Registry.ToolDef R)) :
  Forall Registry.described tg ->
  exists ts,
    Registry._convert_tools_to_format tg = Ok ts
    /\ map (fun s => Some (Registry.sch_name s)) ts = map Registry.td_name tg
    /\ map (fun s => Some (Registry.sch_description s)) ts
       = map Registry.td_description tg
    /\ map Registry.sch_parameters ts
       = map (fun t => default Registry.default_parameters (Registry.td_parameters t)) tg
    /\ Forall (fun s => Registry.sch_type s = "function") ts.
Proof.
  induction tg as [|tool rest IH]; intros Hall; cbn.
  - exists []. split_and!; [done..|constructor].
  - apply Forall_cons in Hall as [[[name Hn] [descr Hd]] Hrest].
    destruct (IH Hrest) as (ts & -> & H1 & H2 & H3 & H4).
    rewrite Hn, Hd. cbn. eexists. split; [reflexivity|]. cbn.
    rewrite H1, H2, H3. split_and!; [done..|by constructor].
Qed.

(** X1: [model_tool_init] on a list in which every tool has a name and a
    description succeeds, whatever the registry held before; afterwards
    [self.tools] has one schema for each tool given, in order, with the
    default parameter schema where none is given, and [self.tool_dict] maps a
    name to the last tool given with that name and holds no other name. *)
Theorem model_tool_init_registers (self : Registry.Registry R) (tg : list (Registry.ToolDef R)) :
  Forall Registry.described tg ->
  exists reg,
    Registry.model_tool_init self tg = (Ok tt, reg)
    /\ (forall n, Registry.tool_dict reg !! n = Registry.last_named n tg)
    /\ map (fun s => Some (Registry.sch_name s)) (Registry.tools reg)
       = map Registry.td_name tg
    /\ map (fun s => Some (Registry.sch_description s)) (Registry.tools reg)
       = map Registry.td_description tg
    /\ map Registry.sch_parameters (Registry.tools reg)
       = map (fun t => default Registry.default_parameters (Registry.td_parameters t)) tg.
Proof.
  intros Hall. unfold Registry.model_tool_init.
  destruct (index_by_name_succeeds tg ∅ Hall) as [d Hd].
  destruct (convert_tools_succeeds tg Hall) as (ts & Hts & H1 & H2 & H3 & _).
  rewrite Hd, Hts. eexists. split; [reflexivity|]. cbn.
  split_and!; [|done..].
  intros n. rewrite (index_by_name_lookup tg ∅ d Hd n), lookup_empty.
  by destruct (Registry.last_named n tg).
Qed.

(** X2: When every tool has a name but one lacks its description,
    [model_tool_init] raises [KeyError] after it has replaced
    [self.tool_dict]: the dict holds the new tools while [self.tools] still
    holds the old schemas. *)
Theorem model_tool_init_half_done (self : Registry.Registry R) (tg : list (Registry.ToolDef R)) :
  Forall (fun t => is_Some (Registry.td_name t)) tg ->
  Exists (fun t => Registry.td_description t = None) tg ->
  exists d,
    Registry.model_tool_init self tg
    = (Raise (KeyError "description"), Registry.mkRegistry (Registry.tools self) d)
    /\ forall n, d !! n = Registry.last_named n tg.
Proof.
  intros Hnames Hex. unfold Registry.model_tool_init.
  assert (exists d, Registry.index_by_name ∅ tg = Ok d) as [d Hd].
  { clear Hex. generalize (∅ : gmap string (Registry.ToolDef R)).
    induction Hnames as [|tool rest [name Hn] _ IH]; intros d0; cbn; [eauto|].
    rewrite Hn. cbn. apply IH. }
  assert (Registry._convert_tools_to_format tg = Raise (KeyError "description")) as Hc.
  { clear Hd. induction Hnames as [|tool rest [name Hn] Hrest IH]; cbn.
    - by apply Exists_nil in Hex.
    - rewrite Hn. cbn. apply Exists_cons in Hex as [Hnone|Hex].
      + by rewrite Hnone.
      + destruct (Registry.td_description tool); cbn; [|done].
        by rewrite (IH Hex). }
  rewrite Hd, Hc. exists d. split; [done|].
  intros n. rewrite (index_by_name_lookup tg ∅ d Hd n), lookup_empty.
  by destruct (Registry.last_named n tg).
Qed.

(** X3: After a successful [model_tool_init], [_execute_tool] on a name that no
    tool of the list has raises the not-found error, and on a name some tool
    has it calls the function of the last tool given with that name, with the
    arguments as keyword arguments; arguments that are not a dict are a
    [TypeError], and a tool without a function a [KeyError]. *)
Theorem execute_tool_after_init (self reg : Registry.Registry R)
    (tg : list (Registry.ToolDef R)) (tool_name : string) (tool_args : JSON) :
  Registry.model_tool_init self tg = (Ok tt, reg) ->
  Registry._execute_tool reg tool_name tool_args
  = match Registry.last_named tool_name tg with
    | None => Raise (ValueError ("Tool " +:+ tool_name +:+ " not found"))
    | Some tool =>
        match Registry.td_function tool with
        | None => Raise (KeyError "function")
        | Some func =>
            match tool_args with
            | JObj kwargs => func kwargs
            | _ => Raise TypeError
            end
        end
    end.
Proof.
  unfold Registry.model_tool_init.
  destruct (Registry.index_by_name ∅ tg) as [d|] eqn:Hd; [|done].
  destruct (Registry._convert_tools_to_format tg) as [ts|]; [|done].
  intros [= <-]. unfold Registry._execute_tool. cbn.
  rewrite (index_by_name_lookup tg ∅ d Hd tool_name), lookup_empty.
  destruct (Registry.last_named tool_name tg) as [tool|]; [|done].
  destruct (Registry.td_function tool); cbn; [|done].
  by destruct tool_args.
Qed.

(** X4: The Anthropic tool list made from the schemas of
    [_convert_tools_to_format] drops no tool: it has one entry for each tool
    given, in order, with the same name, description and parameter schema. *)
Theorem anthropic_tools_keep_all (tg : list (Registry.ToolDef R)) (ts : list Registry.ToolSchema) :
  Registry._convert_tools_to_format tg = Ok ts ->
  Registry._convert_openai_tools_to_anthropic ts
  = map (fun s => Registry.mkAnthropicTool (Registry.sch_name s)
                    (Registry.sch_description s) (Registry.sch_parameters s)) ts
  /\ length (Registry._convert_openai_tools_to_anthropic ts) = length tg.
Proof.
  revert ts. induction tg as [|tool rest IH]; intros ts; cbn.
  - by intros [= <-].
  - destruct (Registry.td_name tool); cbn; [|done].
    destruct (Registry.td_description tool); cbn; [|done].
    destruct (Registry._convert_tools_to_format rest) as [ts'|]; cbn; [|done].
    intros [= <-]. destruct (IH ts' eq_refl) as [H1 H2]. cbn.
    rewrite H1 in *. cbn. rewrite length_map in *. by rewrite H2.
Qed.

(** [SimpleFunctionExecutor.execute_tool] returns a text exactly when the
    name is registered, the arguments are a dict and the function returns a
    value; the text is [str] of that value. *)
Lemma simple_executor_success (str_of : R -> string)
    (tool_functions : gmap string (list (string * JSON) -> Exc R))
    (tool_name : string) (arguments : JSON) (text : string) :
  Registry.execute_tool str_of tool_functions tool_name arguments = Ok text
  <-> exists func kwargs result,
        tool_functions !! tool_name = Some func
        /\ arguments = JObj kwargs
        /\ func kwargs = Ok result
        /\ text = str_of result.
Proof.
  unfold Registry.execute_tool, Registry.call_with. split.
  - destruct (tool_functions !! tool_name) as [func|]; [|done].
    destruct arguments; cbn; try done.
    destruct (func fields) as [result|] eqn:Hf; cbn; [|done].
    intros [= <-]. by exists func, fields, result.
  - intros (func & kwargs & result & -> & -> & Hf & ->). cbn. by rewrite Hf.
Qed.

End RegistryFacts.

(** * The adapters: what a stream yields *)

Lemma accumulate_all_app (a b : list OpenAI.ToolCallDelta) : forall d,
  OpenAI.accumulate_all d (a ++ b)
  = exc_bind (OpenAI.accumulate_all d a) (fun d' => OpenAI.accumulate_all d' b).
Proof.
  induction a as [|t a IH]; intros d; cbn; [done|].
  destruct (OpenAI.accumulate d t) as [d1|]; cbn; [apply IH | done].
Qed.

Lemma answer_text_app (a b : list MsgReturn) :
  answer_text (a ++ b) = answer_text a +:+ answer_text b.
Proof.
  induction a as [|ev a IH]; cbn; [done|].
  destruct (gorType ev); rewrite IH; try done. by rewrite append_assoc.
Qed.

Lemma thinking_text_app (a b : list MsgReturn) :
  thinking_text (a ++ b) = thinking_text a +:+ thinking_text b.
Proof.
  induction a as [|ev a IH]; cbn; [done|].
  destruct (gorType ev); rewrite IH; try done. by rewrite append_assoc.
Qed.

Section OpenAIStream.

Variable json_dumps : bool -> JSON -> string.
Variable py_str : exn -> string.

(** One chunk whose fragments are accumulated without an exception. *)
Lemma openai_handle_chunk_ok chunk vars d :
  OpenAI.accumulate_all (OpenAI.tool_calls_dict vars) (chunk_deltas chunk) = Ok d ->
  OpenAI.handle_chunk chunk vars
  = (chunk_events chunk,
     Ok (OpenAI.mkStreamVars
           (OpenAI.sv_reasoning_content vars +:+ thinking_text (chunk_events chunk))
           (OpenAI.sv_content vars +:+ answer_text (chunk_events chunk))
           d)).
Proof.
  unfold OpenAI.handle_chunk, chunk_events, chunk_deltas.
  destruct (OpenAI.chunk_choices chunk) as [|delta ?]; cbn.
  - intros [= <-]. rewrite !append_empty_r. by destruct vars.
  - intros Hd.
    destruct (truthy (OpenAI.delta_reasoning_content delta));
      destruct (truthy (OpenAI.delta_content delta)); cbn;
      rewrite ?append_empty_r;
      destruct (OpenAI.delta_tool_calls delta); cbn in Hd |- *;
      by (rewrite Hd || injection Hd as <-).
Qed.

Lemma openai_stream_loop_ok chunks : forall vars d,
  OpenAI.accumulate_all (OpenAI.tool_calls_dict vars) (flat_map chunk_deltas chunks)
  = Ok d ->
  OpenAI.stream_loop json_dumps (map SChunk chunks) vars
  = gen_done
      (flat_map chunk_events chunks
       ++ OpenAI.stream_finish json_dumps
            (OpenAI.mkStreamVars
               (OpenAI.sv_reasoning_content vars
                +:+ thinking_text (flat_map chunk_events chunks))
               (OpenAI.sv_content vars +:+ answer_text (flat_map chunk_events chunks))
               d)).
Proof.
  induction chunks as [|chunk rest IH]; intros vars d; cbn [flat_map map].
  - cbn. intros [= <-]. rewrite !append_empty_r. by destruct vars.
  - rewrite accumulate_all_app.
    destruct (OpenAI.accumulate_all (OpenAI.tool_calls_dict vars) (chunk_deltas chunk))
      as [d1|] eqn:E1; cbn [exc_bind]; [|done].
    intros Hrest. cbn [OpenAI.stream_loop].
    rewrite (openai_handle_chunk_ok chunk vars d1 E1).
    match goal with |- context [OpenAI.stream_loop _ _ ?v] =>
      rewrite (IH v d Hrest) end.
    cbn.
    rewrite thinking_text_app, answer_text_app, !append_assoc, <- app_assoc.
    reflexivity.
Qed.

(** X5: A stream that ends without an exception, of chunks whose tool-call
    fragments the accumulator gets through: the adapter yields the think and
    answer events of the chunks in order, then one tool event for each record
    of the final list, then the end event; the end event carries the texts of
    the think and of the answer events joined, and the final list.  The
    records depend on the fragments in their order only, not on the chunks
    they arrive in. *)
Theorem openai_stream_yields (self : OpenAI.Model) (messages : list Message)
    (chunks : list OpenAI.Chunk) (d : gmap Z ToolCall) :
  OpenAI.stream self = true ->
  OpenAI.create_stream self messages = Ok (map SChunk chunks) ->
  OpenAI.accumulate_all ∅ (flat_map chunk_deltas chunks) = Ok d ->
  OpenAI.model_chat json_dumps py_str self messages
  = flat_map chunk_events chunks
    ++ map (OpenAI.tool_event json_dumps) (OpenAI.finalize d)
    ++ [mkMsgReturn EmptyString "end" gor_end
          (ExtraEndOpenAI (thinking_text (flat_map chunk_events chunks))
             (answer_text (flat_map chunk_events chunks))
             (OpenAI.finalize d))].
Proof.
  intros Hs Hc Hd. unfold OpenAI.model_chat, OpenAI._handle_stream_response.
  rewrite Hs, Hc.
  rewrite (openai_stream_loop_ok chunks (OpenAI.mkStreamVars EmptyString EmptyString ∅) d Hd).
  reflexivity.
Qed.

End OpenAIStream.

(** * The adapters: an error event comes after text events only *)

Lemma fails_clean_raise (e : exn) : fails_clean (gen_raise [] e).
Proof. intros _. constructor. Qed.

Lemma fails_clean_done (evs : list MsgReturn) : fails_clean (gen_done evs).
Proof. intros H. by cbn in H. Qed.

Lemma fails_clean_after (evs : list MsgReturn) (g : Gen) :
  texts_only evs -> fails_clean g -> fails_clean (gen_after evs g).
Proof.
  intros Hevs Hg Hr. cbn in Hr |- *. apply Forall_app. split; [done | by apply Hg].
Qed.

Lemma openai_chunk_texts_only chunk vars :
  texts_only (fst (OpenAI.handle_chunk chunk vars)).
Proof.
  unfold OpenAI.handle_chunk, texts_only.
  destruct (OpenAI.chunk_choices chunk) as [|delta ?]; cbn; [constructor|].
  destruct (truthy (OpenAI.delta_reasoning_content delta));
    destruct (truthy (OpenAI.delta_content delta)); cbn;
    repeat first [apply Forall_nil | apply Forall_cons; split]; cbn; auto.
Qed.

Lemma anthropic_chunk_texts_only chunk v :
  texts_only (fst (Anthropic.handle_chunk chunk v)).
Proof.
  unfold texts_only.
  destruct chunk as [|[]|[]| | | |]; cbn;
    try destruct (Anthropic.current_content_type v) as [[]|]; cbn;
    repeat first [apply Forall_nil | apply Forall_cons; split]; cbn; auto.
Qed.

Section CleanFailure.

Context {json : JsonModule}.

Variable json_dumps : bool -> JSON -> string.
Variable py_str : exn -> string.

Lemma openai_stream_loop_fails_clean items : forall vars,
  fails_clean (OpenAI.stream_loop json_dumps items vars).
Proof.
  induction items as [|[chunk|e] rest IH]; intros vars; cbn [OpenAI.stream_loop].
  - apply fails_clean_done.
  - pose proof (openai_chunk_texts_only chunk vars) as Hc.
    destruct (OpenAI.handle_chunk chunk vars) as [evs [vars'|e]]; cbn in Hc.
    + by apply fails_clean_after.
    + by intros _.
  - apply fails_clean_raise.
Qed.

Lemma anthropic_stream_loop_fails_clean items : forall v,
  fails_clean (Anthropic.stream_loop json_dumps items v).
Proof.
  induction items as [|[chunk|e] rest IH]; intros v; cbn [Anthropic.stream_loop].
  - apply fails_clean_done.
  - pose proof (anthropic_chunk_texts_only chunk v) as Hc.
    destruct (Anthropic.handle_chunk chunk v) as [evs v'].
    by apply fails_clean_after.
  - apply fails_clean_raise.
Qed.

Lemma model_chat_generator (self : AnyModel) (messages : list Message) :
  exists g,
    model_chat json_dumps py_str self messages = catch_all py_str g
    /\ well_terminated g /\ fails_clean g.
Proof.
  assert (forall m, exists g,
            OpenAI.model_chat json_dumps py_str m messages = catch_all py_str g
            /\ well_terminated g /\ fails_clean g) as Hopenai.
  { intros m. unfold OpenAI.model_chat. eexists. split; [reflexivity|].
    destruct (OpenAI.stream m).
    - split; [apply openai_stream_terminated|].
      unfold OpenAI._handle_stream_response.
      destruct (OpenAI.create_stream m messages);
        [apply openai_stream_loop_fails_clean | apply fails_clean_raise].
    - split; [apply openai_normal_terminated|].
      unfold OpenAI._handle_normal_response.
      destruct (OpenAI.create_normal m messages) as [r|]; [|apply fails_clean_raise].
      destruct (OpenAI.cc_choices r); [apply fails_clean_raise | apply fails_clean_done]. }
  assert (forall m, exists g,
            Anthropic.model_chat json_dumps py_str m messages = catch_all py_str g
            /\ well_terminated g /\ fails_clean g) as Hanthropic.
  { intros m. unfold Anthropic.model_chat. eexists. split; [reflexivity|].
    destruct (Anthropic._convert_messages_to_anthropic messages) as [am|];
      [|split; [apply well_terminated_raise | apply fails_clean_raise]].
    destruct (Anthropic.stream m).
    - split; [apply anthropic_stream_terminated|].
      unfold Anthropic._handle_stream_response.
      destruct (Anthropic.create_stream m am);
        [apply anthropic_stream_loop_fails_clean | apply fails_clean_raise].
    - split; [apply anthropic_normal_terminated|].
      unfold Anthropic._handle_normal_response.
      destruct (Anthropic.create_normal m am) as [r|]; [|apply fails_clean_raise].
      destruct (Anthropic.collect_blocks _ _ _ _ _) as [[? ?] ?].
      apply fails_clean_done. }
  destruct self; cbn; auto.
Qed.

(** X6: In every adapter and mode, when a [model_chat] call ends with an error
    event, every event before it is a think or an answer event: the tool calls
    gathered before a failure of the transport are never yielded. *)
Theorem error_follows_text_only (self : AnyModel) (messages : list Message)
    (body : list MsgReturn) (last_ev : MsgReturn) :
  model_chat json_dumps py_str self messages = body ++ [last_ev] ->
  gorType last_ev = gor_error ->
  texts_only body.
Proof.
  intros Heq Herr.
  destruct (model_chat_generator self messages) as (g & Hg & Hterm & Hclean).
  rewrite Hg in Heq. unfold catch_all, well_terminated, fails_clean in *.
  destruct (raised g) as [e|].
  - apply app_inj_tail in Heq as [<- _]. by apply Hclean.
  - destruct Hterm as (body' & last' & Hy & _ & Hend).
    rewrite Hy in Heq. apply app_inj_tail in Heq as [_ ->]. congruence.
Qed.

End CleanFailure.

(** * The Anthropic adapter: blocks of a stream *)

Lemma gen_after_after (a b : list MsgReturn) (g : Gen) :
  gen_after a (gen_after b g) = gen_after (a ++ b) g.
Proof. unfold gen_after. cbn. by rewrite app_assoc. Qed.

Lemma append_empty_l (s : string) : EmptyString +:+ s = s.
Proof. reflexivity. Qed.

Lemma gen_after_nil (g : Gen) : gen_after [] g = g.
Proof. by destruct g. Qed.

Section AnthropicStream.

Context {json : JsonModule}.

Variable json_dumps : bool -> JSON -> string.
Variable py_str : exn -> string.

Abbreviation loop := (Anthropic.stream_loop json_dumps).

Lemma anthropic_thinking_pieces pieces : forall rest v,
  loop (map (fun p => SChunk (Anthropic.ContentBlockDelta (Anthropic.ThinkingDelta p)))
          pieces ++ rest) v
  = gen_after
      (map (fun p => mkMsgReturn p "thinking" gor_think (ExtraDelta p)) pieces)
      (loop rest
         (Anthropic.mkStreamVars (Anthropic.sv_content v)
            (Anthropic.sv_thinking_content v
             +:+ fold_right String.append EmptyString pieces)
            (Anthropic.sv_tool_calls v) (Anthropic.current_tool_call v)
            (Anthropic.current_content_type v))).
Proof.
  induction pieces as [|p ps IH]; intros rest v; cbn [map app fold_right].
  - rewrite gen_after_nil, append_empty_r. by destruct v.
  - cbn [Anthropic.stream_loop Anthropic.handle_chunk]. rewrite IH. cbn.
    unfold gen_after. cbn. by rewrite append_assoc.
Qed.

Lemma anthropic_text_pieces pieces : forall rest v,
  Anthropic.current_content_type v = Some Anthropic.ct_text ->
  loop (map (fun p => SChunk (Anthropic.ContentBlockDelta (Anthropic.TextDelta p)))
          pieces ++ rest) v
  = gen_after
      (map (fun p => mkMsgReturn p "text" gor_answer (ExtraDelta p)) pieces)
      (loop rest
         (Anthropic.mkStreamVars
            (Anthropic.sv_content v +:+ fold_right String.append EmptyString pieces)
            (Anthropic.sv_thinking_content v)
            (Anthropic.sv_tool_calls v) (Anthropic.current_tool_call v)
            (Anthropic.current_content_type v))).
Proof.
  induction pieces as [|p ps IH]; intros rest v Hct; cbn [map app fold_right].
  - rewrite gen_after_nil, append_empty_r. by destruct v.
  - cbn [Anthropic.stream_loop Anthropic.handle_chunk]. rewrite Hct.
    rewrite IH by done. cbn. unfold gen_after. cbn. by rewrite append_assoc, ?Hct.
Qed.

Lemma anthropic_json_pieces pieces : forall rest v tc,
  Anthropic.current_tool_call v = Some tc ->
  loop (map (fun p => SChunk (Anthropic.ContentBlockDelta (Anthropic.InputJsonDelta p)))
          pieces ++ rest) v
  = loop rest
      (Anthropic.mkStreamVars (Anthropic.sv_content v)
         (Anthropic.sv_thinking_content v) (Anthropic.sv_tool_calls v)
         (Some (mkToolCall (tc_id tc) (tc_type tc) (tc_name tc)
                  (tc_arguments tc +:+ fold_right String.append EmptyString pieces)))
         (Anthropic.current_content_type v)).
Proof.
  induction pieces as [|p ps IH]; intros rest v tc Htc; cbn [map app fold_right].
  - rewrite append_empty_r. destruct v, tc. cbn in Htc. by rewrite Htc.
  - cbn [Anthropic.stream_loop Anthropic.handle_chunk]. rewrite Htc, gen_after_nil.
    erewrite IH by reflexivity. cbn. by rewrite append_assoc.
Qed.

(** One block, read from a state between blocks. *)
Lemma anthropic_block b : forall rest v,
  Anthropic.current_tool_call v = None ->
  Anthropic.current_content_type v = None ->
  loop (map SChunk (block_chunks b) ++ rest) v
  = gen_after (block_events b)
      (loop rest
         (Anthropic.mkStreamVars
            (Anthropic.sv_content v +:+ answer_text (block_events b))
            (Anthropic.sv_thinking_content v +:+ thinking_text (block_events b))
            (Anthropic.sv_tool_calls v ++ option_list (block_call b))
            None None)).
Proof.
  assert (forall ps, answer_text
            (map (fun p => mkMsgReturn p "text" gor_answer (ExtraDelta p)) ps)
          = fold_right String.append EmptyString ps) as Hans.
  { induction ps as [|p ps IH]; cbn; [done | by rewrite IH]. }
  assert (forall ps, thinking_text
            (map (fun p => mkMsgReturn p "text" gor_answer (ExtraDelta p)) ps)
          = EmptyString) as Hans'.
  { induction ps as [|p ps IH]; cbn; done. }
  assert (forall ps, thinking_text
            (map (fun p => mkMsgReturn p "thinking" gor_think (ExtraDelta p)) ps)
          = fold_right String.append EmptyString ps) as Hth.
  { induction ps as [|p ps IH]; cbn; [done | by rewrite IH]. }
  assert (forall ps, answer_text
            (map (fun p => mkMsgReturn p "thinking" gor_think (ExtraDelta p)) ps)
          = EmptyString) as Hth'.
  { induction ps as [|p ps IH]; cbn; done. }
  intros rest v Htc Hct.
  destruct b as [pieces|pieces|id name pieces];
    cbn [block_chunks block_events block_call map app option_list];
    rewrite map_app, map_map, <- app_assoc;
    cbn [app map Anthropic.stream_loop Anthropic.handle_chunk];
    rewrite gen_after_nil.
  - rewrite anthropic_thinking_pieces.
    cbn [Anthropic.stream_loop Anthropic.handle_chunk app map]. cbn.
    rewrite Htc, Hth, Hth', gen_after_nil, app_nil_r, append_empty_r. reflexivity.
  - rewrite anthropic_text_pieces by done.
    cbn [Anthropic.stream_loop Anthropic.handle_chunk app map]. cbn.
    rewrite Htc, Hans, Hans', gen_after_nil, app_nil_r, append_empty_r. reflexivity.
  - erewrite anthropic_json_pieces by reflexivity.
    cbn [Anthropic.stream_loop Anthropic.handle_chunk app map]. cbn.
    rewrite !gen_after_nil, !append_empty_r, append_empty_l. reflexivity.
Qed.

Lemma anthropic_blocks blocks : forall rest v,
  Anthropic.current_tool_call v = None ->
  Anthropic.current_content_type v = None ->
  loop (map SChunk (flat_map block_chunks blocks) ++ rest) v
  = gen_after (flat_map block_events blocks)
      (loop rest
         (Anthropic.mkStreamVars
            (Anthropic.sv_content v +:+ answer_text (flat_map block_events blocks))
            (Anthropic.sv_thinking_content v
             +:+ thinking_text (flat_map block_events blocks))
            (Anthropic.sv_tool_calls v ++ omap block_call blocks)
            None None)).
Proof.
  induction blocks as [|b bs IH]; intros rest v Htc Hct; cbn [flat_map omap].
  - cbn. rewrite gen_after_nil, app_nil_r, !append_empty_r.
    destruct v. cbn in *. by rewrite Htc, Hct.
  - rewrite map_app, <- app_assoc, anthropic_block by done.
    rewrite IH by done. rewrite gen_after_after. cbn.
    rewrite answer_text_app, thinking_text_app, !append_assoc, <- app_assoc.
    by destruct (block_call b).
Qed.

(** X7: A streamed message made of whole blocks, each a start, its deltas and a
    stop, with no exception: the adapter yields one think or answer event for
    each piece of the thinking and text blocks, in order, then one tool event
    for each tool-use block, in order, whose arguments are the pieces of the
    block joined, then the end event with the joined texts. *)
Theorem anthropic_stream_yields (self : Anthropic.Model) (messages : list Message)
    (am : list Anthropic.AMessage) (blocks : list StreamBlock) :
  Anthropic.stream self = true ->
  Anthropic._convert_messages_to_anthropic messages = Ok am ->
  Anthropic.create_stream self am = Ok (map SChunk (message_chunks blocks)) ->
  Anthropic.model_chat json_dumps py_str self messages
  = flat_map block_events blocks
    ++ map (Anthropic.tool_event json_dumps) (omap block_call blocks)
    ++ [mkMsgReturn EmptyString "end" gor_end
          (ExtraEndAnthropic (answer_text (flat_map block_events blocks))
             (thinking_text (flat_map block_events blocks))
             (omap block_call blocks))].
Proof.
  intros Hs Hc Hcreate.
  unfold Anthropic.model_chat, Anthropic._handle_stream_response.
  rewrite Hc, Hs, Hcreate. unfold message_chunks.
  cbn [map Anthropic.stream_loop Anthropic.handle_chunk]. rewrite gen_after_nil.
  rewrite map_app, anthropic_blocks by done. cbn. reflexivity.
Qed.

(** X8: A whole Anthropic response: at most one think event, with the thinking
    blocks joined, then at most one answer event, with the text blocks joined,
    then one tool event for each tool-use block in order, then the end event,
    whatever the order of the blocks in the response. *)
Theorem anthropic_normal_yields (self : Anthropic.Model) (messages : list Message)
    (am : list Anthropic.AMessage) (r : Anthropic.Response) :
  Anthropic.stream self = false ->
  Anthropic._convert_messages_to_anthropic messages = Ok am ->
  Anthropic.create_normal self am = Ok r ->
  Anthropic.model_chat json_dumps py_str self messages
  = (if nonempty (response_thinking (Anthropic.resp_content r))
     then [mkMsgReturn (response_thinking (Anthropic.resp_content r)) "thinking"
             gor_think ExtraMessage]
     else [])
    ++ (if nonempty (response_text (Anthropic.resp_content r))
        then [mkMsgReturn (response_text (Anthropic.resp_content r)) "text"
                gor_answer ExtraMessage]
        else [])
    ++ map (Anthropic.tool_event json_dumps)
         (response_calls json_dumps (Anthropic.resp_content r))
    ++ [mkMsgReturn EmptyString "end" gor_end ExtraMessage].
Proof.
  intros Hs Hc Hcreate.
  assert (forall bs content thinking calls,
            Anthropic.collect_blocks json_dumps bs content thinking calls
            = (content +:+ response_text bs, thinking +:+ response_thinking bs,
               calls ++ response_calls json_dumps bs)) as Hcollect.
  { induction bs as [|b bs IH]; intros content thinking calls.
    - cbn. by rewrite !append_empty_r, app_nil_r.
    - destruct b; cbn [Anthropic.collect_blocks]; rewrite IH;
        unfold response_text, response_thinking, response_calls; cbn;
        rewrite ?append_assoc, <- ?app_assoc; reflexivity. }
  unfold Anthropic.model_chat, Anthropic._handle_normal_response.
  rewrite Hc, Hs, Hcreate, Hcollect. cbn. reflexivity.
Qed.

End AnthropicStream.

(** * The Anthropic adapter: converting the history *)

Lemma convert_tool_calls_ok {json : JsonModule} (tcs : list ToolCall) :
  (exists bs, Anthropic.convert_tool_calls tcs = Ok bs)
  <-> forallb (fun tc => decodes (tc_arguments tc)) tcs = true.
Proof.
  induction tcs as [|tc rest IH]; cbn; [split; eauto|].
  unfold decodes at 1.
  destruct (loads (tc_arguments tc)) as [input|]; cbn.
  - rewrite <- IH. split.
    + intros [bs Hb]. destruct (Anthropic.convert_tool_calls rest); [eauto | done].
    + intros [bs ->]. cbn. eauto.
  - split; [by intros [? ?] | done].
Qed.

(** What the conversion of the calls raises is what [json.loads] raises on
    the argument text of one of them. *)
Lemma convert_tool_calls_raises {json : JsonModule} (tcs : list ToolCall) (e : exn) :
  Anthropic.convert_tool_calls tcs = Raise e ->
  exists tc, tc ∈ tcs /\ loads (tc_arguments tc) = Raise e.
Proof.
  induction tcs as [|tc rest IH]; cbn; [done|].
  destruct (loads (tc_arguments tc)) as [input|e'] eqn:El; cbn.
  - destruct (Anthropic.convert_tool_calls rest); cbn; [done|].
    intros [= <-]. destruct (IH eq_refl) as (tc' & Hin & Hl).
    exists tc'. split; [by apply list_elem_of_further | done].
  - intros [= <-]. exists tc. split; [apply list_elem_of_here | done].
Qed.

Lemma convert_message_ok {json : JsonModule} (m : Message) :
  (exists am, Anthropic.convert_message m = Ok am /\ Anthropic.a_role am <> "tool")
  <-> convertible m = true.
Proof.
  unfold Anthropic.convert_message, convertible.
  destruct (String.eqb_spec (role m) "tool") as [Ht|Ht]; cbn.
  { split; [done|]. intros _. eexists. split; [reflexivity | done]. }
  destruct (String.eqb_spec (role m) "assistant") as [Ha|Ha]; cbn.
  - destruct (tool_calls m) as [tcs|].
    + rewrite <- convert_tool_calls_ok. split.
      * intros (am & Hc & _). destruct (Anthropic.convert_tool_calls tcs); [eauto | done].
      * intros [bs ->]. cbn. eexists. split; [reflexivity | done].
    + split; [done|]. intros _. eexists. split; [reflexivity | done].
  - split; [done|]. intros _. eexists. split; [reflexivity | done].
Qed.

Lemma convert_message_raises {json : JsonModule} (m : Message) (e : exn) :
  Anthropic.convert_message m = Raise e -> undecoded_call e m.
Proof.
  unfold Anthropic.convert_message, undecoded_call.
  destruct (String.eqb (role m) "tool"); [done|].
  destruct (String.eqb_spec (role m) "assistant") as [Ha|Ha]; [|done].
  destruct (tool_calls m) as [tcs|]; [|done].
  destruct (Anthropic.convert_tool_calls tcs) eqn:E; cbn; [done|].
  intros [= <-]. split; [done|].
  destruct (convert_tool_calls_raises _ _ E) as (tc & Hin & Hl).
  by exists tcs, tc.
Qed.

Lemma convert_message_total {json : JsonModule} (m : Message) :
  convertible m = false -> exists e, Anthropic.convert_message m = Raise e.
Proof.
  intros Hc. destruct (Anthropic.convert_message m) as [am|e] eqn:Ec; [|eauto].
  assert (convertible m = true); [|congruence].
  apply convert_message_ok. exists am. split; [done|].
  revert Ec. unfold Anthropic.convert_message.
  destruct (String.eqb_spec (role m) "tool"); [by intros [= <-]|].
  destruct (String.eqb (role m) "assistant"), (tool_calls m) as [tcs|];
    try (by intros [= <-]).
  destruct (Anthropic.convert_tool_calls tcs); cbn; [by intros [= <-] | done].
Qed.

Lemma convert_messages_cases {json : JsonModule} (messages : list Message) :
  (forallb convertible messages = true ->
   exists ams,
     Anthropic._convert_messages_to_anthropic messages = Ok ams
     /\ length ams = length messages
     /\ Forall (fun am => Anthropic.a_role am <> "tool") ams)
  /\ (forallb convertible messages = false ->
      exists e m,
        Anthropic._convert_messages_to_anthropic messages = Raise e
        /\ m ∈ messages
        /\ undecoded_call e m).
Proof.
  induction messages as [|m rest [IHok IHbad]]; cbn.
  - split; [|done]. intros _. exists []. split_and!; [done | done | constructor].
  - destruct (convertible m) eqn:Em; cbn.
    + apply convert_message_ok in Em as (am & -> & Hrole). cbn. split.
      * intros Hrest. destruct (IHok Hrest) as (ams & -> & Hlen & Hall). cbn.
        eexists. split_and!; [reflexivity | by cbn; rewrite Hlen | by constructor].
      * intros Hrest. destruct (IHbad Hrest) as (e & m' & -> & Hin & Hu).
        exists e, m'. split_and!; [done | by apply list_elem_of_further | done].
    + split; [done|]. intros _.
      destruct (convert_message_total m Em) as [e Ec]. rewrite Ec. cbn.
      exists e, m. split_and!; [done | apply list_elem_of_here |].
      by apply convert_message_raises.
Qed.

(** X9: [_convert_messages_to_anthropic] gets through a history exactly when
    the argument text of every tool call listed by an assistant message is
    decoded by [json.loads]; it then gives one message for each message of the
    history, none of them with the role tool.  Otherwise it raises what
    [json.loads] raises on the argument text of a tool call that an assistant
    message of the history lists. *)
Theorem convert_messages_ok {json : JsonModule} (messages : list Message) :
  if forallb convertible messages
  then exists ams,
         Anthropic._convert_messages_to_anthropic messages = Ok ams
         /\ length ams = length messages
         /\ Forall (fun am => Anthropic.a_role am <> "tool") ams
  else exists e m,
         Anthropic._convert_messages_to_anthropic messages = Raise e
         /\ m ∈ messages
         /\ undecoded_call e m.
Proof.
  destruct (convert_messages_cases messages) as [Hok Hbad].
  destruct (forallb convertible messages); auto.
Qed.

(** * The base tool loop: the executor and the assistant message *)

Section BaseToolsMore.

Context {json : JsonModule}.

Variable env : Env.

Lemma planned_calls_cons tool rest :
  planned_calls (tool :: rest) = planned_calls [tool] ++ planned_calls rest.
Proof.
  unfold planned_calls. cbn.
  destruct (parse_tool_arguments (ti_arguments tool)) as [[]|]; done.
Qed.

Lemma base_tool_step_calls am tool w w' :
  base_tool_step env am tool w w' ->
  executor_calls w' = executor_calls w ++ planned_calls [tool].
Proof.
  unfold planned_calls. cbn.
  intros [[-> ->]|[(args & result & -> & Hn & _ & ->)|(args & e & -> & Hn & _ & ->)]];
    run_step; [by rewrite app_nil_r|..]; by destruct args.
Qed.

(** X10: The base tool loop calls the executor for the tools whose argument text
    parses, in the order of the list and once each: up to the tool at which
    it is interrupted, and for all of them when it runs to its end. *)
Theorem base_executor_called_in_order (am : nat) (tools : list ToolInfo)
    (names : option (string * string)) (w : World) :
  (exists k,
     executor_calls (snd (Base.for_tools env am names tools w))
     = executor_calls w ++ planned_calls (take k tools))
  /\ (fst (Base.for_tools env am names tools w) = Val tt ->
      executor_calls (snd (Base.for_tools env am names tools w))
      = executor_calls w ++ planned_calls tools).
Proof.
  revert names w. induction tools as [|tool rest IH]; intros names w.
  - cbn. split; [exists 0|]; by rewrite app_nil_r.
  - destruct (env_interrupt_check env w) eqn:Hi.
    { rewrite base_for_tools_interrupted by done. cbn. split; [|done].
      exists 0. by rewrite app_nil_r. }
    destruct (parse_tool_arguments (ti_arguments tool)) as [args|e] eqn:Hp.
    + destruct (base_for_tools_step env am names tool rest w Hi (ex_intro _ args Hp))
        as (names' & w1 & -> & Hstep).
      apply base_tool_step_calls in Hstep.
      destruct (IH names' w1) as [[k Hk] Hval]. split.
      * exists (S k). cbn [take]. rewrite Hk, Hstep, (planned_calls_cons tool (take k rest)).
        by rewrite <- app_assoc.
      * intros Hv. rewrite (Hval Hv), Hstep, (planned_calls_cons tool rest).
        by rewrite <- app_assoc.
    + assert (planned_calls [tool] = []) as Hnone
        by (unfold planned_calls; cbn; by rewrite Hp).
      destruct names as [[tool_name tool_call_id]|].
      * rewrite (base_for_tools_stale env am tool_name tool_call_id tool rest w e Hi Hp).
        match goal with |- context [Base.for_tools env am ?n rest ?w1] =>
          destruct (IH n w1) as [[k Hk] Hval] end.
        cbn [executor_calls appending emitting polled] in Hk, Hval. split.
        -- exists (S k). cbn [take].
           by rewrite Hk, (planned_calls_cons tool (take k rest)), Hnone.
        -- intros Hv. by rewrite (Hval Hv), (planned_calls_cons tool rest), Hnone.
      * rewrite (base_for_tools_unbound env am tool rest w e Hi Hp). cbn.
        split; [|done]. exists 0. by rewrite app_nil_r.
Qed.

End BaseToolsMore.

Section BaseListing.

Context {json : JsonModule}.

Variable env : Env.

(** Which calls the executor gives a result for. *)
Variable listed : ToolInfo -> bool.
Hypothesis listed_runs : forall tool, runs tool = false -> listed tool = false.
Hypothesis executor_decides : forall w tool args,
  parse_tool_arguments (ti_arguments tool) = Ok args ->
  args <> JNull ->
  match env_execute_tool env w (ti_name tool) args with
  | Ok _ => listed tool = true
  | Raise _ => listed tool = false
  end.

Lemma base_tool_step_listing am tool w w' before calls tail :
  length before = am ->
  base_tool_step env am tool w w' ->
  messages w = before ++ listing calls :: tail ->
  exists m,
    answers tool m
    /\ messages w'
       = before
         ++ listing (calls ++ (if listed tool then [entry_of tool] else []))
         :: tail ++ [m].
Proof.
  intros Hlen Hstep Hm.
  destruct Hstep as [[Hp ->]|[(args & result & Hp & Hn & He & ->)|(args & e & Hp & Hn & He & ->)]].
  - run_step. rewrite listed_runs by (unfold runs; by rewrite Hp).
    rewrite Hm, <- app_assoc, app_nil_r. eexists. split; [by eexists|done].
  - pose proof (executor_decides
                  (emitting [ev_tool_execution (ti_name tool) (ti_id tool) args] (polled w))
                  tool args Hp Hn) as Hl.
    rewrite He in Hl.
    run_step. rewrite Hm, Hl. replace am with (length before + 0) by lia.
    rewrite alter_app_r. cbn [alter list_alter]. rewrite <- app_assoc.
    eexists. split; [by eexists|done].
  - pose proof (executor_decides
                  (emitting [ev_tool_execution (ti_name tool) (ti_id tool) args] (polled w))
                  tool args Hp Hn) as Hl.
    rewrite He in Hl.
    run_step. rewrite Hm, Hl, <- app_assoc, app_nil_r.
    eexists. split; [by eexists|done].
Qed.

Lemma base_for_tools_listing am tools : forall names w before calls tail,
  Forall parses tools ->
  length before = am ->
  messages w = before ++ listing calls :: tail ->
  exists k added,
    k <= length tools
    /\ (fst (Base.for_tools env am names tools w) = Val tt -> k = length tools)
    /\ messages (snd (Base.for_tools env am names tools w))
       = before
         ++ listing (calls ++ map entry_of (List.filter listed (take k tools)))
         :: tail ++ added
    /\ Forall2 answers (take k tools) added.
Proof.
  induction tools as [|tool rest IH]; intros names w before calls tail Hparse Hlen Hm.
  - exists 0, []. cbn. rewrite !app_nil_r. split_and!; [lia | done | done | constructor].
  - apply Forall_cons in Hparse as [Hp Hparse].
    destruct (env_interrupt_check env w) eqn:Hi.
    + rewrite base_for_tools_interrupted by done. exists 0, []. cbn.
      rewrite !app_nil_r. split_and!; [lia | done | done | constructor].
    + destruct (base_for_tools_step env am names tool rest w Hi Hp)
        as (names' & w1 & -> & Hstep).
      destruct (base_tool_step_listing am tool w w1 before calls tail Hlen Hstep Hm)
        as (m & Hans & Hm1).
      destruct (IH names' w1 before _ _ Hparse Hlen Hm1)
        as (k & added & Hk & Hval & Hms & Hall).
      exists (S k), (m :: added). cbn [take length List.filter map].
      split_and!; [lia | by intros Hv; rewrite (Hval Hv) | | by constructor].
      rewrite Hms, <- !app_assoc. cbn. by destruct (listed tool).
Qed.

Lemma base_execute_tools_listing tools w :
  Forall parses tools ->
  exists k added,
    k <= length tools
    /\ (fst (Base._execute_tools_in_loop env tools w) = Val tt -> k = length tools)
    /\ messages (snd (Base._execute_tools_in_loop env tools w))
       = messages w
         ++ listing (map entry_of (List.filter listed (take k tools))) :: added
    /\ Forall2 answers (take k tools) added.
Proof.
  intros Hparse. unfold Base._execute_tools_in_loop. run_step.
  match goal with |- context [Base.for_tools env ?am ?n tools ?w0] =>
    destruct (base_for_tools_listing am tools n w0 (messages w) [] []
                Hparse eq_refl eq_refl) as (k & added & Hk & Hval & Hms & Hall)
  end.
  exists k, added. split_and!; [done | | done | done].
  intros Hv. apply Hval.
  match goal with |- fst ?p = _ => by destruct p as [[[]| | |] ?] end.
Qed.

End BaseListing.

Lemma base_round_lists_parsed_calls_aux {json : JsonModule} (env : Env)
    (tools : list ToolInfo) (w : World) :
  executor_total env ->
  Forall parses tools ->
  exists k added,
    k <= length tools
    /\ (fst (Base._execute_tools_in_loop env tools w) = Val tt -> k = length tools)
    /\ messages (snd (Base._execute_tools_in_loop env tools w))
       = messages w
         ++ listing (map entry_of (List.filter runs (take k tools))) :: added
    /\ Forall2 answers (take k tools) added.
Proof.
  intros Hexec Hparse. apply base_execute_tools_listing; [done| |done].
  intros w0 tool args Hp Hn. destruct (Hexec w0 (ti_name tool) args) as [r ->].
  unfold runs. rewrite Hp. by destruct args.
Qed.

(** X11: With an executor that never raises, and tool calls for each of
    which the argument parser returns (a value or [None]), the tool part of a
    round of the base loop appends one assistant message and then one tool
    message for each call it has come to, in order: all of them unless an
    interrupt stops it.  The assistant message lists, of these calls, exactly
    the ones whose argument text parses to a value, in order: a call whose
    arguments parse to [None] has a tool message and no entry. *)
Theorem base_round_lists_parsed_calls {json : JsonModule} (env : Env)
    (tools : list ToolInfo) (w : World) :
  executor_total env ->
  Forall parses tools ->
  exists k added,
    k <= length tools
    /\ (fst (Base._execute_tools_in_loop env tools w) = Val tt -> k = length tools)
    /\ messages (snd (Base._execute_tools_in_loop env tools w))
       = messages w
         ++ listing (map entry_of (List.filter runs (take k tools))) :: added
    /\ Forall2 answers (take k tools) added.
Proof. apply base_round_lists_parsed_calls_aux. Qed.

(** X12: With a [SimpleFunctionExecutor] as the executor, and tool calls for
    each of which the argument parser returns, the assistant message of the
    tool part of a round of the base loop lists exactly the calls whose
    arguments parse to a dict, whose name is registered and whose function
    returns a value; every call the loop has come to has its tool message,
    listed or not. *)
Theorem simple_executor_lists_served_calls {json : JsonModule} {R} (env : Env)
    (str_of : R -> string)
    (tool_functions : gmap string (list (string * JSON) -> Exc R))
    (tools : list ToolInfo) (w : World) :
  Forall parses tools ->
  exists k added,
    k <= length tools
    /\ (fst (Base._execute_tools_in_loop
               (with_simple_executor env str_of tool_functions) tools w) = Val tt
        -> k = length tools)
    /\ messages (snd (Base._execute_tools_in_loop
                        (with_simple_executor env str_of tool_functions) tools w))
       = messages w
         ++ listing (map entry_of (List.filter (served tool_functions) (take k tools)))
         :: added
    /\ Forall2 answers (take k tools) added.
Proof.
  intros Hparse. apply base_execute_tools_listing; [| |done].
  - intros tool. unfold runs, served.
    destruct (parse_tool_arguments (ti_arguments tool)) as [[]|]; done.
  - intros w0 tool args Hp Hn. unfold served. rewrite Hp. cbn.
    unfold Registry.execute_tool, Registry.call_with.
    destruct (tool_functions !! ti_name tool) as [func|]; [|by destruct args].
    destruct args; cbn; try done. by destruct (func fields).
Qed.

(** * Relations a whole run keeps *)

Section Frames.

Variables Q S : World -> World -> Prop.
Hypothesis Q_refl : forall w, Q w w.
Hypothesis Q_trans : forall w1 w2 w3, Q w1 w2 -> Q w2 w3 -> Q w1 w3.
Hypothesis Q_then_S : forall w1 w2 w3, Q w1 w2 -> S w2 w3 -> S w1 w3.
Hypothesis S_is_Q : forall w1 w2, S w1 w2 -> Q w1 w2.

Lemma framed_ret {A} (a : A) : framed Q S (ret a).
Proof. intros w. apply Q_refl. Qed.

Lemma framed_throw {A} (e : exn) : framed Q S (@throw A e).
Proof. intros w. apply Q_refl. Qed.

Lemma framed_diverge {A} : framed Q S (@diverge A).
Proof. intros w. apply Q_refl. Qed.

Lemma framed_lift {A} (x : Exc A) : framed Q S (lift x).
Proof. destruct x; [apply framed_ret | apply framed_throw]. Qed.

Lemma framed_bind {A B} (c : M A) (k : A -> M B) :
  framed Q S c -> (forall a, framed Q S (k a)) -> framed Q S (bind c k).
Proof.
  intros Hc Hk w. specialize (Hc w). unfold bind.
  destruct (c w) as [[a| |e|] w1]; cbn in *; try done.
  specialize (Hk a w1). destruct (k a w1) as [[b| |e|] w2]; cbn in *; eauto.
Qed.

Lemma framed_try {A} (c : M A) (h : exn -> M A) :
  framed Q S c -> (forall e, framed Q S (h e)) -> framed Q S (try_ c h).
Proof.
  intros Hc Hh w. specialize (Hc w). unfold try_.
  destruct (c w) as [[a| |e|] w1]; cbn in *; try done.
  specialize (Hh e w1). destruct (h e w1) as [[b| |e'|] w2]; cbn in *; eauto.
Qed.

Lemma framed_yield_from {A} (c : M A) : framed Q S c -> framed Q S (yield_from c).
Proof.
  intros Hc w. specialize (Hc w). unfold yield_from.
  destruct (c w) as [[a| |e|] w1]; cbn in *; eauto.
Qed.

(** A step that changes the world and goes on. *)
Lemma framed_step {A} (c : M A) :
  (forall w, Q w (snd (c w)) /\ fst (c w) <> Returned) -> framed Q S c.
Proof. intros H w. destruct (H w) as [Hq Hr]. by destruct (fst (c w)). Qed.

(** [c; return] *)
Lemma framed_stop {A B} (c : M A) :
  (forall w, S w (snd (c w))) -> framed Q S (c ;; @return_ B).
Proof.
  intros H w. specialize (H w). unfold bind, return_.
  destruct (c w) as [[a| |e|] w1]; cbn in *; eauto.
Qed.

End Frames.

(** ** The events *)

Lemma quiet_refl w : quiet w w.
Proof. exists []. unfold emits. by rewrite app_nil_r. Qed.

Lemma quiet_trans w1 w2 w3 : quiet w1 w2 -> quiet w2 w3 -> quiet w1 w3.
Proof.
  intros (e1 & H1 & F1) (e2 & H2 & F2). exists (e1 ++ e2). unfold emits in *.
  rewrite H2, H1, app_assoc. split; [done | by apply Forall_app].
Qed.

Lemma quiet_then_stopped w1 w2 w3 : quiet w1 w2 -> stopped w2 w3 -> stopped w1 w3.
Proof.
  intros (e1 & H1 & F1) (e2 & ev & H2 & F2 & Hs). exists (e1 ++ e2), ev.
  unfold emits in *. rewrite H2, H1, !app_assoc. split_and!; [done | by apply Forall_app | done].
Qed.

Lemma stopped_is_quiet w1 w2 : stopped w1 w2 -> quiet w1 w2.
Proof.
  intros (evs & ev & H & F & Hs). exists (evs ++ [ev]). split; [done|].
  apply Forall_app. split; [done|]. constructor; [by destruct ev | done].
Qed.

Lemma quiet_then_closing w1 w2 ev :
  quiet w1 w2 -> closing ev -> closed w1 (emitting [ev] w2).
Proof.
  intros (evs & H & F) Hc. exists evs, ev. unfold emits in *. cbn.
  rewrite H, app_assoc. done.
Qed.

Lemma stopped_is_closed w1 w2 : stopped w1 w2 -> closed w1 w2.
Proof.
  intros (evs & ev & H & F & Hs). exists evs, ev. split_and!; [done..|by destruct ev].
Qed.

Section Events.

Variable env : Env.

Local Abbreviation traced := (framed quiet stopped).

Lemma traced_bind {A B} (c : M A) (k : A -> M B) :
  traced c -> (forall a, traced (k a)) -> traced (bind c k).
Proof.
  intros. eapply framed_bind;
    eauto using quiet_refl, quiet_trans, quiet_then_stopped, stopped_is_quiet.
Qed.

Lemma traced_try {A} (c : M A) (h : exn -> M A) :
  traced c -> (forall e, traced (h e)) -> traced (try_ c h).
Proof.
  intros. eapply framed_try;
    eauto using quiet_refl, quiet_trans, quiet_then_stopped, stopped_is_quiet.
Qed.

Lemma traced_yield_from {A} (c : M A) : traced c -> traced (yield_from c).
Proof.
  intros. eapply framed_yield_from;
    eauto using quiet_refl, quiet_trans, quiet_then_stopped, stopped_is_quiet.
Qed.

Lemma traced_yield ev : not_end ev -> traced (yield_ ev).
Proof.
  intros H. apply framed_step. intros w. split; [|done]. exists [ev].
  split; [done | by constructor].
Qed.

Lemma traced_stop {B} ev : stopping ev -> traced (yield_ ev ;; @return_ B).
Proof.
  intros H. apply framed_stop; [apply stopped_is_quiet|].
  intros w. exists [], ev. split_and!; [done | constructor | done].
Qed.

(** The steps that yield nothing. *)
Lemma traced_silent {A} (c : M A) :
  (forall w, emitted (snd (c w)) = emitted w /\ fst (c w) <> Returned) -> traced c.
Proof.
  intros H. apply framed_step. intros w. destruct (H w) as [He Hr]. split; [|done].
  exists []. unfold emits. by rewrite He, app_nil_r.
Qed.

Lemma traced_interrupt_check : traced (interrupt_check env).
Proof. by apply traced_silent. Qed.

Lemma traced_call_model_chat : traced (call_model_chat env).
Proof. by apply traced_silent. Qed.

Lemma traced_execute_tool n a : traced (execute_tool env n a).
Proof.
  apply traced_silent. intros w. unfold execute_tool.
  by destruct (env_execute_tool env w n a).
Qed.

Lemma traced_append_message m : traced (append_message m).
Proof. by apply traced_silent. Qed.

Lemma traced_append_named m : traced (append_named m).
Proof. by apply traced_silent. Qed.

Lemma traced_append_tool_call am e : traced (append_tool_call am e).
Proof. by apply traced_silent. Qed.

Lemma traced_get_messages : traced get_messages.
Proof. by apply traced_silent. Qed.

End Events.

(** One step of a proof that a piece of a loop is framed by the events. *)
Ltac traced_step :=
  first
    [ apply traced_stop; exact I
    | apply traced_bind; [|intros ?]
    | apply traced_try; [|intros ?]
    | apply traced_yield_from
    | apply traced_yield; exact I
    | apply traced_interrupt_check
    | apply traced_call_model_chat
    | apply traced_execute_tool
    | apply traced_append_message
    | apply traced_append_named
    | apply traced_append_tool_call
    | apply traced_get_messages
    | apply framed_ret; apply quiet_refl
    | apply framed_throw; apply quiet_refl
    | apply framed_diverge; apply quiet_refl
    | apply framed_lift; apply quiet_refl
    | match goal with
      | |- framed _ _ (if ?b then _ else _) => destruct b
      | |- framed _ _ (match ?x with _ => _ end) => destruct x
      end ].

Section EventsOfLoops.

Context {json : JsonModule}.

Variable env : Env.

Local Abbreviation traced := (framed quiet stopped).

Lemma traced_consume_response response : forall v, traced (consume_response env response v).
Proof.
  induction response as [|item rest IH]; intros v; cbn [consume_response];
    repeat (apply IH || traced_step).
Qed.

Lemma traced_base_for_tools am tools : forall names,
  traced (Base.for_tools env am names tools).
Proof.
  induction tools as [|tool rest IH]; intros names; cbn [Base.for_tools];
    unfold Base.tool_except; repeat (apply IH || traced_step).
Qed.

Lemma traced_base_round : traced (Base.round env).
Proof.
  unfold Base.round, Base._execute_tools_in_loop.
  repeat (apply traced_consume_response || apply traced_base_for_tools || traced_step).
Qed.

Lemma traced_base_while fuel : forall v, traced (Base.while_loop env fuel v).
Proof.
  induction fuel as [|n IH]; intros v; cbn [Base.while_loop];
    repeat (apply traced_base_round || apply IH || traced_step).
Qed.

Lemma traced_deepseek_for_tools tools : forall names,
  traced (DeepSeek.for_tools env names tools).
Proof.
  induction tools as [|tool rest IH]; intros names; cbn [DeepSeek.for_tools];
    unfold DeepSeek.tool_except; repeat (apply IH || traced_step).
Qed.

Lemma traced_deepseek_round : traced (DeepSeek.round env).
Proof.
  unfold DeepSeek.round, DeepSeek._execute_tools_in_loop_deepseek.
  repeat (apply traced_consume_response || apply traced_deepseek_for_tools || traced_step).
Qed.

Lemma traced_deepseek_while fuel : forall v, traced (DeepSeek.while_loop env fuel v).
Proof.
  induction fuel as [|n IH]; intros v; cbn [DeepSeek.while_loop];
    repeat (apply traced_deepseek_round || apply IH || traced_step).
Qed.

Lemma traced_minimax_consume response : forall v,
  traced (Minimax.consume_response env response v).
Proof.
  induction response as [|item rest IH]; intros v; cbn [Minimax.consume_response];
    repeat (apply IH || traced_step).
Qed.

Lemma traced_minimax_for_tools tools : forall names results,
  traced (Minimax.for_tools env names results tools).
Proof.
  induction tools as [|tool rest IH]; intros names results; cbn [Minimax.for_tools];
    unfold Minimax.tool_except; repeat (apply IH || traced_step).
Qed.

Lemma traced_minimax_round : traced (Minimax.round env).
Proof.
  unfold Minimax.round, Minimax._execute_tools_minimax_style.
  repeat (apply traced_minimax_consume || apply traced_minimax_for_tools || traced_step).
Qed.

Lemma traced_minimax_while fuel : forall first has,
  traced (Minimax.while_loop env fuel first has).
Proof.
  induction fuel as [|n IH]; intros first has; cbn [Minimax.while_loop];
    repeat (apply traced_minimax_round || apply IH || traced_step).
Qed.

Lemma ended_after w w1 w2 :
  quiet w w1 -> emitted w2 = emitted w1 ++ [ev_end] ->
  exists evs, emits w w2 (evs ++ [ev_end]) /\ Forall not_end evs.
Proof.
  intros (evs & H & F) H2. exists evs. unfold emits in *. by rewrite H2, H, app_assoc.
Qed.

Lemma failed_after w w1 text :
  quiet w w1 ->
  exists evs, emits w (emitting [ev_error text] w1) (evs ++ [ev_error text])
              /\ Forall not_end evs.
Proof.
  intros (evs & H & F). exists evs. unfold emits in *. cbn. by rewrite H, app_assoc.
Qed.

Lemma base_run_events fuel w : run_events env w (Base.chatToNextLoop env fuel w).
Proof.
  pose proof (traced_base_while fuel initial_vars w) as H.
  unfold run_events, Base.chatToNextLoop. run_step.
  destruct (Base.while_loop env fuel initial_vars w) as [[v| |e|] w1]; cbn in H.
  - unfold Base.after_loop. run_step.
    destruct (is_nil (tool_info v) && nonempty (answer_content v));
      [destruct (negb (last_is_answer (messages w1) (answer_content v)))|];
      cbn; left; (eapply ended_after; [exact H | done]).
  - exact H.
  - run_step. right. destruct (failed_after w w1 (response_error_message (env_str env e)) H)
      as (evs & He & Hf).
    by exists evs, e.
  - exact H.
Qed.

Lemma deepseek_run_events fuel w : run_events env w (DeepSeek.chatToNextLoop env fuel w).
Proof.
  pose proof (traced_deepseek_while fuel initial_vars w) as H.
  unfold run_events, DeepSeek.chatToNextLoop. run_step.
  destruct (DeepSeek.while_loop env fuel initial_vars w) as [[v| |e|] w1]; cbn in H.
  - run_step. left. eapply ended_after; [exact H | done].
  - exact H.
  - run_step. right. destruct (failed_after w w1 (response_error_message (env_str env e)) H)
      as (evs & He & Hf).
    by exists evs, e.
  - exact H.
Qed.

Lemma minimax_run_events fuel w : run_events env w (Minimax.chatToNextLoop env fuel w).
Proof.
  pose proof (traced_minimax_while fuel true true w) as H.
  unfold run_events, Minimax.chatToNextLoop. run_step.
  destruct (Minimax.while_loop env fuel true true w) as [[v| |e|] w1]; cbn in H.
  - run_step. left. eapply ended_after; [exact H | done].
  - exact H.
  - run_step. right. destruct (failed_after w w1 (response_error_message (env_str env e)) H)
      as (evs & He & Hf).
    by exists evs, e.
  - exact H.
Qed.

End EventsOfLoops.

(** X16: Whatever the model, the interrupt flag and the executor do, a run of
    [chatToNextLoop] never raises: an exception of a round is turned into an
    [error] event.  A run that ends by falling through has yielded [end] as
    its last event and no [end] before it; a run that ends by [return] has
    yielded [error] or [interrupted] as its last event and no [end] at all;
    a run that ends with the [error] event of the handler has yielded no [end]
    either, and while a run goes on it has yielded no [end]. *)
Theorem run_closes_with_one_end {json : JsonModule} (self : AnyModel) (env : Env) (fuel : nat) (w : World) :
  run_events env w (chatToNextLoop self env fuel w).
Proof.
  destruct self; cbn [chatToNextLoop].
  - apply base_run_events.
  - apply base_run_events.
  - apply minimax_run_events.
  - apply deepseek_run_events.
Qed.

(** ** The history *)

Lemma appends_refl r1 r2 w : appends r1 r2 w w.
Proof. exists []. by rewrite app_nil_r. Qed.

Lemma appends_trans r1 r2 w1 w2 w3 :
  appends r1 r2 w1 w2 -> appends r1 r2 w2 w3 -> appends r1 r2 w1 w3.
Proof.
  intros (a1 & H1 & F1) (a2 & H2 & F2). exists (a1 ++ a2).
  rewrite H2, H1, app_assoc. split; [done | by apply Forall_app].
Qed.

Section History.

Variable env : Env.
Variables r1 r2 : string.

Local Abbreviation grown := (framed (appends r1 r2) (appends r1 r2)).

Lemma grown_bind {A B} (c : M A) (k : A -> M B) :
  grown c -> (forall a, grown (k a)) -> grown (bind c k).
Proof. intros. eapply framed_bind; eauto using appends_refl, appends_trans. Qed.

Lemma grown_try {A} (c : M A) (h : exn -> M A) :
  grown c -> (forall e, grown (h e)) -> grown (try_ c h).
Proof. intros. eapply framed_try; eauto using appends_refl, appends_trans. Qed.

Lemma grown_yield_from {A} (c : M A) : grown c -> grown (yield_from c).
Proof. intros. eapply framed_yield_from; eauto using appends_refl, appends_trans. Qed.

Lemma grown_of {A} (c : M A) : (forall w, appends r1 r2 w (snd (c w))) -> grown c.
Proof. intros H w. specialize (H w). by destruct (fst (c w)). Qed.

(** The steps that leave the history alone. *)
Lemma grown_same {A} (c : M A) :
  (forall w, messages (snd (c w)) = messages w) -> grown c.
Proof.
  intros H. apply grown_of. intros w. exists []. by rewrite H, app_nil_r.
Qed.

Lemma grown_yield ev : grown (yield_ ev).
Proof. by apply grown_same. Qed.

Lemma grown_return {A} : grown (@return_ A).
Proof. by apply grown_same. Qed.

Lemma grown_interrupt_check : grown (interrupt_check env).
Proof. by apply grown_same. Qed.

Lemma grown_call_model_chat : grown (call_model_chat env).
Proof. by apply grown_same. Qed.

Lemma grown_execute_tool n a : grown (execute_tool env n a).
Proof.
  apply grown_same. intros w. unfold execute_tool.
  by destruct (env_execute_tool env w n a).
Qed.

Lemma grown_get_messages : grown get_messages.
Proof. by apply grown_same. Qed.

Lemma grown_append_message m :
  role m = r1 \/ role m = r2 -> grown (append_message m).
Proof.
  intros H. apply grown_of. intros w. exists [m]. split; [done | by constructor].
Qed.

End History.

(** One step of a proof that a piece of a loop only appends to the
    history. *)
Ltac grown_step :=
  first
    [ apply grown_bind; [|intros ?]
    | apply grown_try; [|intros ?]
    | apply grown_yield_from
    | apply grown_yield
    | apply grown_return
    | apply grown_interrupt_check
    | apply grown_call_model_chat
    | apply grown_execute_tool
    | apply grown_get_messages
    | apply grown_append_message; cbn; auto
    | apply framed_ret; apply appends_refl
    | apply framed_throw; apply appends_refl
    | apply framed_diverge; apply appends_refl
    | apply framed_lift; apply appends_refl
    | match goal with
      | |- framed _ _ (if ?b then _ else _) => destruct b
      | |- framed _ _ (match ?x with _ => _ end) => destruct x
      end ].

Section HistoryOfLoops.

Context {json : JsonModule}.

Variable env : Env.

Local Abbreviation grown := (framed (appends "assistant" "tool") (appends "assistant" "tool")).
Local Abbreviation grown' := (framed (appends "assistant" "user") (appends "assistant" "user")).

Lemma grown_consume_response r2 response : forall v,
  framed (appends "assistant" r2) (appends "assistant" r2)
    (consume_response env response v).
Proof.
  intros v. apply grown_same. intros w. apply consume_response_frame.
Qed.

Lemma grown_base_execute_tools tools : grown (Base._execute_tools_in_loop env tools).
Proof.
  apply grown_of. intros w.
  destruct (base_execute_tools_history env tools w) as (m & tail & Hm & Hr & _ & Ht).
  exists (m :: tail). split; [done|]. constructor; [by left|].
  eapply Forall_impl; [exact Ht|]. cbn. auto.
Qed.

Lemma grown_base_round : grown (Base.round env).
Proof.
  unfold Base.round.
  repeat (apply grown_consume_response || apply grown_base_execute_tools || grown_step).
Qed.

Lemma grown_base_while fuel : forall v, grown (Base.while_loop env fuel v).
Proof.
  induction fuel as [|n IH]; intros v; cbn [Base.while_loop];
    repeat (apply grown_base_round || apply IH || grown_step).
Qed.

Lemma grown_base_run fuel : grown (Base.chatToNextLoop env fuel).
Proof.
  unfold Base.chatToNextLoop, Base.after_loop.
  repeat (apply grown_base_while || grown_step).
Qed.

Lemma grown_deepseek_for_tools tools : forall names,
  grown (DeepSeek.for_tools env names tools).
Proof.
  induction tools as [|tool rest IH]; intros names; cbn [DeepSeek.for_tools];
    unfold DeepSeek.tool_except; repeat (apply IH || grown_step).
Qed.

Lemma grown_deepseek_round : grown (DeepSeek.round env).
Proof.
  unfold DeepSeek.round, DeepSeek._execute_tools_in_loop_deepseek.
  repeat (apply grown_consume_response || apply grown_deepseek_for_tools || grown_step).
Qed.

Lemma grown_deepseek_while fuel : forall v, grown (DeepSeek.while_loop env fuel v).
Proof.
  induction fuel as [|n IH]; intros v; cbn [DeepSeek.while_loop];
    repeat (apply grown_deepseek_round || apply IH || grown_step).
Qed.

Lemma grown_deepseek_run fuel : grown (DeepSeek.chatToNextLoop env fuel).
Proof.
  unfold DeepSeek.chatToNextLoop.
  repeat (apply grown_deepseek_while || grown_step).
Qed.

Lemma grown_minimax_consume response : forall v,
  grown' (Minimax.consume_response env response v).
Proof.
  intros v. apply grown_same. intros w. apply minimax_consume_frame.
Qed.

Lemma grown_minimax_for_tools tools : forall names results,
  grown' (Minimax.for_tools env names results tools).
Proof.
  induction tools as [|tool rest IH]; intros names results; cbn [Minimax.for_tools];
    unfold Minimax.tool_except; repeat (apply IH || grown_step).
Qed.

Lemma grown_minimax_round : grown' (Minimax.round env).
Proof.
  unfold Minimax.round, Minimax._execute_tools_minimax_style.
  repeat (apply grown_minimax_consume || apply grown_minimax_for_tools || grown_step).
Qed.

Lemma grown_minimax_while fuel : forall first has,
  grown' (Minimax.while_loop env fuel first has).
Proof.
  induction fuel as [|n IH]; intros first has; cbn [Minimax.while_loop];
    repeat (apply grown_minimax_round || apply IH || grown_step).
Qed.

Lemma grown_minimax_run fuel : grown' (Minimax.chatToNextLoop env fuel).
Proof.
  unfold Minimax.chatToNextLoop.
  repeat (apply grown_minimax_while || grown_step).
Qed.

End HistoryOfLoops.

Lemma grown_appends {A} r1 r2 (c : M A) w :
  framed (appends r1 r2) (appends r1 r2) c -> appends r1 r2 w (snd (c w)).
Proof. intros H. specialize (H w). by destruct (fst (c w)). Qed.

(** X17: A run of [chatToNextLoop] only appends to the history it is given: the
    messages that were there stay as they were and where they were, whatever
    the model, the interrupt flag and the executor do and however the run
    stops, and every message the run adds is an assistant message or a message
    with the role of the tool results of the class: [tool], or [user] for the
    Minimax class. *)
Theorem run_only_appends {json : JsonModule} (self : AnyModel) (env : Env) (fuel : nat) (w : World) :
  appends "assistant" (result_role self) w (snd (chatToNextLoop self env fuel w)).
Proof.
  apply grown_appends. destruct self; cbn [chatToNextLoop result_role].
  - apply grown_base_run.
  - apply grown_base_run.
  - apply grown_minimax_run.
  - apply grown_deepseek_run.
Qed.

(** * An executed call whose arguments [json.loads] refuses *)

Lemma forallb_false_intro {A} (f : A -> bool) (l : list A) (x : A) :
  x ∈ l -> f x = false -> forallb f l = false.
Proof.
  intros Hin Hx. induction Hin; cbn.
  - by rewrite Hx.
  - rewrite IHHin by done. apply andb_false_r.
Qed.

(** X13: The argument parser of the loops accepts texts that [json.loads]
    refuses: the empty text, and a text that decodes only after its single
    quotes are replaced.  When the base loop, with an executor that never
    raises and calls for each of which the parser returns, has run to its end
    and executed a call with such arguments, the history it leaves cannot be
    sent through the Anthropic adapter: the conversion raises what
    [json.loads] raises on the argument text of a listed call, and the next
    [model_chat] yields one error event, for that exception, and nothing
    else. *)
Theorem executed_undecodable_call_stops_anthropic {json : JsonModule} (env : Env)
    (tools : list ToolInfo) (w : World) (json_dumps : bool -> JSON -> string)
    (py_str : exn -> string) (self : Anthropic.Model) (tool : ToolInfo) :
  executor_total env ->
  Forall parses tools ->
  fst (Base._execute_tools_in_loop env tools w) = Val tt ->
  tool ∈ tools ->
  runs tool = true ->
  decodes (ti_arguments tool) = false ->
  exists e m,
    Anthropic._convert_messages_to_anthropic
      (messages (snd (Base._execute_tools_in_loop env tools w)))
    = Raise e
    /\ m ∈ messages (snd (Base._execute_tools_in_loop env tools w))
    /\ undecoded_call e m
    /\ Anthropic.model_chat json_dumps py_str self
         (messages (snd (Base._execute_tools_in_loop env tools w)))
       = [error_event py_str e].
Proof.
  intros Hexec Hparse Hv Hin Hruns Hdec.
  destruct (base_round_lists_parsed_calls_aux env tools w Hexec Hparse)
    as (k & added & _ & Hk & Hms & _).
  rewrite (Hk Hv), firstn_all in Hms.
  destruct (convert_messages_cases
              (messages (snd (Base._execute_tools_in_loop env tools w))))
    as [_ Hbad].
  destruct Hbad as (e & m & Hraise & Hm & Hu).
  { rewrite Hms, forallb_app. cbn [forallb].
    replace (convertible (listing (map entry_of (List.filter runs tools)))) with false.
    { by rewrite andb_false_r. }
    symmetry. unfold convertible, listing. cbn.
    apply (forallb_false_intro _ _ (entry_of tool)); [|done].
    apply list_elem_of_fmap. exists tool. split; [done|].
    apply list_elem_of_In, filter_In. split; [by apply list_elem_of_In | done]. }
  exists e, m. split_and!; [done..|].
  unfold Anthropic.model_chat. by rewrite Hraise.
Qed.

(** * The tool loops of the DeepSeek and the Minimax class *)

Section OtherToolLoops.

Context {json : JsonModule}.

Variable env : Env.

Lemma deepseek_for_tools_answers tools : forall names w,
  Forall parses tools ->
  exists k added,
    k <= length tools
    /\ (fst (DeepSeek.for_tools env names tools w) = Val tt -> k = length tools)
    /\ messages (snd (DeepSeek.for_tools env names tools w)) = messages w ++ added
    /\ Forall2 answers (take k tools) added.
Proof.
  induction tools as [|tool rest IH]; intros names w Hparse.
  - exists 0, []. cbn. rewrite app_nil_r. split_and!; [lia | done | done | constructor].
  - apply Forall_cons in Hparse as [[args Hp] Hparse].
    cbn [DeepSeek.for_tools]. run_step.
    destruct (env_interrupt_check env w).
    { exists 0, []. cbn. rewrite app_nil_r. split_and!; [lia | done | done | constructor]. }
    rewrite Hp.
    destruct args; run_step;
      try (destruct (env_execute_tool env _ _ _); run_step);
      match goal with
      | |- context [DeepSeek.for_tools env ?n rest ?w'] =>
          destruct (IH n w' Hparse) as (k & added & Hk & Hval & -> & Hall)
      end;
      cbn; eexists (S k), (_ :: added); cbn [take];
      (split_and!;
         [lia | by intros Hv; rewrite (Hval Hv) | by rewrite <- app_assoc
         | constructor; [by eexists | done]]).
Qed.

Lemma minimax_for_tools_results tools : forall names results w,
  Forall parses tools ->
  match fst (Minimax.for_tools env names results tools w) with
  | Val all =>
      exists added, all = results ++ added /\ Forall2 tool_result_of tools added
  | Returned =>
      exists evs,
        emitted (snd (Minimax.for_tools env names results tools w))
        = evs ++ [ev_interrupted interrupted_message]
  | Thrown _ | Diverged => False
  end
  /\ messages (snd (Minimax.for_tools env names results tools w)) = messages w.
Proof.
  induction tools as [|tool rest IH]; intros names results w Hparse.
  - cbn. split; [|done]. exists []. by rewrite app_nil_r.
  - apply Forall_cons in Hparse as [[args Hp] Hparse].
    cbn [Minimax.for_tools]. run_step.
    destruct (env_interrupt_check env w).
    { cbn. split; [by eexists | done]. }
    rewrite Hp.
    destruct args; run_step;
      try (destruct (env_execute_tool env _ _ _); run_step);
      match goal with
      | |- context [Minimax.for_tools env ?n (results ++ [?b]) rest ?w0] =>
          destruct (IH n (results ++ [b]) w0 Hparse) as [Hres Hm];
          destruct (Minimax.for_tools env n (results ++ [b]) rest w0) as [[all| |?|] w1]
      end;
      cbn in Hres, Hm |- *; try done;
      (split; [|done]);
      destruct Hres as (added & -> & Hall);
      eexists (_ :: added); rewrite <- app_assoc;
      (split; [reflexivity | constructor; [by eexists | done]]).
Qed.

End OtherToolLoops.

(** X14: The tool part of a round of the DeepSeek loop appends one assistant
    message that lists every call of the round, whether its arguments parse
    to a value or to [None] and whatever the executor does, and then, when the
    argument parser returns for each of the calls, one tool message for each
    call it has come to, in order: all of them unless an interrupt stops
    it. *)
Theorem deepseek_round_lists_every_call {json : JsonModule} (env : Env)
    (tools : list ToolInfo) (answer reasoning : string) (w : World) :
  Forall parses tools ->
  exists k added,
    k <= length tools
    /\ (fst (DeepSeek._execute_tools_in_loop_deepseek env tools answer reasoning w) = Val tt
        -> k = length tools)
    /\ messages (snd (DeepSeek._execute_tools_in_loop_deepseek env tools answer reasoning w))
       = messages w ++ DeepSeek.assistant_message tools answer reasoning :: added
    /\ tool_calls (DeepSeek.assistant_message tools answer reasoning)
       = Some (map entry_of tools)
    /\ Forall2 answers (take k tools) added.
Proof.
  intros Hparse. unfold DeepSeek._execute_tools_in_loop_deepseek. run_step.
  match goal with |- context [DeepSeek.for_tools env ?n tools ?w0] =>
    destruct (deepseek_for_tools_answers env tools n w0 Hparse)
      as (k & added & Hk & Hval & Hms & Hall)
  end.
  exists k, added. rewrite Hms. cbn. rewrite <- app_assoc.
  split_and!; [done | | done | done | done].
  intros Hv. apply Hval.
  match goal with |- fst ?p = _ => by destruct p as [[[]| | |] ?] end.
Qed.

(** X15: The tool part of a round of the Minimax loop is reached with calls
    whose argument texts [json.loads] has decoded for the [tool_use] blocks.
    On such calls it writes its results all at once or not at all.  When it
    runs to its end it appends one user message with one [tool_result] block
    for each call, in order; when an interrupt stops it, it has yielded
    [interrupted] last and leaves the history as it was, so that the
    [tool_use] blocks of the assistant message stay without results.  It does
    not raise. *)
Theorem minimax_results_all_or_nothing {json : JsonModule} (env : Env)
    (tools : list ToolInfo) (w : World) :
  Forall (fun tool => decodes (ti_arguments tool) = true) tools ->
  match fst (Minimax._execute_tools_minimax_style env tools w) with
  | Val _ =>
      exists results,
        messages (snd (Minimax._execute_tools_minimax_style env tools w))
        = messages w ++ [plain_message "user" (CBlocks results)]
        /\ Forall2 tool_result_of tools results
  | Returned =>
      messages (snd (Minimax._execute_tools_minimax_style env tools w)) = messages w
      /\ exists evs,
           emitted (snd (Minimax._execute_tools_minimax_style env tools w))
           = evs ++ [ev_interrupted interrupted_message]
  | Thrown _ | Diverged => False
  end.
Proof.
  intros Hdec.
  assert (Forall parses tools) as Hparse.
  { eapply Forall_impl; [exact Hdec|]. intros tool. unfold decodes.
    destruct (loads (ti_arguments tool)) as [v|] eqn:Hl; [|done].
    intros _. by eapply parses_decoded. }
  unfold Minimax._execute_tools_minimax_style. run_step.
  destruct (minimax_for_tools_results env tools None [] w Hparse) as [Hres Hm].
  destruct (Minimax.for_tools env None [] tools w) as [[all| |e|] w1];
    cbn in Hres, Hm |- *; try done.
  destruct Hres as (added & -> & Hall). exists added. by rewrite Hm.
Qed.

(** * A failure of the adapter ends the run *)

Section ErrorItem.

Context {json : JsonModule}.

Variable env : Env.
Hypothesis never_interrupted : forall w, env_interrupt_check env w = false.

Lemma consume_response_error item rest : forall pre v w,
  texts_only pre ->
  gorType item = gor_error ->
  exists w',
    consume_response env (pre ++ item :: rest) v w = (Returned, w')
    /\ messages w' = messages w
    /\ emitted w' = emitted w ++ flat_map out_of_item pre ++ [ev_error (msg_content item)]
    /\ executor_calls w' = executor_calls w
    /\ model_calls w' = model_calls w.
Proof.
  induction pre as [|p pre IH]; intros v w Hpre Herr.
  - cbn [app consume_response]. run_step. rewrite never_interrupted, Herr. cbn.
    eexists. split; [reflexivity|]. done.
  - apply Forall_cons in Hpre as [Hp Hpre].
    cbn [app consume_response]. run_step. rewrite never_interrupted.
    unfold out_of_item at 1. cbn [flat_map].
    destruct Hp as [Hp|Hp]; rewrite Hp; cbn;
      match goal with |- context [consume_response env _ ?v' ?w'] =>
        destruct (IH v' w' Hpre Herr) as (w1 & -> & Hm & He & Hx & Hc)
      end;
      exists w1; cbn in *; rewrite He, <- !app_assoc; done.
Qed.

Lemma minimax_consume_error item rest : forall pre v w,
  texts_only pre ->
  gorType item = gor_error ->
  exists w',
    Minimax.consume_response env (pre ++ item :: rest) v w = (Returned, w')
    /\ messages w' = messages w
    /\ emitted w' = emitted w ++ flat_map out_of_item pre ++ [ev_error (msg_content item)]
    /\ executor_calls w' = executor_calls w
    /\ model_calls w' = model_calls w.
Proof.
  induction pre as [|p pre IH]; intros v w Hpre Herr.
  - cbn [app Minimax.consume_response]. run_step. rewrite never_interrupted, Herr. cbn.
    eexists. split; [reflexivity|]. done.
  - apply Forall_cons in Hpre as [Hp Hpre].
    cbn [app Minimax.consume_response]. run_step. rewrite never_interrupted.
    unfold out_of_item at 1. cbn [flat_map].
    destruct Hp as [Hp|Hp]; rewrite Hp; cbn;
      match goal with |- context [Minimax.consume_response env _ ?v' ?w'] =>
        destruct (IH v' w' Hpre Herr) as (w1 & -> & Hm & He & Hx & Hc)
      end;
      exists w1; cbn in *; rewrite He, <- !app_assoc; done.
Qed.

End ErrorItem.

(** X18: When the response of the model in the first round is some think and
    answer items followed by an error item, which is how every adapter
    reports a failure, and no interrupt is requested, the run of any of the
    loops ends there by [return]: it has yielded the events of the text items
    and then one [error] event with the content of the error item, it has
    asked the model once and the executor never, and the history is as it
    was, so the answer text streamed before the failure is not kept. *)
Theorem error_item_ends_run {json : JsonModule} (self : AnyModel) (env : Env) (fuel : nat) (w : World)
    (pre : list MsgReturn) (item : MsgReturn) (rest : list MsgReturn) :
  (forall w', env_interrupt_check env w' = false) ->
  env_model_chat env w = pre ++ item :: rest ->
  texts_only pre ->
  gorType item = gor_error ->
  exists w',
    chatToNextLoop self env (S fuel) w = (Returned, w')
    /\ messages w' = messages w
    /\ emitted w' = emitted w ++ flat_map out_of_item pre ++ [ev_error (msg_content item)]
    /\ executor_calls w' = executor_calls w
    /\ model_calls w' = S (model_calls w).
Proof.
  intros Hi Hresp Hpre Herr.
  destruct (consume_response_error env Hi item rest pre round_vars (asked w) Hpre Herr)
    as (w1 & Hc & Hm & He & Hx & Hn).
  destruct (minimax_consume_error env Hi item rest pre
              (Minimax.mkVars EmptyString EmptyString []) (asked w) Hpre Herr)
    as (w2 & Hc2 & Hm2 & He2 & Hx2 & Hn2).
  rewrite <- Hresp in Hc, Hc2.
  destruct self; cbn [chatToNextLoop].
  - exists w1. split; [by apply base_stops_while_reading | done].
  - exists w1. split; [by apply base_stops_while_reading | done].
  - exists w2. split; [|done].
    unfold Minimax.chatToNextLoop, try_, bind at 1.
    cbn [Minimax.while_loop orb].
    unfold bind at 1, Minimax.round, bind at 1, call_model_chat. unfold asked in Hc2.
    unfold bind at 1. by rewrite Hc2.
  - exists w1. split; [|done].
    unfold DeepSeek.chatToNextLoop, try_, bind at 1.
    cbn [DeepSeek.while_loop initial_vars is_first_round orb].
    unfold bind at 1, DeepSeek.round, bind at 1, call_model_chat. unfold asked in Hc.
    unfold bind at 1. by rewrite Hc.
Qed.

(** * A round in which the model only speaks *)

Section PlainRound.

Context {json : JsonModule}.

Variable env : Env.
Hypothesis never_interrupted : forall w, env_interrupt_check env w = false.

Lemma consume_response_speaks response : forall v w,
  speaks response ->
  exists v' w',
    consume_response env response v w = (Val v', w')
    /\ tool_info v' = tool_info v.
Proof.
  induction response as [|item rest IH]; intros v w Hs.
  - by exists v, w.
  - apply Forall_cons in Hs as [[Htool Herr] Hs].
    cbn [consume_response]. run_step. rewrite never_interrupted.
    destruct (gorType item); try done; cbn;
      match goal with |- context [consume_response env rest ?v0 ?w0] =>
        destruct (IH v0 w0 Hs) as (v' & w' & -> & Ht)
      end; by exists v', w'.
Qed.

Lemma minimax_consume_speaks response : forall v w,
  speaks response ->
  exists v' w',
    Minimax.consume_response env response v w = (Val v', w')
    /\ Minimax.tool_use_blocks v' = Minimax.tool_use_blocks v
    /\ emitted w' = emitted w ++ flat_map out_of_item response
    /\ executor_calls w' = executor_calls w
    /\ model_calls w' = model_calls w.
Proof.
  induction response as [|item rest IH]; intros v w Hs.
  - exists v, w. cbn. by rewrite app_nil_r.
  - apply Forall_cons in Hs as [[Htool Herr] Hs].
    cbn [Minimax.consume_response]. run_step. rewrite never_interrupted.
    unfold out_of_item at 1. cbn [flat_map].
    destruct (gorType item); try done; cbn;
      match goal with |- context [Minimax.consume_response env rest ?v0 ?w0] =>
        destruct (IH v0 w0 Hs) as (v' & w' & -> & Ht & He & Hx & Hc)
      end; exists v', w'; cbn in *; rewrite He, <- ?app_assoc; done.
Qed.

(** The history after a round without tool calls. *)
Lemma base_plain_run fuel w :
  speaks (env_model_chat env w) ->
  exists w',
    Base.chatToNextLoop env (S fuel) w = (Val tt, w')
    /\ messages w'
       = messages w
         ++ (if nonempty (answer_text (env_model_chat env w))
             then [plain_message "assistant" (CStr (answer_text (env_model_chat env w)))]
             else [])
    /\ emitted w' = emitted w ++ flat_map out_of_item (env_model_chat env w) ++ [ev_end]
    /\ executor_calls w' = executor_calls w
    /\ model_calls w' = S (model_calls w).
Proof.
  intros Hs.
  destruct (consume_response_speaks (env_model_chat env w) round_vars (asked w) Hs)
    as (v & w1 & Hc & Ht).
  pose proof (consume_response_frame env (env_model_chat env w) round_vars (asked w))
    as (Hm & Hx & Hn).
  rewrite Hc in Hm, Hx, Hn. cbn in Hm, Hx, Hn, Ht.
  pose proof (consume_response_val env _ _ _ _ _ Hc) as (He & Ha & _ & Hfirst & _).
  cbn in He, Ha, Hfirst. rewrite append_empty_l in Ha.
  unfold Base.chatToNextLoop, try_, bind at 1.
  cbn [Base.while_loop initial_vars is_first_round orb]. unfold bind at 1.
  rewrite (base_round_no_tools env w v w1 Hc Ht).
  match goal with |- context [Base.while_loop env fuel v ?w2] =>
    assert (Base.while_loop env fuel v w2 = (Val v, w2)) as ->
      by (destruct fuel; cbn [Base.while_loop]; rewrite Hfirst, Ht; done)
  end.
  unfold Base.after_loop. run_step. rewrite Ht, <- Ha. cbn [is_nil andb].
  destruct (nonempty (answer_content v)) eqn:Hne; cbn.
  - rewrite last_is_answer_appended. cbn. eexists. split; [reflexivity|]. cbn.
    rewrite Hm, He, <- app_assoc. done.
  - eexists. split; [reflexivity|]. cbn.
    rewrite Hm, He, <- app_assoc, app_nil_r. done.
Qed.

Lemma deepseek_plain_run fuel w :
  speaks (env_model_chat env w) ->
  exists w',
    DeepSeek.chatToNextLoop env (S fuel) w = (Val tt, w')
    /\ messages w'
       = messages w
         ++ (if nonempty (answer_text (env_model_chat env w))
             then [plain_message "assistant" (CStr (answer_text (env_model_chat env w)))]
             else [])
    /\ emitted w' = emitted w ++ flat_map out_of_item (env_model_chat env w) ++ [ev_end]
    /\ executor_calls w' = executor_calls w
    /\ model_calls w' = S (model_calls w).
Proof.
  intros Hs.
  destruct (consume_response_speaks (env_model_chat env w) round_vars (asked w) Hs)
    as (v & w1 & Hc & Ht).
  pose proof (consume_response_frame env (env_model_chat env w) round_vars (asked w))
    as (Hm & Hx & Hn).
  rewrite Hc in Hm, Hx, Hn. cbn in Hm, Hx, Hn, Ht.
  pose proof (consume_response_val env _ _ _ _ _ Hc) as (He & Ha & _ & Hfirst & _).
  cbn in He, Ha, Hfirst. rewrite append_empty_l in Ha.
  unfold DeepSeek.chatToNextLoop, try_, bind at 1.
  cbn [DeepSeek.while_loop initial_vars is_first_round orb]. unfold bind at 1.
  rewrite (deepseek_round_no_tools env w v w1 Hc Ht).
  match goal with |- context [DeepSeek.while_loop env fuel v ?w2] =>
    assert (DeepSeek.while_loop env fuel v w2 = (Val v, w2)) as ->
      by (destruct fuel; cbn [DeepSeek.while_loop]; rewrite Hfirst, Ht; done)
  end.
  run_step. rewrite <- Ha.
  destruct (nonempty (answer_content v)) eqn:Hne; cbn.
  - eexists. split; [reflexivity|]. cbn. rewrite Hm, He, <- app_assoc. done.
  - eexists. split; [reflexivity|]. cbn. rewrite Hm, He, <- app_assoc, app_nil_r. done.
Qed.

Lemma minimax_plain_run fuel w :
  speaks (env_model_chat env w) ->
  exists w',
    Minimax.chatToNextLoop env (S fuel) w = (Val tt, w')
    /\ messages w'
       = messages w
         ++ (if nonempty (answer_text (env_model_chat env w))
             then [plain_message "assistant" (CStr (answer_text (env_model_chat env w)))]
             else [])
    /\ emitted w' = emitted w ++ flat_map out_of_item (env_model_chat env w) ++ [ev_end]
    /\ executor_calls w' = executor_calls w
    /\ model_calls w' = S (model_calls w).
Proof.
  intros Hs.
  destruct (minimax_consume_speaks (env_model_chat env w)
              (Minimax.mkVars EmptyString EmptyString []) (asked w) Hs)
    as (v & w1 & Hc & Ht & He & Hx & Hn).
  pose proof (minimax_consume_frame env (env_model_chat env w)
                (Minimax.mkVars EmptyString EmptyString []) (asked w)) as Hm.
  rewrite Hc in Hm. cbn in Hm, Ht, He, Hx, Hn.
  pose proof (minimax_consume_val env _ _ _ _ _ Hc) as (_ & Ha).
  cbn in Ha. rewrite append_empty_l in Ha.
  unfold Minimax.chatToNextLoop, try_, bind at 1.
  cbn [Minimax.while_loop orb]. unfold bind at 1.
  unfold Minimax.round. run_step. unfold asked in Hc. rewrite Hc, Ht. cbn.
  rewrite <- Ha.
  destruct (nonempty (Minimax.mm_answer_content v)) eqn:Hne; cbn;
    destruct fuel; cbn.
  all: eexists; (split; [reflexivity|]); cbn;
    rewrite Hm, He, <- ?app_assoc, ?app_nil_r; done.
Qed.

End PlainRound.

(** X19: When no interrupt is requested and the response of the model in the
    first round holds no tool item and no error item, every one of the loops
    ends the run after that round: it yields the think and answer events of
    the items and then [end], asks the model once and the executor never, and
    appends to the history one assistant message with the answer texts joined,
    or nothing at all when the answer is empty.  The three classes agree on
    such a round, and the check of the base loop after the [while] adds no
    second copy of the answer. *)
Theorem plain_round_ends_run {json : JsonModule} (self : AnyModel) (env : Env) (fuel : nat) (w : World) :
  (forall w', env_interrupt_check env w' = false) ->
  speaks (env_model_chat env w) ->
  exists w',
    chatToNextLoop self env (S fuel) w = (Val tt, w')
    /\ messages w'
       = messages w
         ++ (if nonempty (answer_text (env_model_chat env w))
             then [plain_message "assistant" (CStr (answer_text (env_model_chat env w)))]
             else [])
    /\ emitted w' = emitted w ++ flat_map out_of_item (env_model_chat env w) ++ [ev_end]
    /\ executor_calls w' = executor_calls w
    /\ model_calls w' = S (model_calls w).
Proof.
  intros Hi Hs. destruct self; cbn [chatToNextLoop].
  - by apply base_plain_run.
  - by apply base_plain_run.
  - by apply minimax_plain_run.
  - by apply deepseek_plain_run.
Qed.

(** * The theorems at the inputs of the examples *)

Lemma model_tool_init_registers_witness :
  exists reg,
    Registry.model_tool_init Registry.empty_registry [add_tool; add_tool] = (Ok tt, reg)
    /\ Registry.tool_dict reg !! "add" = Some add_tool
    /\ Registry.tool_dict reg !! "mul" = None
    /\ length (Registry.tools reg) = 2.
Proof.
  edestruct (model_tool_init_registers string Registry.empty_registry [add_tool; add_tool])
    as (reg & Hinit & Hdict & Hnames & _).
  - repeat (constructor; [split; eexists; reflexivity|]). constructor.
  - exists reg. split_and!; [exact Hinit | by rewrite Hdict | by rewrite Hdict |].
    apply (f_equal length) in Hnames. by rewrite !length_map in Hnames.
Defined.

Lemma model_tool_init_half_done_witness :
  exists d,
    Registry.model_tool_init Registry.empty_registry [add_tool; bare_tool]
    = (Raise (KeyError "description"), Registry.mkRegistry [] d)
    /\ d !! "bare" = Some bare_tool.
Proof.
  edestruct (model_tool_init_half_done string Registry.empty_registry [add_tool; bare_tool])
    as (d & Hinit & Hdict).
  - repeat (constructor; [eexists; reflexivity|]). constructor.
  - apply Exists_cons_tl, Exists_cons_hd. reflexivity.
  - exists d. split; [exact Hinit | by rewrite Hdict].
Defined.

Lemma execute_tool_after_init_witness :
  Registry._execute_tool (snd (Registry.model_tool_init Registry.empty_registry [add_tool]))
    "mul" (JObj [])
  = Raise (ValueError "Tool mul not found")
  /\ Registry._execute_tool
       (snd (Registry.model_tool_init Registry.empty_registry [add_tool]))
       "add" (JObj [])
     = Ok "3".
Proof.
  split.
  - rewrite (execute_tool_after_init string Registry.empty_registry
               (snd (Registry.model_tool_init Registry.empty_registry [add_tool]))
               [add_tool] "mul" (JObj []) eq_refl).
    reflexivity.
  - rewrite (execute_tool_after_init string Registry.empty_registry
               (snd (Registry.model_tool_init Registry.empty_registry [add_tool]))
               [add_tool] "add" (JObj []) eq_refl).
    reflexivity.
Defined.

Lemma anthropic_tools_keep_all_witness :
  Registry._convert_openai_tools_to_anthropic
    [Registry.mkToolSchema "function" "add" "adds two numbers" Registry.default_parameters]
  = [Registry.mkAnthropicTool "add" "adds two numbers" Registry.default_parameters].
Proof.
  exact (proj1 (anthropic_tools_keep_all string [add_tool]
                  [Registry.mkToolSchema "function" "add" "adds two numbers"
                     Registry.default_parameters]
                  eq_refl)).
Defined.

Lemma openai_stream_yields_witness :
  map gorType (OpenAI.model_chat plain_dumps plain_str streaming_openai user_asks)
  = [gor_think; gor_answer; gor_tool; gor_end].
Proof.
  edestruct (openai_stream_yields plain_dumps plain_str streaming_openai user_asks
               spoken_chunks) as [].
  - reflexivity.
  - reflexivity.
  - vm_compute. reflexivity.
  - vm_compute. reflexivity.
Defined.

Lemma error_follows_text_only_witness :
  OpenAI.model_chat plain_dumps plain_str broken_openai user_asks
  = [OpenAI.think_event "add them"; OpenAI.answer_event "3"]
    ++ [error_event plain_str (OtherException "boom")]
  /\ texts_only [OpenAI.think_event "add them"; OpenAI.answer_event "3"].
Proof.
  split; [vm_compute; reflexivity|].
  apply (error_follows_text_only plain_dumps plain_str (openai_chat broken_openai) user_asks
           [OpenAI.think_event "add them"; OpenAI.answer_event "3"]
           (error_event plain_str (OtherException "boom"))).
  - vm_compute. reflexivity.
  - reflexivity.
Defined.

Lemma anthropic_stream_yields_witness :
  map msg_content (Anthropic.model_chat plain_dumps plain_str streaming_anthropic user_asks)
  = ["add "; "them"; "3"; "{}"; ""]
  /\ omap block_call spoken_blocks = [mkToolCall "c1" "function" "now" ""].
Proof.
  split; [|reflexivity].
  rewrite (anthropic_stream_yields plain_dumps plain_str streaming_anthropic user_asks
             [Anthropic.mkAMessage "user" (Anthropic.APlain (CStr "What is 1+2?"))]
             spoken_blocks eq_refl eq_refl eq_refl).
  vm_compute. reflexivity.
Defined.

Lemma anthropic_normal_yields_witness :
  map gorType (Anthropic.model_chat plain_dumps plain_str whole_anthropic user_asks)
  = [gor_think; gor_answer; gor_tool; gor_end].
Proof.
  rewrite (anthropic_normal_yields plain_dumps plain_str whole_anthropic user_asks
             [Anthropic.mkAMessage "user" (Anthropic.APlain (CStr "What is 1+2?"))]
             (Anthropic.mkResponse
                [Anthropic.RText "3"; Anthropic.RThinking "add them";
                 Anthropic.RToolUse "c1" "add" (JObj [])])
             eq_refl eq_refl eq_refl).
  vm_compute. reflexivity.
Defined.

Lemma base_round_lists_parsed_calls_witness :
  exists added,
    messages (snd (Base._execute_tools_in_loop answering_env [bad_tool; good_tool]
                     (start user_asks)))
    = user_asks ++ listing [entry_of good_tool] :: added
    /\ Forall2 answers [bad_tool; good_tool] added.
Proof.
  edestruct (base_round_lists_parsed_calls answering_env [bad_tool; good_tool]
               (start user_asks)) as (k & added & _ & Hk & Hm & Hall).
  - intros w tool_name tool_args. by exists "3".
  - constructor; [by exists JNull|]. constructor; [by exists (JObj [])|]. constructor.
  - rewrite Hk in Hm, Hall by (vm_compute; reflexivity).
    exists added. split; [exact Hm | exact Hall].
Defined.

Lemma simple_executor_lists_served_calls_witness :
  exists added,
    messages (snd (Base._execute_tools_in_loop
                     (with_simple_executor answering_env (fun r : string => r)
                        {["add" := fun _ => Ok "3"]})
                     [good_tool; mkToolInfo "c3" "mul" "{}"] (start user_asks)))
    = user_asks ++ listing [entry_of good_tool] :: added
    /\ Forall2 answers [good_tool; mkToolInfo "c3" "mul" "{}"] added.
Proof.
  edestruct (simple_executor_lists_served_calls answering_env (fun r : string => r)
               {["add" := fun _ => Ok "3"]} [good_tool; mkToolInfo "c3" "mul" "{}"]
               (start user_asks)) as (k & added & _ & Hk & Hm & Hall).
  - constructor; [by exists (JObj [])|]. constructor; [by exists (JObj [])|]. constructor.
  - rewrite Hk in Hm, Hall by (vm_compute; reflexivity).
    exists added. split; [exact Hm | exact Hall].
Defined.

Lemma executed_undecodable_call_stops_anthropic_witness :
  exists e m,
    Anthropic._convert_messages_to_anthropic
      (messages (snd (Base._execute_tools_in_loop no_arguments_env
                        [mkToolInfo "c1" "now" ""] (start user_asks))))
    = Raise e
    /\ m ∈ messages (snd (Base._execute_tools_in_loop no_arguments_env
                            [mkToolInfo "c1" "now" ""] (start user_asks)))
    /\ undecoded_call e m
    /\ Anthropic.model_chat plain_dumps plain_str streaming_anthropic
         (messages (snd (Base._execute_tools_in_loop no_arguments_env
                           [mkToolInfo "c1" "now" ""] (start user_asks))))
       = [error_event plain_str e].
Proof.
  apply (executed_undecodable_call_stops_anthropic no_arguments_env
           [mkToolInfo "c1" "now" ""] (start user_asks) plain_dumps plain_str
           streaming_anthropic (mkToolInfo "c1" "now" "")).
  - intros w tool_name tool_args. by exists "noon".
  - constructor; [by exists (JObj [])|]. constructor.
  - vm_compute. reflexivity.
  - apply list_elem_of_here.
  - vm_compute. reflexivity.
  - vm_compute. reflexivity.
Defined.

Lemma deepseek_round_lists_every_call_witness :
  exists added,
    messages (snd (DeepSeek._execute_tools_in_loop_deepseek failing_env
                     [bad_tool; good_tool] "" "add them" (start user_asks)))
    = user_asks ++ DeepSeek.assistant_message [bad_tool; good_tool] "" "add them" :: added
    /\ Forall2 answers [bad_tool; good_tool] added.
Proof.
  edestruct (deepseek_round_lists_every_call failing_env [bad_tool; good_tool]
               "" "add them" (start user_asks)) as (k & added & _ & Hk & Hm & _ & Hall).
  - constructor; [by exists JNull|]. constructor; [by exists (JObj [])|]. constructor.
  - rewrite Hk in Hall by (vm_compute; reflexivity).
    exists added. split; [exact Hm | exact Hall].
Defined.

Lemma minimax_results_all_or_nothing_witness :
  (exists results,
     messages (snd (Minimax._execute_tools_minimax_style answering_env [good_tool]
                      (start user_asks)))
     = user_asks ++ [plain_message "user" (CBlocks results)]
     /\ Forall2 tool_result_of [good_tool] results)
  /\ messages (snd (Minimax._execute_tools_minimax_style early_interrupt_env
                      [good_tool; good_tool; good_tool] (start user_asks)))
     = user_asks.
Proof.
  split.
  - pose proof (minimax_results_all_or_nothing answering_env [good_tool]
                  (start user_asks)) as Hall.
    destruct (fst (Minimax._execute_tools_minimax_style answering_env [good_tool]
                     (start user_asks))) eqn:E;
      try (vm_compute in E; discriminate).
    apply Hall. by repeat constructor.
  - pose proof (minimax_results_all_or_nothing early_interrupt_env
                  [good_tool; good_tool; good_tool] (start user_asks)) as Hnone.
    destruct (fst (Minimax._execute_tools_minimax_style early_interrupt_env
                     [good_tool; good_tool; good_tool] (start user_asks))) eqn:E;
      try (vm_compute in E; discriminate).
    apply Hnone. by repeat constructor.
Defined.

Lemma error_item_ends_run_witness :
  exists w',
    chatToNextLoop (anthropic streaming_anthropic) failing_adapter_env 1 (start user_asks)
    = (Returned, w')
    /\ messages w' = user_asks
    /\ emitted w' = [ev_answer "par"; ev_error "Error: boom"]
    /\ executor_calls w' = []
    /\ model_calls w' = 1.
Proof.
  apply (error_item_ends_run (anthropic streaming_anthropic) failing_adapter_env 0
           (start user_asks) [answer_item "par"]
           (error_event plain_str (OtherException "boom")) []).
  - reflexivity.
  - reflexivity.
  - constructor; [by right | constructor].
  - reflexivity.
Defined.

Lemma plain_round_ends_run_witness :
  exists w',
    chatToNextLoop (deepseek_openai streaming_openai) thinking_env 1 (start user_asks)
    = (Val tt, w')
    /\ messages w' = user_asks ++ [plain_message "assistant" (CStr "3")]
    /\ emitted w' = [ev_thinking "add them"; ev_answer "3"; ev_end]
    /\ executor_calls w' = []
    /\ model_calls w' = 1.
Proof.
  apply (plain_round_ends_run (deepseek_openai streaming_openai) thinking_env 0
           (start user_asks)).
  - reflexivity.
  - repeat (constructor; [by split|]). constructor.
Defined.
